(** * tcm_analysis: the five numeric kernels of the C extension

    Source: [services/common/computing/extensions/c_algorithms/tcm_analysis.c].

    The extension exports five functions to the Python interpreter.  Each one
    reads the dimensions of its NumPy arguments into [int] variables,
    allocates one result array with [PyArray_SimpleNew], and fills it in a
    loop nest over raw [float*] buffers.

    The embedding keeps that shape:

    - the floating-point operations the C code uses are the fields of the
      class [Num]; the kernels are written once against it and instantiated
      at IEEE binary32 ([F32_Num], the arithmetic the program runs on) and at
      the real numbers ([R_Num], the arithmetic its formulas are stated in);
    - NumPy arrays live in a heap ([gmap] from object addresses to a shape and
      a flat row-major buffer); a kernel is a state transformer on that heap
      which fails ([None]) where the C program's behaviour is undefined: an
      access outside a buffer, signed overflow of an index, the use of the
      null pointer a failed allocation returns;
    - a dimension is an [npy_intp]; the kernels keep it in an [int], and so
      does the embedding ([to_int]), as do the loop bounds, the flat indices
      and the divisors that derive from it;
    - a loop is a fold over [seq 0 n] that threads the local accumulators.

    The exported functions put the parsing of the argument tuple and the
    [PyArray_Check] type test in front of the kernels.  The loops under
    [#pragma omp parallel for] are run in index order by the kernels, and in
    an arbitrary order, one iteration after the other, by their scheduled
    variants.

    Not modelled: arrays whose elements are not [float] or whose buffer is
    not contiguous in row-major order (the code casts [PyArray_DATA] to
    [float*] without a test), an allocation that fails for want of memory,
    threads that interleave inside an iteration, and the initialisation of
    the module.  What [PyArg_ParseTuple] reports and what the conversion of
    format [f] does are CPython's, and parameters of the exported
    functions. *)

From Stdlib Require Import ZArith QArith Qabs Reals Lra Lia List String.
From Stdlib Require Import Floats.SpecFloat.
From stdpp Require Import base option list gmap.

(** ** The arithmetic the kernels are written against *)

Class Num (T : Type) : Type := {
  fzero : T;                 (* 0.0f *)
  fone : T;                  (* 1.0f *)
  feps : T;                  (* 1e-8f *)
  ftenth : T;                (* 0.1f *)
  fadd : T -> T -> T;
  fsub : T -> T -> T;
  fmul : T -> T -> T;
  fdiv : T -> T -> T;
  fneg : T -> T;
  fgt : T -> T -> bool;      (* a > b *)
  of_int : nat -> T;         (* (float)n for a dimension n *)
  sqrtf : T -> T;
  expf : T -> T;
  tanhf : T -> T
}.

(** Facts about the arithmetic that hold at both instances below and that
    the branch conditions of the kernels rest on. *)
Class NumLaws (T : Type) `{Num T} : Prop := {
  fgt_irrefl : forall x : T, fgt x x = false;
  fmul_zero_zero : fmul fzero fzero = fzero;
  fadd_zero_zero : fadd fzero fzero = fzero;
  sqrtf_zero : sqrtf fzero = fzero
}.

(** ** NumPy arrays and the heap *)

Record ndarray (T : Type) : Type := NDArray {
  dims : list nat;           (* PyArray_DIMS *)
  data : list T              (* PyArray_DATA, row-major *)
}.
Arguments NDArray {T} _ _.
Arguments dims {T} _.
Arguments data {T} _.

Abbreviation heap T := (gmap nat (ndarray T)).

(** A kernel maps a heap to a result and a new heap, or to [None] where
    the behaviour of the C code is undefined. *)
Definition M (T A : Type) : Type := heap T -> option (A * heap T).

Definition ret {T A : Type} (a : A) : M T A := fun h => Some (a, h).

Definition bind {T A B : Type} (m : M T A) (k : A -> M T B) : M T B :=
  fun h => match m h with
           | Some (a, h') => k a h'
           | None => None
           end.

Notation "'let*' x := m 'in' k" := (bind m (fun x => k))
  (at level 10, x pattern, m at level 100, k at level 200).

(** ** C integers *)

(** [INT_MAX] for the 32-bit [int] of the platforms NumPy supports. *)
Definition INT_MAX : Z := 2147483647.

(** [(int)d] for a dimension [d], an [npy_intp].  A value that does not fit
    is converted in an implementation-defined way (C99 6.3.1.3); gcc, clang
    and msvc reduce it modulo 2^32, and so does [to_int]. *)
Definition to_int (d : nat) : Z :=
  ((Z.of_nat d + 2147483648) mod 4294967296 - 2147483648)%Z.

(** The iterations of [for (int i = 0; i < n; i++)]: none when [n <= 0]. *)
Definition trips (n : Z) : nat := Z.to_nat n.

(** The number [d] is at most [INT_MAX]. *)
Definition fits_int (d : nat) : Prop := (Z.of_nat d <= INT_MAX)%Z.

Section Kernels.
Context {T : Type} `{Num T}.

(** The contents of freshly allocated memory: cell [k] of a new buffer
    holds [uninit k], about which nothing is known. *)
Variable uninit : nat -> T.

(** [PyArray_DIM(arr, k)], an [npy_intp]. *)
Definition PyArray_DIM (arr k : nat) : M T nat :=
  fun h => match h !! arr with
           | Some a => match dims a !! k with
                       | Some d => Some (d, h)
                       | None => None
                       end
           | None => None
           end.

(** [int n = PyArray_DIM(arr, k);] *)
Definition int_DIM (arr k : nat) : M T Z :=
  let* d := PyArray_DIM arr k in
  ret (to_int d).

(** [result = PyArray_SimpleNew(nd, dims, NPY_FLOAT32)] with
    [PyArray_DATA(result)]: a new object at an unused address, its buffer
    not initialised.  With a negative dimension NumPy sets an exception and
    returns [NULL], which [PyArray_DATA] then dereferences. *)
Definition PyArray_SimpleNew (shape : list Z) : M T nat :=
  fun h => if forallb (Z.leb 0) shape
           then let p := fresh (dom h) in
                let sh := map Z.to_nat shape in
                Some (p, <[p := NDArray sh (map uninit (seq 0 (foldr Nat.mul 1 sh)))]> h)
           else None.

(** [((float* )PyArray_DATA(arr))[idx]] as an rvalue. *)
Definition load (arr idx : nat) : M T T :=
  fun h => match h !! arr with
           | Some a => match data a !! idx with
                       | Some x => Some (x, h)
                       | None => None
                       end
           | None => None
           end.

(** [((float* )PyArray_DATA(arr))[idx] = v]. *)
Definition store (arr idx : nat) (v : T) : M T unit :=
  fun h => match h !! arr with
           | Some a => if decide (idx < length (data a))
                       then Some (tt, <[arr := NDArray (dims a) (<[idx := v]> (data a))]> h)
                       else None
           | None => None
           end.

(** [i * n + j] for the [int]s [i], [n] and [j], as an index: signed
    overflow is undefined, and so is an index below 0. *)
Definition flat_index (i : nat) (n : Z) (j : nat) : M T nat :=
  fun h => let idx := (Z.of_nat i * n + Z.of_nat j)%Z in
           if decide (0 <= idx <= INT_MAX)%Z then Some (Z.to_nat idx, h) else None.

(** [(float)n] for the [int] [n]. *)
Definition float_of_int (n : Z) : T :=
  if (n <? 0)%Z then fneg (of_int (Z.to_nat (- n))) else of_int (Z.to_nat n).

(** [for (int j = 0; j < n; j++) body], the locals it updates threaded
    as [a]; [for_in] runs the iterations in the given order. *)
Fixpoint foldM {A : Type} (body : nat -> A -> M T A) (js : list nat) (a : A) : M T A :=
  match js with
  | [] => ret a
  | j :: js' => let* a' := body j a in foldM body js' a'
  end.

Definition for_ {A : Type} (n : nat) (a : A) (body : nat -> A -> M T A) : M T A :=
  foldM body (seq 0 n) a.

Definition for_in {A : Type} (order : list nat) (a : A) (body : nat -> A -> M T A) : M T A :=
  foldM body order a.

(** *** The kernels

    Each kernel is given with the body of its parallel loop, one iteration,
    as a definition of its own. *)

(** Lines 44-53: the score of pattern row [i], through the sigmoid. *)
Definition tcm_syndrome_analysis_iteration (symptoms weights patterns result : nat)
           (n_symptoms : Z) (i : nat) : M T unit :=
  let* score := for_ (trips n_symptoms) fzero (fun j score =>
    let* s := load symptoms j in
    let* w := load weights j in
    let weighted_symptom := fmul s w in
    let* k := flat_index i n_symptoms j in
    let* pattern_weight := load patterns k in
    ret (fadd score (fmul weighted_symptom pattern_weight))) in
  store result i (fdiv fone (fadd fone (expf (fneg score)))).

(** Lines 13-57. *)
Definition tcm_syndrome_analysis (symptoms weights patterns : nat) : M T nat :=
  let* n_symptoms := int_DIM symptoms 0 in
  let* n_patterns := int_DIM patterns 0 in
  let* result := PyArray_SimpleNew [n_patterns] in
  let* _ := for_ (trips n_patterns) tt (fun i _ =>
    tcm_syndrome_analysis_iteration symptoms weights patterns result n_symptoms i) in
  ret result.

(** Lines 85-105: for feature (column) [j], the mean, the variance, then
    the standard score of every sample; [1e-8f] guards the division. *)
Definition health_data_normalize_iteration (data_arr result : nat)
           (n_samples n_features : Z) (j : nat) : M T unit :=
  let* mean := for_ (trips n_samples) fzero (fun i mean =>
    let* k := flat_index i n_features j in
    let* x := load data_arr k in
    ret (fadd mean x)) in
  let mean := fdiv mean (float_of_int n_samples) in
  let* variance := for_ (trips n_samples) fzero (fun i variance =>
    let* k := flat_index i n_features j in
    let* x := load data_arr k in
    let diff := fsub x mean in
    ret (fadd variance (fmul diff diff))) in
  let variance := fdiv variance (float_of_int n_samples) in
  let std := sqrtf (fadd variance feps) in
  for_ (trips n_samples) tt (fun i _ =>
    let* k := flat_index i n_features j in
    let* x := load data_arr k in
    store result k (fdiv (fsub x mean) std)).

(** Lines 60-109. *)
Definition health_data_normalize (data_arr : nat) : M T nat :=
  let* n_samples := int_DIM data_arr 0 in
  let* n_features := int_DIM data_arr 1 in
  let* result := PyArray_SimpleNew [n_samples; n_features] in
  let* _ := for_ (trips n_features) tt (fun j _ =>
    health_data_normalize_iteration data_arr result n_samples n_features j) in
  ret result.

(** Lines 145-161: for food [i], the dot product and the food's norm in
    one pass, and the cosine similarity, or [0.0f] unless both norms are
    positive. *)
Definition nutrition_optimization_iteration (user_profile food_database result : nat)
           (n_features : Z) (profile_norm : T) (i : nat) : M T unit :=
  let* acc := for_ (trips n_features) (fzero, fzero) (fun j acc =>
    let '(dot_product, food_norm) := acc in
    let* k := flat_index i n_features j in
    let* food_feature := load food_database k in
    let* p := load user_profile j in
    ret (fadd dot_product (fmul p food_feature),
         fadd food_norm (fmul food_feature food_feature))) in
  let '(dot_product, food_norm) := acc in
  let food_norm := sqrtf food_norm in
  if fgt profile_norm fzero && fgt food_norm fzero
  then store result i (fdiv dot_product (fmul profile_norm food_norm))
  else store result i fzero.

(** Lines 112-165: the L2 norm of the profile, once, then the foods. *)
Definition nutrition_optimization (user_profile food_database : nat) : M T nat :=
  let* n_foods := int_DIM food_database 0 in
  let* n_features := int_DIM food_database 1 in
  let* result := PyArray_SimpleNew [n_foods] in
  let* profile_norm := for_ (trips n_features) fzero (fun i profile_norm =>
    let* p := load user_profile i in
    ret (fadd profile_norm (fmul p p))) in
  let profile_norm := sqrtf profile_norm in
  let* _ := for_ (trips n_foods) tt (fun i _ =>
    nutrition_optimization_iteration user_profile food_database result n_features
                                     profile_norm i) in
  ret result.

(** Lines 194-203: for sample [i], [tanhf] of the excess over the
    threshold, or a tenth of the value when it does not exceed the
    threshold. *)
Definition biometric_processing_iteration (biomarkers result : nat) (n_markers : Z)
           (threshold : T) (i : nat) : M T unit :=
  for_ (trips n_markers) tt (fun j _ =>
    let* k := flat_index i n_markers j in
    let* value := load biomarkers k in
    if fgt value threshold
    then store result k (tanhf (fsub value threshold))
    else store result k (fmul value ftenth)).

(** Lines 168-207. *)
Definition biometric_processing (biomarkers : nat) (threshold : T) : M T nat :=
  let* n_samples := int_DIM biomarkers 0 in
  let* n_markers := int_DIM biomarkers 1 in
  let* result := PyArray_SimpleNew [n_samples; n_markers] in
  let* _ := for_ (trips n_samples) tt (fun i _ =>
    biometric_processing_iteration biomarkers result n_markers threshold i) in
  ret result.

(** Lines 236-243: for pattern [i], the mean Gaussian similarity to the
    query. *)
Definition pattern_matching_iteration (query database result : nat)
           (pattern_length : Z) (i : nat) : M T unit :=
  let* similarity := for_ (trips pattern_length) fzero (fun j similarity =>
    let* q := load query j in
    let* k := flat_index i pattern_length j in
    let* d := load database k in
    let diff := fsub q d in
    ret (fadd similarity (expf (fmul (fneg diff) diff)))) in
  store result i (fdiv similarity (float_of_int pattern_length)).

(** Lines 210-247. *)
Definition pattern_matching (query database : nat) : M T nat :=
  let* n_patterns := int_DIM database 0 in
  let* pattern_length := int_DIM database 1 in
  let* result := PyArray_SimpleNew [n_patterns] in
  let* _ := for_ (trips n_patterns) tt (fun i _ =>
    pattern_matching_iteration query database result pattern_length i) in
  ret result.

(** *** The parallel loops in another order

    The outer loop of every kernel stands under [#pragma omp parallel for]:
    its iterations are handed to a team of threads.  The kernels above run
    them in index order.  The kernels below run them one after the other in
    the order [schedule n] gives for a loop of [n] iterations; at the
    schedule [seq 0] they are the kernels above. *)

Variable schedule : nat -> list nat.

Definition tcm_syndrome_analysis_in (symptoms weights patterns : nat) : M T nat :=
  let* n_symptoms := int_DIM symptoms 0 in
  let* n_patterns := int_DIM patterns 0 in
  let* result := PyArray_SimpleNew [n_patterns] in
  let* _ := for_in (schedule (trips n_patterns)) tt (fun i _ =>
    tcm_syndrome_analysis_iteration symptoms weights patterns result n_symptoms i) in
  ret result.

Definition health_data_normalize_in (data_arr : nat) : M T nat :=
  let* n_samples := int_DIM data_arr 0 in
  let* n_features := int_DIM data_arr 1 in
  let* result := PyArray_SimpleNew [n_samples; n_features] in
  let* _ := for_in (schedule (trips n_features)) tt (fun j _ =>
    health_data_normalize_iteration data_arr result n_samples n_features j) in
  ret result.

Definition nutrition_optimization_in (user_profile food_database : nat) : M T nat :=
  let* n_foods := int_DIM food_database 0 in
  let* n_features := int_DIM food_database 1 in
  let* result := PyArray_SimpleNew [n_foods] in
  let* profile_norm := for_ (trips n_features) fzero (fun i profile_norm =>
    let* p := load user_profile i in
    ret (fadd profile_norm (fmul p p))) in
  let profile_norm := sqrtf profile_norm in
  let* _ := for_in (schedule (trips n_foods)) tt (fun i _ =>
    nutrition_optimization_iteration user_profile food_database result n_features
                                     profile_norm i) in
  ret result.

Definition biometric_processing_in (biomarkers : nat) (threshold : T) : M T nat :=
  let* n_samples := int_DIM biomarkers 0 in
  let* n_markers := int_DIM biomarkers 1 in
  let* result := PyArray_SimpleNew [n_samples; n_markers] in
  let* _ := for_in (schedule (trips n_samples)) tt (fun i _ =>
    biometric_processing_iteration biomarkers result n_markers threshold i) in
  ret result.

Definition pattern_matching_in (query database : nat) : M T nat :=
  let* n_patterns := int_DIM database 0 in
  let* pattern_length := int_DIM database 1 in
  let* result := PyArray_SimpleNew [n_patterns] in
  let* _ := for_in (schedule (trips n_patterns)) tt (fun i _ =>
    pattern_matching_iteration query database result pattern_length i) in
  ret result.

End Kernels.

(** ** The formulas of the specification

    Each is a function of the input buffers alone, written with the same
    arithmetic; sums run left to right from [fzero], as the loops do. *)

Section Formulas.
Context {T : Type} `{Num T}.

(** [l[i]], read as [fzero] outside the list. *)
Definition get (l : list T) (i : nat) : T := default fzero (l !! i).

(** [f 0 + f 1 + ... + f (n-1)]. *)
Definition sum_to (n : nat) (f : nat -> T) : T :=
  fold_left (fun acc j => fadd acc (f j)) (seq 0 n) fzero.

Definition sigmoid (x : T) : T := fdiv fone (fadd fone (expf (fneg x))).

(** 4.1: sigmoid (sum_j s[j] * w[j] * P[i][j]). *)
Definition weighted_sum (s w P : list T) (N i : nat) : T :=
  sum_to N (fun j => fmul (fmul (get s j) (get w j)) (get P (i * N + j))).

Definition syndrome_score (s w P : list T) (N i : nat) : T :=
  sigmoid (weighted_sum s w P N i).

(** 4.2: column mean, population variance, standard score. *)
Definition col_mean (D : list T) (R C j : nat) : T :=
  fdiv (sum_to R (fun i => get D (i * C + j))) (of_int R).

Definition col_variance (D : list T) (R C j : nat) : T :=
  fdiv (sum_to R (fun i => let d := fsub (get D (i * C + j)) (col_mean D R C j) in
                           fmul d d))
       (of_int R).

Definition standardize (D : list T) (R C i j : nat) : T :=
  fdiv (fsub (get D (i * C + j)) (col_mean D R C j))
       (sqrtf (fadd (col_variance D R C j) feps)).

(** 4.3: dot product and Euclidean norms, with the zero-norm branch. *)
Definition norm2 (K : nat) (f : nat -> T) : T :=
  sqrtf (sum_to K (fun j => fmul (f j) (f j))).

Definition dot (p F : list T) (K i : nat) : T :=
  sum_to K (fun j => fmul (get p j) (get F (i * K + j))).

Definition cosine_match (p F : list T) (K i : nat) : T :=
  let pn := norm2 K (get p) in
  let fn := norm2 K (fun j => get F (i * K + j)) in
  if fgt pn fzero && fgt fn fzero
  then fdiv (dot p F K i) (fmul pn fn)
  else fzero.

(** 4.4 *)
Definition threshold_transform (t v : T) : T :=
  if fgt v t then tanhf (fsub v t) else fmul v ftenth.

(** 4.5: (sum_j exp (-(q[j] - D[i][j])^2)) / L. *)
Definition gaussian_match (q D : list T) (L i : nat) : T :=
  fdiv (sum_to L (fun j => let d := fsub (get q j) (get D (i * L + j)) in
                           expf (fmul (fneg d) d)))
       (of_int L).

End Formulas.

(** 4.5 with the divisor the code uses, [(float)pattern_length] for the
    [int] it keeps the row length in. *)
Definition gaussian_match_int {T : Type} `{Num T} (q D : list T) (L : Z) (i : nat) : T :=
  fdiv (sum_to (trips L) (fun j => let d := fsub (get q j) (get D (i * trips L + j)) in
                                   expf (fmul (fneg d) d)))
       (float_of_int L).

(** A kernel call returns a new array of shape [sh] holding [out]: the
    address is one the heap did not hold, and the heap is otherwise
    unchanged. *)
Definition returns_array {T : Type} (m : M T nat) (h : heap T)
           (sh : list nat) (out : list T) : Prop :=
  exists r, h !! r = None /\ m h = Some (r, <[r := NDArray sh out]> h).

(** A call that only allocates: it returns a new array of shape [sh] at an
    address [r] the heap did not hold, and every array the heap held before
    the call is there after it, with the same shape and contents. *)
Definition only_allocates {T : Type} (m : M T nat) (h : heap T) (sh : list nat) : Prop :=
  exists (r : nat) (h' : heap T),
    m h = Some (r, h')
    /\ h !! r = None
    /\ (forall p a, h !! p = Some a -> h' !! p = Some a)
    /\ (forall p, p <> r -> h' !! p = h !! p)
    /\ exists out, h' !! r = Some (NDArray sh out) /\ length out = foldr Nat.mul 1 sh.

(** [m] keeps [J]: when it returns from a heap in [J], it leaves a heap
    in [J]. *)
Definition preserves {T A : Type} (J : heap T -> Prop) (m : M T A) : Prop :=
  forall h a h', J h -> m h = Some (a, h') -> J h'.

(** [m] can only return [p]. *)
Definition yields {T A : Type} (p : A) (m : M T A) : Prop :=
  forall h a h', m h = Some (a, h') -> a = p.

(** The heaps that are [h0] but for the contents of the array at [r], which
    has shape [sh] and [n] cells. *)
Definition result_only {T : Type} (h0 : heap T) (r : nat) (sh : list nat) (n : nat)
           (h : heap T) : Prop :=
  exists D, h = <[r := NDArray sh D]> h0 /\ length D = n.

(** [h'] is [h] with one more array, at [r]. *)
Definition fresh_array {T : Type} (h : heap T) (r : nat) (h' : heap T) : Prop :=
  h !! r = None
  /\ (forall p, p <> r -> h' !! p = h !! p)
  /\ exists sh out, h' !! r = Some (NDArray sh out) /\ length out = foldr Nat.mul 1 sh.

(** ** The two arithmetics *)

(** *** Real numbers: the arithmetic of the formulas *)

#[export] Instance R_Num : Num R := {|
  fzero := 0%R;
  fone := 1%R;
  feps := (1 / 100000000)%R;
  ftenth := (1 / 10)%R;
  fadd := Rplus;
  fsub := Rminus;
  fmul := Rmult;
  fdiv := Rdiv;
  fneg := Ropp;
  fgt := fun x y => if Rlt_dec y x then true else false;
  of_int := INR;
  sqrtf := sqrt;
  expf := exp;
  tanhf := tanh
|}.

(** *** IEEE binary32: the arithmetic of the program

    [float] is binary32 with round-to-nearest-even: 24 bits of precision
    and exponents below 128.  The operators and [sqrtf] are the correctly
    rounded IEEE operations; the program is taken to evaluate every [float]
    expression in binary32, one rounding per operation (no excess precision,
    no contraction of a product and a sum into a fused multiply-add). *)

Abbreviation float32 := spec_float.

Definition prec32 : Z := 24.
Definition emax32 : Z := 128.

(** [expf] and [tanhf] come from the C library.  All that is assumed of
    them is what Annex F of the C standard fixes for [exp] at zeros and
    infinities. *)
Class Libm : Type := {
  lm_expf : float32 -> float32;
  lm_tanhf : float32 -> float32;
  expf_zero : forall s, lm_expf (S754_zero s) = S754_finite false 8388608 (-23);
  expf_ninf : lm_expf (S754_infinity true) = S754_zero false;
  expf_pinf : lm_expf (S754_infinity false) = S754_infinity false
}.

#[export] Instance F32_Num {lm : Libm} : Num float32 := {|
  fzero := S754_zero false;
  fone := S754_finite false 8388608 (-23);
  feps := S754_finite false 11258999 (-50);
  ftenth := S754_finite false 13421773 (-27);
  fadd := SFadd prec32 emax32;
  fsub := SFsub prec32 emax32;
  fmul := SFmul prec32 emax32;
  fdiv := SFdiv prec32 emax32;
  fneg := SFopp;
  fgt := fun x y => SFltb y x;
  of_int := fun n => binary_normalize prec32 emax32 (Z.of_nat n) 0 false;
  sqrtf := SFsqrt prec32 emax32;
  expf := lm_expf;
  tanhf := lm_tanhf
|}.

(** [Libm] is inhabited: the values Annex F fixes, and the first-order
    values [1 + x] for [expf] and [x] for [tanhf] at the other arguments.
    This is not a model of any C library; it is used only where a statement
    has to be instantiated at some [Libm], and no statement depends on its
    values. *)
Definition first_order_expf (x : float32) : float32 :=
  match x with
  | S754_zero _ => S754_finite false 8388608 (-23)
  | S754_infinity true => S754_zero false
  | S754_infinity false => S754_infinity false
  | S754_nan => S754_nan
  | S754_finite _ _ _ => SFadd prec32 emax32 (S754_finite false 8388608 (-23)) x
  end.

Definition first_order_libm : Libm := {|
  lm_expf := first_order_expf;
  lm_tanhf := fun x => x;
  expf_zero := fun _ => eq_refl;
  expf_ninf := eq_refl;
  expf_pinf := eq_refl
|}.

(** ** Example inputs *)

(** Symptoms [s] and weights [w] of length [N], and [Mr] patterns [P]. *)
Definition syndrome_heap {T : Type} (N Mr : nat) (s w P : list T) : heap T :=
  <[0 := NDArray [N] s]> (<[1 := NDArray [N] w]> (<[2 := NDArray [Mr; N] P]> ∅)).

(** symptoms = [1, 1], weights = [1, 1], pattern = [[1, 1]]. *)
Definition syndrome_example {T : Type} (one : T) : heap T :=
  syndrome_heap 2 1 [one; one] [one; one] [one; one].

(** A one-column matrix with the given entries. *)
Definition column_example {T : Type} (xs : list T) : heap T :=
  <[0 := NDArray [length xs; 1] xs]> ∅.

(** A vector [p] of length [K] and a matrix [F] with [R] rows of width [K]. *)
Definition vector_matrix_example {T : Type} (K R : nat) (p F : list T) : heap T :=
  <[0 := NDArray [K] p]> (<[1 := NDArray [R; K] F]> ∅).

Definition two32 : float32 := S754_finite false 8388608 (-22).
Definition three32 : float32 := S754_finite false 12582912 (-22).

(** The rational a finite binary32 number stands for (0 for the others). *)
Definition F2Q (x : float32) : Q :=
  match x with
  | S754_finite s m e => (inject_Z (cond_Zopp s (Zpos m)) * Qpower 2 e)%Q
  | _ => 0%Q
  end.

(** 2^100, 2^-100, 2^-17, 2^-20 and 2^24 - 1 in binary32. *)
Definition big32 : float32 := S754_finite false 8388608 77.
Definition tiny32 : float32 := S754_finite false 8388608 (-123).
Definition small32 : float32 := S754_finite false 8388608 (-40).
Definition odd32 : float32 := S754_finite false 16777215 0.

(** Heaps that hold the given arrays at the addresses 0, 1 and 2. *)
Definition two_arrays {T : Type} (a b : ndarray T) : heap T :=
  <[0 := a]> (<[1 := b]> ∅).

Definition three_arrays {T : Type} (a b c : ndarray T) : heap T :=
  <[0 := a]> (<[1 := b]> (<[2 := c]> ∅)).

(** A matrix [D] with [R] rows of width [C]. *)
Definition matrix_example {T : Type} (R C : nat) (D : list T) : heap T :=
  <[0 := NDArray [R; C] D]> ∅.

(** Dimensions that do not fit in an [int]: 2^31, 2^32 and 2^32 + 1; and
    2^30 + 1, which fits, while twice as much does not. *)
Definition dim_2_31 : nat := Z.to_nat 2147483648.
Definition dim_2_32 : nat := Z.to_nat 4294967296.
Definition dim_2_32_1 : nat := Z.to_nat 4294967297.
Definition dim_2_30_1 : nat := Z.to_nat 1073741825.

(** ** The exported functions

    What the interpreter calls: each function of the method table takes the
    argument tuple, parses it with [PyArg_ParseTuple], tests the array
    arguments with [PyArray_Check], and then runs its kernel on them.  An
    object is a NumPy array or something else; both have an address. *)

Inductive PyObject : Type :=
  | Ndarray (p : nat)
  | Other (p : nat).

Definition PyArray_Check (o : PyObject) : bool :=
  match o with
  | Ndarray _ => true
  | Other _ => false
  end.

(** The cast [(PyArrayObject* )o]. *)
Definition address (o : PyObject) : nat :=
  match o with
  | Ndarray p => p
  | Other p => p
  end.

(** The exception a call leaves set: its type and its message. *)
Record PyErr : Type := PyExc {
  exc_type : string;
  exc_msg : string
}.

(** [PyExc_TypeError] with a message. *)
Definition TypeError (msg : string) : PyErr := PyExc "TypeError" msg.

(** How a call ends: with a new reference, with [NULL] and an exception
    set, or in undefined behaviour. *)
Inductive outcome (T : Type) : Type :=
  | Returns (r : nat) (h : heap T)
  | Raises (e : PyErr) (h : heap T)
  | Undefined.
Arguments Returns {T} _ _.
Arguments Raises {T} _ _.
Arguments Undefined {T}.

(** The message of lines 23, 68, 120, 177 and 218. *)
Definition not_an_array : string := "输入必须是NumPy数组"%string.

Section Exported.
Context {T : Type} `{Num T}.
Variable uninit : nat -> T.

(** What [PyArg_ParseTuple] does is CPython's.  For a tuple of the wrong
    length it sets a [TypeError] whose message, [arity_msg expected given],
    is the interpreter's.  For format [f] it converts the object with its
    [__float__] method: Python code, which returns a number or raises an
    exception of its own, and which may change the heap before it does
    either. *)
Variable arity_msg : nat -> nat -> string.
Variable float_of : PyObject -> heap T -> (PyErr + T) * heap T.

(** [return (PyObject* )result] after the kernel [m]. *)
Definition run_kernel (m : M T nat) (h : heap T) : outcome T :=
  match m h with
  | Some (r, h') => Returns r h'
  | None => Undefined
  end.

(** Lines 13-57, format [OOO]. *)
Definition py_tcm_syndrome_analysis (args : list PyObject) (h : heap T) : outcome T :=
  match args with
  | [symptoms; weights; patterns] =>
      if negb (PyArray_Check symptoms) || negb (PyArray_Check weights)
         || negb (PyArray_Check patterns)
      then Raises (TypeError not_an_array) h
      else run_kernel (tcm_syndrome_analysis uninit (address symptoms) (address weights)
                                             (address patterns)) h
  | _ => Raises (TypeError (arity_msg 3 (length args))) h
  end.

(** Lines 60-109, format [O]. *)
Definition py_health_data_normalize (args : list PyObject) (h : heap T) : outcome T :=
  match args with
  | [data_obj] =>
      if negb (PyArray_Check data_obj)
      then Raises (TypeError not_an_array) h
      else run_kernel (health_data_normalize uninit (address data_obj)) h
  | _ => Raises (TypeError (arity_msg 1 (length args))) h
  end.

(** Lines 112-165, format [OO]. *)
Definition py_nutrition_optimization (args : list PyObject) (h : heap T) : outcome T :=
  match args with
  | [user_profile; food_database] =>
      if negb (PyArray_Check user_profile) || negb (PyArray_Check food_database)
      then Raises (TypeError not_an_array) h
      else run_kernel (nutrition_optimization uninit (address user_profile)
                                              (address food_database)) h
  | _ => Raises (TypeError (arity_msg 2 (length args))) h
  end.

(** Lines 168-207, format [Of]: the threshold is converted before the
    array is tested, and the rest of the call sees the heap the conversion
    left. *)
Definition py_biometric_processing (args : list PyObject) (h : heap T) : outcome T :=
  match args with
  | [biomarkers; threshold_obj] =>
      match float_of threshold_obj h with
      | (inr threshold, h1) =>
          if negb (PyArray_Check biomarkers)
          then Raises (TypeError not_an_array) h1
          else run_kernel (biometric_processing uninit (address biomarkers) threshold) h1
      | (inl e, h1) => Raises e h1
      end
  | _ => Raises (TypeError (arity_msg 2 (length args))) h
  end.

(** Lines 210-247, format [OO]. *)
Definition py_pattern_matching (args : list PyObject) (h : heap T) : outcome T :=
  match args with
  | [query; database] =>
      if negb (PyArray_Check query) || negb (PyArray_Check database)
      then Raises (TypeError not_an_array) h
      else run_kernel (pattern_matching uninit (address query) (address database)) h
  | _ => Raises (TypeError (arity_msg 2 (length args))) h
  end.

(** Lines 250-257: the method table, name and function (all [METH_VARARGS]). *)
Definition TCMAnalysisMethods : list (string * (list PyObject -> heap T -> outcome T)) :=
  [ ("tcm_syndrome_analysis"%string, py_tcm_syndrome_analysis);
    ("health_data_normalize"%string, py_health_data_normalize);
    ("nutrition_optimization"%string, py_nutrition_optimization);
    ("biometric_processing"%string, py_biometric_processing);
    ("pattern_matching"%string, py_pattern_matching) ].

(** The heaps a call can start its own work from: the heap it is given,
    or the one the conversion of one of its arguments left. *)
Definition after_parsing (args : list PyObject) (h h1 : heap T) : Prop :=
  h1 = h \/ exists o, In o args /\ h1 = snd (float_of o h).

End Exported.

(** A conversion for the examples: every object converts to [x], and the
    heap stays as it is. *)
Definition float_of_const {T : Type} (x : T) (o : PyObject) (h : heap T)
  : (PyErr + T) * heap T :=
  (inr x, h).

(** A call of an exported function is safe from the heap [h] when it
    raises and leaves the heap as it was, or returns a new array and leaves
    every other array as it was, or is undefined. *)
Definition adds_at_most_one_array {T : Type} (h : heap T) (o : outcome T) : Prop :=
  match o with
  | Returns r h' => fresh_array h r h'
  | Raises _ h' => h' = h
  | Undefined => True
  end.

(** A call of an exported function returns a new array of shape [sh]
    holding [out], and leaves the heap otherwise as it was. *)
Definition call_returns_array {T : Type} (o : outcome T) (h : heap T)
           (sh : list nat) (out : list T) : Prop :=
  exists r, h !! r = None /\ o = Returns r (<[r := NDArray sh out]> h).

(** The iterations [body 0], ..., [body (n - 1)] of a loop that fills the
    array at [r] are independent when, run on the heap [h] with any contents
    [D] of that array, iteration [k] returns, has stored [F idx] in the
    cells [idx] with [cells k idx], and has changed nothing else; and no
    cell belongs to two iterations.  The values [F idx] depend neither on
    [D] nor on [k]: an iteration reads nothing another one writes. *)
Definition independent_iterations {T : Type} (n r : nat) (sh : list nat) (len : nat)
           (cells : nat -> nat -> bool) (F : nat -> T)
           (body : nat -> unit -> M T unit) (h : heap T) : Prop :=
  (forall k D, k < n -> length D = len ->
     exists D', body k tt (<[r := NDArray sh D]> h) = Some (tt, <[r := NDArray sh D']> h)
       /\ length D' = len
       /\ forall idx, D' !! idx = if cells k idx then Some (F idx) else D !! idx)
  /\ (forall k k' idx, k < n -> k' < n ->
        cells k idx = true -> cells k' idx = true -> k = k').

(** * Proofs *)

(** ** The laws hold in both arithmetics *)

#[export] Instance R_NumLaws : NumLaws R.
Proof.
  split; simpl.
  - intros x. destruct (Rlt_dec x x) as [Hx|]; [|reflexivity].
    exfalso. exact (Rlt_irrefl x Hx).
  - apply Rmult_0_l.
  - apply Rplus_0_l.
  - apply sqrt_0.
Qed.

(** The named binary32 constants are the numbers their names say. *)
Lemma example_values :
  (F2Q two32 == 2)%Q /\ (F2Q three32 == 3)%Q
  /\ (F2Q big32 == 2 ^ 100)%Q /\ (F2Q tiny32 == / 2 ^ 100)%Q
  /\ (F2Q small32 == / 2 ^ 17)%Q /\ (F2Q odd32 == 2 ^ 24 - 1)%Q.
Proof. repeat split; vm_compute; reflexivity. Qed.

(** The literals are the binary32 numbers nearest to the decimals: each is
    the quotient of two exactly representable integers, rounded once. *)
Lemma literals_binary32 :
  S754_finite false 8388608 (-23) = binary_normalize prec32 emax32 1 0 false
  /\ S754_finite false 13421773 (-27)
     = SFdiv prec32 emax32 (binary_normalize prec32 emax32 1 0 false)
             (binary_normalize prec32 emax32 10 0 false)
  /\ S754_finite false 11258999 (-50)
     = SFdiv prec32 emax32 (binary_normalize prec32 emax32 1 0 false)
             (binary_normalize prec32 emax32 100000000 0 false)
  /\ valid_binary prec32 emax32 (binary_normalize prec32 emax32 100000000 0 false) = true.
Proof. repeat split; vm_compute; reflexivity. Qed.

Lemma SFltb_irrefl (x : float32) : SFltb x x = false.
Proof.
  unfold SFltb, SFcompare.
  destruct x as [s|s| |s m e]; try destruct s; try reflexivity;
    rewrite Z.compare_refl; change (Pos.compare_cont Eq m m) with (Pos.compare m m);
    rewrite Pos.compare_refl; reflexivity.
Qed.

Lemma SFcompare_Eq_sym (x y : float32) :
  SFcompare x y = Some Eq -> SFcompare y x = Some Eq.
Proof.
  destruct x as [s|s| |s m e], y as [s'|s'| |s' m' e']; simpl;
    try destruct s; try destruct s'; try discriminate; try reflexivity.
  - destruct (Z.compare_spec e e') as [->| |]; try discriminate.
    intros Hm. injection Hm as Hm. apply CompOpp_iff in Hm. simpl in Hm.
    change (Pos.compare_cont Eq m m') with (Pos.compare m m') in Hm.
    apply Pos.compare_eq in Hm. subst m'.
    rewrite Z.compare_refl. change (Pos.compare_cont Eq m m) with (Pos.compare m m).
    rewrite Pos.compare_refl. reflexivity.
  - destruct (Z.compare_spec e e') as [->| |]; try discriminate.
    intros Hm. injection Hm as Hm.
    change (Pos.compare_cont Eq m m') with (Pos.compare m m') in Hm.
    apply Pos.compare_eq in Hm. subst m'.
    rewrite Z.compare_refl. change (Pos.compare_cont Eq m m) with (Pos.compare m m).
    rewrite Pos.compare_refl. reflexivity.
Qed.

(** [v == t] rules out [v > t]. *)
Lemma SFltb_of_eqb (v t : float32) : SFeqb v t = true -> SFltb t v = false.
Proof.
  unfold SFeqb, SFltb. intros Hv.
  destruct (SFcompare v t) as [[| |]|] eqn:E; try discriminate.
  rewrite (SFcompare_Eq_sym v t E). reflexivity.
Qed.

#[export] Instance F32_NumLaws {lm : Libm} : NumLaws float32.
Proof.
  split; simpl.
  - apply SFltb_irrefl.
  - reflexivity.
  - reflexivity.
  - reflexivity.
Qed.

Section FormulaFacts.
Context {T : Type} `{Num T}.

Lemma sum_to_S n f : sum_to (S n) f = fadd (sum_to n f) (f n).
Proof.
  unfold sum_to. rewrite seq_S, fold_left_app. reflexivity.
Qed.

Lemma sum_to_1 f : sum_to 1 f = fadd fzero (f 0).
Proof. reflexivity. Qed.

Lemma sum_to_ext n f g :
  (forall j, j < n -> f j = g j) -> sum_to n f = sum_to n g.
Proof.
  induction n as [|n IH]; intros E; [reflexivity|].
  rewrite !sum_to_S, IH, (E n) by (intros; try apply E; lia). reflexivity.
Qed.

Lemma get_lookup (l : list T) i x : l !! i = Some x -> get l i = x.
Proof. unfold get. intros ->. reflexivity. Qed.

Lemma lookup_get (l : list T) i : i < length l -> l !! i = Some (get l i).
Proof.
  intros Hi. destruct (lookup_lt_is_Some_2 l i Hi) as [x Hx].
  rewrite Hx. f_equal. symmetry. apply get_lookup, Hx.
Qed.
End FormulaFacts.

(** ** Running the loops *)

Section Loops.
Context {T : Type} `{Num T}.

Lemma bind_Some {A B : Type} (m : M T A) (k : A -> M T B) h a h' :
  m h = Some (a, h') -> bind m k h = k a h'.
Proof. unfold bind. intros ->. reflexivity. Qed.

Lemma foldM_inv {A : Type} (I : nat -> A -> heap T -> Prop)
      (body : nat -> A -> M T A) (len s : nat) (a0 : A) (h0 : heap T) :
  I s a0 h0 ->
  (forall k a h, s <= k < s + len -> I k a h ->
     exists a' h', body k a h = Some (a', h') /\ I (S k) a' h') ->
  exists a h, foldM body (seq s len) a0 h0 = Some (a, h) /\ I (s + len) a h.
Proof.
  revert s a0 h0. induction len as [|len IH]; intros s a0 h0 H0 Hstep; simpl.
  - exists a0, h0. rewrite Nat.add_0_r. split; [reflexivity | exact H0].
  - destruct (Hstep s a0 h0 ltac:(lia) H0) as (a1 & h1 & E1 & H1).
    rewrite (bind_Some _ _ _ _ _ E1).
    destruct (IH (S s) a1 h1 H1) as (a & h & E & HI).
    + intros k a h Hk. apply Hstep. lia.
    + exists a, h. split; [exact E|].
      replace (s + S len) with (S s + len) by lia. exact HI.
Qed.

(** The invariant rule for [for_]. *)
Lemma for_inv {A : Type} (I : nat -> A -> heap T -> Prop)
      (n : nat) (body : nat -> A -> M T A) (a0 : A) (h0 : heap T) :
  I 0 a0 h0 ->
  (forall k a h, k < n -> I k a h ->
     exists a' h', body k a h = Some (a', h') /\ I (S k) a' h') ->
  exists a h, for_ n a0 body h0 = Some (a, h) /\ I n a h.
Proof.
  intros H0 Hstep. unfold for_.
  apply (foldM_inv I body n 0 a0 h0 H0).
  intros k a h Hk. apply Hstep. lia.
Qed.

(** A loop whose body only reads the heap computes a left fold. *)
Lemma for_pure {A : Type} (n : nat) (f : nat -> A -> A)
      (body : nat -> A -> M T A) (a0 : A) (h : heap T) :
  (forall k a, k < n -> body k a h = Some (f k a, h)) ->
  for_ n a0 body h = Some (fold_left (fun a k => f k a) (seq 0 n) a0, h).
Proof.
  intros Hb.
  destruct (for_inv
              (fun k a h' => h' = h /\ a = fold_left (fun a k => f k a) (seq 0 k) a0)
              n body a0 h) as (a & h' & E & -> & ->).
  - split; reflexivity.
  - intros k a h' Hk [-> ->]. eexists _, _. split; [apply Hb, Hk|].
    split; [reflexivity|]. rewrite seq_S, fold_left_app. reflexivity.
  - exact E.
Qed.

(** An accumulation loop [acc += g j] is the sum [sum_to n g]. *)
Lemma for_sum (n : nat) (g : nat -> T) (body : nat -> T -> M T T) (h : heap T) :
  (forall k a, k < n -> body k a h = Some (fadd a (g k), h)) ->
  for_ n fzero body h = Some (sum_to n g, h).
Proof.
  intros Hb. rewrite (for_pure n (fun k a => fadd a (g k))) by exact Hb.
  reflexivity.
Qed.

Lemma fold_pair_sum (n : nat) (g1 g2 : nat -> T) :
  fold_left (fun (a : T * T) k => (fadd (fst a) (g1 k), fadd (snd a) (g2 k)))
            (seq 0 n) (fzero, fzero)
  = (sum_to n g1, sum_to n g2).
Proof.
  induction n as [|n IH]; [reflexivity|].
  rewrite seq_S, fold_left_app, IH, !sum_to_S. reflexivity.
Qed.

(** *** Reading inputs and writing the result *)

Lemma load_frame (h : heap T) (r p idx : nat) (X a : ndarray T) :
  h !! r = None -> h !! p = Some a -> idx < length (data a) ->
  load p idx (<[r := X]> h) = Some (get (data a) idx, <[r := X]> h).
Proof.
  intros Hr Hp Hi. unfold load.
  rewrite lookup_insert_ne by congruence.
  rewrite Hp, (lookup_get _ _ Hi). reflexivity.
Qed.

Lemma store_result (h : heap T) (r idx : nat) (sh : list nat) (D : list T) (v : T) :
  idx < length D ->
  store r idx v (<[r := NDArray sh D]> h)
  = Some (tt, <[r := NDArray sh (<[idx := v]> D)]> h).
Proof.
  intros Hi. unfold store. rewrite lookup_insert_eq. simpl.
  destruct (decide (idx < length D)) as [_|]; [|contradiction].
  rewrite insert_insert_eq. reflexivity.
Qed.

(** Allocation returns an address the heap does not hold. *)
Lemma fresh_unused (h : heap T) : h !! fresh (dom h) = None.
Proof. apply not_elem_of_dom, is_fresh. Qed.

Lemma length_uninit (uninit : nat -> T) (n : nat) :
  length (map uninit (seq 0 n)) = n.
Proof. rewrite length_map, length_seq. reflexivity. Qed.

(** Row-major indexing: a flat index determines its row and column. *)
Lemma flat_index_lt (R C i j : nat) : i < R -> j < C -> i * C + j < R * C.
Proof. intros Hi Hj. nia. Qed.

Lemma flat_index_div (C i j : nat) : j < C -> (i * C + j) / C = i.
Proof.
  intros Hj. rewrite Nat.div_add_l by lia. rewrite Nat.div_small by lia. lia.
Qed.

Lemma flat_index_mod (C i j : nat) : j < C -> (i * C + j) mod C = j.
Proof.
  intros Hj. rewrite Nat.add_comm, Nat.Div0.mod_add. apply Nat.mod_small, Hj.
Qed.
End Loops.

Section ZeroSums.
Context {T : Type} `{NumLaws T}.

(** A sum of zeros is zero. *)
Lemma sum_to_zero (n : nat) (f : nat -> T) :
  (forall j, j < n -> f j = fzero) -> sum_to n f = fzero.
Proof.
  induction n as [|n IH]; intros Hf; [reflexivity|].
  rewrite sum_to_S, IH, (Hf n) by (intros; try apply Hf; lia).
  apply fadd_zero_zero.
Qed.

Lemma norm2_zero (K : nat) (f : nat -> T) :
  (forall j, j < K -> fmul (f j) (f j) = fzero) -> norm2 K f = fzero.
Proof.
  intros Hf. unfold norm2. rewrite sum_to_zero by exact Hf. apply sqrtf_zero.
Qed.

(** The zero-norm branch of 4.3. *)
Lemma zero_norm_branch (p F : list T) (K i : nat) :
  norm2 K (get p) = fzero \/ norm2 K (fun j => get F (i * K + j)) = fzero ->
  cosine_match p F K i = fzero.
Proof.
  unfold cosine_match. intros [-> | ->]; rewrite fgt_irrefl;
    [reflexivity | rewrite andb_false_r; reflexivity].
Qed.
End ZeroSums.


(** ** Lists of results *)

Lemma list_of_lookups {A : Type} (l : list A) (n : nat) (f : nat -> A) :
  length l = n -> (forall i, i < n -> l !! i = Some (f i)) -> l = map f (seq 0 n).
Proof.
  intros HL Hl. apply list_eq. intros i.
  destruct (decide (i < n)) as [Hi|Hi].
  - rewrite (Hl i Hi), list_lookup_fmap, lookup_seq_lt by exact Hi. reflexivity.
  - rewrite !lookup_ge_None_2; [reflexivity | rewrite length_map, length_seq; lia | lia].
Qed.

Lemma singleton_of_lookup {A : Type} (l : list A) (x : A) :
  length l = 1 -> l !! 0 = Some x -> l = [x].
Proof.
  destruct l as [|y [|z l]]; simpl; intros HL Hx; try discriminate.
  injection Hx as ->. reflexivity.
Qed.

Lemma lookup_map_seq {A : Type} (F : nat -> A) (n idx : nat) :
  idx < n -> map F (seq 0 n) !! idx = Some (F idx).
Proof.
  intros Hidx. rewrite list_lookup_fmap, lookup_seq_lt by exact Hidx. reflexivity.
Qed.

(** ** C integers *)

Lemma to_int_range (d : nat) : (- 2147483648 <= to_int d <= INT_MAX)%Z.
Proof.
  unfold to_int, INT_MAX.
  pose proof (Z.mod_pos_bound (Z.of_nat d + 2147483648) 4294967296 ltac:(lia)). lia.
Qed.

(** A dimension that fits in an [int] is kept. *)
Lemma to_int_fits (d : nat) : fits_int d -> to_int d = Z.of_nat d.
Proof.
  unfold fits_int, to_int, INT_MAX. intros Hd. rewrite Z.mod_small by lia. lia.
Qed.

Lemma trips_fits (d : nat) : fits_int d -> trips (to_int d) = d.
Proof. intros Hd. rewrite to_int_fits by exact Hd. apply Nat2Z.id. Qed.

Lemma to_int_nonneg_fits (d : nat) : fits_int d -> (0 <= to_int d)%Z.
Proof. intros Hd. rewrite to_int_fits by exact Hd. lia. Qed.

Lemma trips_pos (n : Z) (j : nat) : j < trips n -> (0 < n)%Z /\ Z.of_nat (trips n) = n.
Proof. unfold trips. lia. Qed.

(** The three dimensions of the examples, as [int]s. *)
Lemma to_int_examples :
  to_int dim_2_31 = (- 2147483648)%Z /\ to_int dim_2_32 = 0%Z /\ to_int dim_2_32_1 = 1%Z.
Proof.
  unfold to_int, dim_2_31, dim_2_32, dim_2_32_1.
  rewrite !Z2Nat.id by lia. repeat split; reflexivity.
Qed.

Lemma big_dimensions :
  Z.of_nat dim_2_31 = 2147483648%Z /\ Z.of_nat dim_2_32 = 4294967296%Z
  /\ Z.of_nat dim_2_32_1 = 4294967297%Z /\ Z.of_nat dim_2_30_1 = 1073741825%Z.
Proof.
  unfold dim_2_31, dim_2_32, dim_2_32_1, dim_2_30_1.
  rewrite !Z2Nat.id by lia. repeat split; reflexivity.
Qed.

Lemma to_int_dim_2_30_1 : to_int dim_2_30_1 = 1073741825%Z /\ to_int 2 = 2%Z.
Proof.
  split; [|reflexivity]. unfold to_int, dim_2_30_1. rewrite Z2Nat.id by lia. reflexivity.
Qed.

Section CIntegers.
Context {T : Type} `{Num T}.

Lemma float_of_int_trips (n : Z) : (0 <= n)%Z -> float_of_int n = of_int (trips n).
Proof.
  intros Hn. unfold float_of_int.
  destruct (Z.ltb_spec n 0) as [Hlt|_]; [lia | reflexivity].
Qed.

Lemma flat_index_ok (i : nat) (n : Z) (j : nat) (h : heap T) :
  j < trips n -> (Z.of_nat (i * trips n + j) <= INT_MAX)%Z ->
  flat_index i n j h = Some (i * trips n + j, h).
Proof.
  intros Hj Hfit. apply trips_pos in Hj as [Hn En].
  assert (E : (Z.of_nat i * n + Z.of_nat j)%Z = Z.of_nat (i * trips n + j)).
  { rewrite Nat2Z.inj_add, Nat2Z.inj_mul, En. reflexivity. }
  unfold flat_index. cbv zeta. rewrite E.
  destruct (decide (0 <= Z.of_nat (i * trips n + j) <= INT_MAX)%Z) as [_|Hno]; [|lia].
  rewrite Nat2Z.id. reflexivity.
Qed.

Lemma flat_index_overflow (i : nat) (n : Z) (j : nat) (h : heap T) :
  j < trips n -> (INT_MAX < Z.of_nat (i * trips n + j))%Z ->
  flat_index i n j h = None.
Proof.
  intros Hj Hbig. apply trips_pos in Hj as [Hn En].
  assert (E : (Z.of_nat i * n + Z.of_nat j)%Z = Z.of_nat (i * trips n + j)).
  { rewrite Nat2Z.inj_add, Nat2Z.inj_mul, En. reflexivity. }
  unfold flat_index. cbv zeta. rewrite E.
  destruct (decide (0 <= Z.of_nat (i * trips n + j) <= INT_MAX)%Z) as [Hyes|_];
    [lia | reflexivity].
Qed.

(** An index computation returns the index and leaves the heap. *)
Lemma flat_index_inv (i : nat) (n : Z) (j : nat) (h : heap T) (k : nat) (h' : heap T) :
  flat_index i n j h = Some (k, h') -> h' = h.
Proof.
  unfold flat_index. cbv zeta.
  destruct (decide _); [|discriminate]. intros [= _ <-]. reflexivity.
Qed.

End CIntegers.

(** ** What a kernel can write

    Whatever the shapes of the arguments, a kernel that returns has written
    to the array it allocated and to nothing else. *)

Section Frame.
Context {T : Type} `{Num T}.
Variable uninit : nat -> T.

Lemma bind_inv {A B : Type} (m : M T A) (k : A -> M T B) h b h'' :
  bind m k h = Some (b, h'') ->
  exists a h', m h = Some (a, h') /\ k a h' = Some (b, h'').
Proof.
  unfold bind. destruct (m h) as [[a h']|]; [|discriminate].
  intros Hk. exists a, h'. split; [reflexivity | exact Hk].
Qed.

Lemma PyArray_DIM_inv (arr k : nat) (h : heap T) (n : nat) (h' : heap T) :
  PyArray_DIM arr k h = Some (n, h') -> h' = h.
Proof.
  unfold PyArray_DIM. destruct (h !! arr) as [a|]; [|discriminate].
  destruct (dims a !! k); [|discriminate]. intros [= _ <-]. reflexivity.
Qed.

Lemma int_DIM_inv (arr k : nat) (h : heap T) (n : Z) (h' : heap T) :
  int_DIM arr k h = Some (n, h') -> h' = h.
Proof.
  unfold int_DIM. intros Hrun. apply bind_inv in Hrun as (d & h1 & Hd & [= _ <-]).
  exact (PyArray_DIM_inv _ _ _ _ _ Hd).
Qed.

Lemma preserves_ret {A : Type} (J : heap T -> Prop) (a : A) : preserves J (ret a).
Proof. intros h a' h' HJ [= _ <-]. exact HJ. Qed.

Lemma preserves_bind {A B : Type} (J : heap T -> Prop) (m : M T A) (k : A -> M T B) :
  preserves J m -> (forall a, preserves J (k a)) -> preserves J (bind m k).
Proof.
  intros Hm Hk h b h'' HJ Hrun.
  apply bind_inv in Hrun as (a & h' & E1 & E2).
  exact (Hk a h' b h'' (Hm h a h' HJ E1) E2).
Qed.

Lemma preserves_load (J : heap T -> Prop) (arr idx : nat) : preserves J (load arr idx).
Proof.
  intros h x h' HJ. unfold load. destruct (h !! arr) as [a|]; [|discriminate].
  destruct (data a !! idx); [|discriminate]. intros [= _ <-]. exact HJ.
Qed.

Lemma preserves_flat_index (J : heap T -> Prop) (i : nat) (n : Z) (j : nat) :
  preserves J (flat_index i n j).
Proof. intros h k h' HJ Hrun. apply flat_index_inv in Hrun as ->. exact HJ. Qed.

Lemma preserves_store (h0 : heap T) (r : nat) (sh : list nat) (n idx : nat) (v : T) :
  preserves (result_only h0 r sh n) (store r idx v).
Proof.
  intros h u h' (D & -> & HL). unfold store. rewrite lookup_insert_eq. simpl.
  destruct (decide (idx < length D)); [|discriminate]. intros [= _ <-].
  exists (<[idx := v]> D). split; [apply insert_insert_eq|].
  rewrite length_insert. exact HL.
Qed.

Lemma preserves_foldM {A : Type} (J : heap T -> Prop) (body : nat -> A -> M T A)
      (js : list nat) (a0 : A) :
  (forall k a, preserves J (body k a)) -> preserves J (foldM body js a0).
Proof.
  intros Hb. revert a0. induction js as [|j js IH]; intros a0; simpl.
  - apply preserves_ret.
  - apply preserves_bind; [apply Hb | exact IH].
Qed.

Lemma preserves_for {A : Type} (J : heap T -> Prop) (n : nat) (a0 : A)
      (body : nat -> A -> M T A) :
  (forall k a, preserves J (body k a)) -> preserves J (for_ n a0 body).
Proof. apply preserves_foldM. Qed.

Lemma preserves_for_in {A : Type} (J : heap T -> Prop) (order : list nat) (a0 : A)
      (body : nat -> A -> M T A) :
  (forall k a, preserves J (body k a)) -> preserves J (for_in order a0 body).
Proof. apply preserves_foldM. Qed.

Lemma yields_ret {A : Type} (p : A) : yields (T := T) p (ret p).
Proof. intros h a h' [= <- _]. reflexivity. Qed.

Lemma yields_bind {A B : Type} (p : B) (m : M T A) (k : A -> M T B) :
  (forall a, yields p (k a)) -> yields p (bind m k).
Proof.
  intros Hk h b h'' Hrun. apply bind_inv in Hrun as (a & h' & _ & E2).
  exact (Hk a h' b h'' E2).
Qed.

(** Allocation returns an address the heap does not hold, with a buffer
    of as many cells as the shape has elements. *)
Lemma result_only_alloc (h : heap T) (sh : list nat) :
  result_only h (fresh (dom h)) sh (foldr Nat.mul 1 sh)
    (<[fresh (dom h) := NDArray sh (map uninit (seq 0 (foldr Nat.mul 1 sh)))]> h).
Proof. eexists. split; [reflexivity | apply length_uninit]. Qed.

Lemma PyArray_SimpleNew_inv (shape : list Z) (h : heap T) (p : nat) (h1 : heap T) :
  PyArray_SimpleNew uninit shape h = Some (p, h1) ->
  p = fresh (dom h)
  /\ h1 = <[p := NDArray (map Z.to_nat shape)
               (map uninit (seq 0 (foldr Nat.mul 1 (map Z.to_nat shape))))]> h.
Proof.
  unfold PyArray_SimpleNew. destruct (forallb (Z.leb 0) shape); [|discriminate].
  cbv zeta. intros [= <- <-]. split; reflexivity.
Qed.

(** Allocate, then run a computation that keeps all but the new array and
    returns its address. *)
Lemma alloc_then_fill (shape : list Z) (k : nat -> M T nat) (h : heap T) (r : nat)
      (h' : heap T) :
  (forall p sh, preserves (result_only h p sh (foldr Nat.mul 1 sh)) (k p)) ->
  (forall p, yields p (k p)) ->
  bind (PyArray_SimpleNew uninit shape) k h = Some (r, h') ->
  fresh_array h r h'.
Proof.
  intros Hkeep Hret Hrun.
  apply bind_inv in Hrun as (p & h1 & Ealloc & Ek).
  apply PyArray_SimpleNew_inv in Ealloc as [-> ->].
  set (p := fresh (dom h)) in *. set (sh := map Z.to_nat shape) in *.
  pose proof (Hret p _ _ _ Ek) as ->.
  destruct (Hkeep p sh _ _ _ (result_only_alloc h sh) Ek) as (D & -> & HL).
  split; [apply fresh_unused|]. split.
  - intros q Hq. apply lookup_insert_ne. congruence.
  - exists sh, D. split; [apply lookup_insert_eq | exact HL].
Qed.

Ltac keeps :=
  repeat first
    [ apply preserves_ret
    | apply preserves_load
    | apply preserves_flat_index
    | apply preserves_store
    | apply preserves_for; intros
    | apply preserves_for_in; intros
    | apply preserves_bind; [|intros]
    | match goal with
      | |- preserves _ (if ?c then _ else _) => destruct c
      | |- preserves _ (let '(_, _) := ?a in _) => destruct a
      end ].

Ltac returns_address :=
  repeat first [ apply yields_ret | apply yields_bind; intros ].

Ltac read_dim Hrun :=
  let Hd := fresh "Hd" in
  apply bind_inv in Hrun as (? & ? & Hd & Hrun); apply int_DIM_inv in Hd as ->.

(** The iterations keep all but the result. *)
Lemma iterations_keep (h0 : heap T) (r : nat) (sh : list nat) (len : nat) :
  (forall ps pw pP n i,
      preserves (result_only h0 r sh len) (tcm_syndrome_analysis_iteration ps pw pP r n i))
  /\ (forall pd n_samples n_features j,
        preserves (result_only h0 r sh len)
                  (health_data_normalize_iteration pd r n_samples n_features j))
  /\ (forall pp pF n pn i,
        preserves (result_only h0 r sh len) (nutrition_optimization_iteration pp pF r n pn i))
  /\ (forall pb n t i,
        preserves (result_only h0 r sh len) (biometric_processing_iteration pb r n t i))
  /\ (forall pq pD n i,
        preserves (result_only h0 r sh len) (pattern_matching_iteration pq pD r n i)).
Proof.
  split; [|split; [|split; [|split]]]; intros.
  - unfold tcm_syndrome_analysis_iteration. keeps.
  - unfold health_data_normalize_iteration. keeps.
  - unfold nutrition_optimization_iteration. keeps.
  - unfold biometric_processing_iteration. keeps.
  - unfold pattern_matching_iteration. keeps.
Qed.

Ltac kernel_keeps :=
  repeat first
    [ apply iterations_keep
    | apply preserves_ret
    | apply preserves_load
    | apply preserves_for; intros
    | apply preserves_bind; [|intros] ].

Lemma tcm_syndrome_analysis_frame (ps pw pP : nat) (h : heap T) (r : nat) (h' : heap T) :
  tcm_syndrome_analysis uninit ps pw pP h = Some (r, h') -> fresh_array h r h'.
Proof.
  unfold tcm_syndrome_analysis. intros Hrun. read_dim Hrun. read_dim Hrun.
  revert Hrun. apply alloc_then_fill; intros p; [intros sh|];
    [kernel_keeps | returns_address].
Qed.

Lemma health_data_normalize_frame (pd : nat) (h : heap T) (r : nat) (h' : heap T) :
  health_data_normalize uninit pd h = Some (r, h') -> fresh_array h r h'.
Proof.
  unfold health_data_normalize. intros Hrun. read_dim Hrun. read_dim Hrun.
  revert Hrun. apply alloc_then_fill; intros p; [intros sh|];
    [kernel_keeps | returns_address].
Qed.

Lemma nutrition_optimization_frame (pp pF : nat) (h : heap T) (r : nat) (h' : heap T) :
  nutrition_optimization uninit pp pF h = Some (r, h') -> fresh_array h r h'.
Proof.
  unfold nutrition_optimization. intros Hrun. read_dim Hrun. read_dim Hrun.
  revert Hrun. apply alloc_then_fill; intros p; [intros sh|];
    [kernel_keeps | returns_address].
Qed.

Lemma biometric_processing_frame (pb : nat) (t : T) (h : heap T) (r : nat) (h' : heap T) :
  biometric_processing uninit pb t h = Some (r, h') -> fresh_array h r h'.
Proof.
  unfold biometric_processing. intros Hrun. read_dim Hrun. read_dim Hrun.
  revert Hrun. apply alloc_then_fill; intros p; [intros sh|];
    [kernel_keeps | returns_address].
Qed.

Lemma pattern_matching_frame (pq pD : nat) (h : heap T) (r : nat) (h' : heap T) :
  pattern_matching uninit pq pD h = Some (r, h') -> fresh_array h r h'.
Proof.
  unfold pattern_matching. intros Hrun. read_dim Hrun. read_dim Hrun.
  revert Hrun. apply alloc_then_fill; intros p; [intros sh|];
    [kernel_keeps | returns_address].
Qed.
End Frame.

(** ** Where a kernel is defined

    The kernels take their loop bounds from the first one or two entries of
    one argument's shape, converted to [int], and read the buffers at flat
    indices.  A call is defined exactly when the dimensions it allocates
    with are not negative, every index it computes fits in an [int], and
    every index it reads lies inside its buffer; the rest of the shapes, and
    whatever the buffers hold beyond the indices read, play no part. *)

Section Domain.
Context {T : Type} `{Num T}.
Variable uninit : nat -> T.

Lemma bind_None {A B : Type} (m : M T A) (k : A -> M T B) (h : heap T) :
  m h = None -> bind m k h = None.
Proof. unfold bind. intros ->. reflexivity. Qed.

(** A read that is followed by a failure is a failure, whether or not the
    read itself is in bounds. *)
Lemma bind_load_None {B : Type} (p idx : nat) (k : T -> M T B) (h : heap T) :
  (forall x, k x h = None) -> bind (load p idx) k h = None.
Proof.
  intros Hk. unfold bind, load. destruct (h !! p) as [a|]; [|reflexivity].
  destruct (data a !! idx); [apply Hk | reflexivity].
Qed.

Lemma load_out_of_bounds (h : heap T) (r p idx : nat) (X a : ndarray T) :
  h !! r = None -> h !! p = Some a -> length (data a) <= idx ->
  load p idx (<[r := X]> h) = None.
Proof.
  intros Hr Hp Hi. unfold load.
  rewrite lookup_insert_ne by congruence.
  rewrite Hp, lookup_ge_None_2 by exact Hi. reflexivity.
Qed.

(** A loop one of whose iterations fails does not return. *)
Lemma foldM_fails {A : Type} (J : heap T -> Prop) (body : nat -> A -> M T A)
      (len s k : nat) (a0 : A) (h : heap T) :
  J h -> (forall j a, preserves J (body j a)) -> s <= k < s + len ->
  (forall a h', J h' -> body k a h' = None) ->
  foldM body (seq s len) a0 h = None.
Proof.
  intros HJ Hkeep Hk Hfail. revert s a0 h HJ Hk.
  induction len as [|len IH]; intros s a0 h HJ Hk; [lia|].
  simpl. unfold bind. destruct (body s a0 h) as [[a1 h1]|] eqn:E; [|reflexivity].
  destruct (decide (s = k)) as [->|Hne].
  - rewrite (Hfail a0 h HJ) in E. discriminate.
  - apply IH; [exact (Hkeep s a0 h a1 h1 HJ E) | lia].
Qed.

Lemma for_fails {A : Type} (J : heap T -> Prop) (n k : nat) (a0 : A)
      (body : nat -> A -> M T A) (h : heap T) :
  J h -> (forall j a, preserves J (body j a)) -> k < n ->
  (forall a h', J h' -> body k a h' = None) ->
  for_ n a0 body h = None.
Proof.
  intros HJ Hkeep Hk Hfail. unfold for_.
  apply (foldM_fails J body n 0 k a0 h HJ Hkeep); [lia | exact Hfail].
Qed.

(** A loop that only reads fails when one of its reads is out of bounds. *)
Lemma reading_loop_fails {A : Type} (n k : nat) (a0 : A) (body : nat -> A -> M T A)
      (h : heap T) :
  (forall j a, preserves (eq h) (body j a)) -> k < n ->
  (forall a, body k a h = None) ->
  for_ n a0 body h = None.
Proof.
  intros Hkeep Hk Hfail.
  apply (for_fails (eq h) n k); [reflexivity | exact Hkeep | exact Hk|].
  intros a h' <-. apply Hfail.
Qed.

Lemma bind_then_None {A B : Type} (J : heap T -> Prop) (m : M T A) (k : A -> M T B)
      (h : heap T) :
  J h -> preserves J m -> (forall a h', J h' -> k a h' = None) -> bind m k h = None.
Proof.
  intros HJ Hm Hk. unfold bind. destruct (m h) as [[a h']|] eqn:E; [|reflexivity].
  apply Hk. exact (Hm h a h' HJ E).
Qed.

(** A flat index below [R * C] is that of a row and a column. *)
Lemma flat_index_split (R C idx : nat) :
  idx < R * C -> idx / C < R /\ idx mod C < C /\ idx = idx / C * C + idx mod C.
Proof.
  intros Hidx. assert (HC : C <> 0) by nia.
  pose proof (Nat.mod_upper_bound idx C HC).
  pose proof (Nat.div_mod_eq idx C).
  split; [apply Nat.Div0.div_lt_upper_bound; lia|]. split; lia.
Qed.

(** A bound below [R * C] is reached by the index of some cell of the [R]
    by [C] block. *)
Lemma short_buffer_misses (R C len : nat) :
  len < R * C -> exists i j, i < R /\ j < C /\ len <= i * C + j.
Proof.
  intros Hlen. destruct (flat_index_split R C len Hlen) as (Hi & Hj & E).
  exists (len / C), (len mod C). split; [exact Hi|]. split; [exact Hj | lia].
Qed.

(** An argument whose shape is too short for the dimension read. *)
Lemma PyArray_DIM_missing (arr k : nat) (a : ndarray T) (h : heap T) :
  h !! arr = Some a -> length (dims a) <= k -> PyArray_DIM arr k h = None.
Proof.
  intros Ha Hk. unfold PyArray_DIM. rewrite Ha, lookup_ge_None_2 by exact Hk.
  reflexivity.
Qed.

Lemma int_DIM_read (arr k d : nat) (a : ndarray T) (h : heap T) :
  h !! arr = Some a -> dims a !! k = Some d -> int_DIM arr k h = Some (to_int d, h).
Proof.
  intros Ha Hd. unfold int_DIM, bind, PyArray_DIM, ret. rewrite Ha, Hd. reflexivity.
Qed.

(** Allocation with dimensions that are not negative, and with a negative
    one. *)
Lemma PyArray_SimpleNew_vector (m : Z) (h : heap T) :
  (0 <= m)%Z ->
  PyArray_SimpleNew uninit [m] h
  = Some (fresh (dom h),
          <[fresh (dom h) := NDArray [trips m] (map uninit (seq 0 (trips m)))]> h).
Proof.
  intros Hm. unfold PyArray_SimpleNew. cbn [forallb].
  destruct (Z.leb_spec 0 m) as [_|Hlt]; [|lia].
  cbn [andb map foldr]. rewrite Nat.mul_1_r. reflexivity.
Qed.

Lemma PyArray_SimpleNew_matrix (m n : Z) (h : heap T) :
  (0 <= m)%Z -> (0 <= n)%Z ->
  PyArray_SimpleNew uninit [m; n] h
  = Some (fresh (dom h),
          <[fresh (dom h) := NDArray [trips m; trips n]
                                     (map uninit (seq 0 (trips m * trips n)))]> h).
Proof.
  intros Hm Hn. unfold PyArray_SimpleNew. cbn [forallb].
  destruct (Z.leb_spec 0 m) as [_|Hlt]; [|lia].
  destruct (Z.leb_spec 0 n) as [_|Hlt]; [|lia].
  cbn [andb map foldr]. rewrite Nat.mul_1_r. reflexivity.
Qed.

Lemma PyArray_SimpleNew_negative (shape : list Z) (m : Z) (h : heap T) :
  In m shape -> (m < 0)%Z -> PyArray_SimpleNew uninit shape h = None.
Proof.
  intros Hin Hm. unfold PyArray_SimpleNew.
  destruct (forallb (Z.leb 0) shape) eqn:E; [|reflexivity].
  rewrite forallb_forall in E. specialize (E m Hin). apply Z.leb_le in E. lia.
Qed.

(** What one store does to the result buffer. *)
Lemma insert_cell (F : nat -> T) (D : list T) (idx : nat) :
  idx < length D ->
  length (<[idx := F idx]> D) = length D
  /\ forall idx', <[idx := F idx]> D !! idx'
                  = if idx' =? idx then Some (F idx') else D !! idx'.
Proof.
  intros Hi. split; [apply length_insert|].
  intros idx'. destruct (Nat.eqb_spec idx' idx) as [->|Hne].
  - apply list_lookup_insert_eq, Hi.
  - apply list_lookup_insert_ne. congruence.
Qed.

(** A loop that fills the result array [r], its iterations taken in any
    order: iteration [k] stores [F idx] in the cells [cells k] and leaves
    the others. *)
Lemma foldM_fill (r : nat) (sh : list nat) (len : nat) (cells : nat -> nat -> bool)
      (F : nat -> T) (body : nat -> unit -> M T unit) (h : heap T) (order : list nat) :
  (forall k D, In k order -> length D = len ->
     exists D', body k tt (<[r := NDArray sh D]> h) = Some (tt, <[r := NDArray sh D']> h)
       /\ length D' = len
       /\ forall idx, D' !! idx = if cells k idx then Some (F idx) else D !! idx) ->
  forall D0, length D0 = len ->
  exists D, foldM body order tt (<[r := NDArray sh D0]> h)
            = Some (tt, <[r := NDArray sh D]> h)
    /\ length D = len
    /\ forall idx, D !! idx = if existsb (fun k => cells k idx) order
                              then Some (F idx) else D0 !! idx.
Proof.
  induction order as [|k order IH]; intros Hb D0 HL0.
  - exists D0. split; [reflexivity|]. split; [exact HL0 | reflexivity].
  - destruct (Hb k D0 (or_introl eq_refl) HL0) as (D1 & E1 & HL1 & H1).
    destruct (IH (fun k' D Hk' => Hb k' D (or_intror Hk')) D1 HL1) as (D & E & HL & HD).
    exists D. split; [|split; [exact HL|]].
    + simpl. rewrite (bind_Some _ _ _ _ _ E1). exact E.
    + intros idx. rewrite (HD idx), (H1 idx). simpl.
      destruct (cells k idx), (existsb (fun k0 => cells k0 idx) order); reflexivity.
Qed.

Lemma for_fill (n r : nat) (sh : list nat) (len : nat) (cells : nat -> nat -> bool)
      (F : nat -> T) (body : nat -> unit -> M T unit) (h : heap T) :
  (forall k D, k < n -> length D = len ->
     exists D', body k tt (<[r := NDArray sh D]> h) = Some (tt, <[r := NDArray sh D']> h)
       /\ length D' = len
       /\ forall idx, D' !! idx = if cells k idx then Some (F idx) else D !! idx) ->
  forall D0, length D0 = len ->
  exists D, for_ n tt body (<[r := NDArray sh D0]> h) = Some (tt, <[r := NDArray sh D]> h)
    /\ length D = len
    /\ forall idx, D !! idx = if existsb (fun k => cells k idx) (seq 0 n)
                              then Some (F idx) else D0 !! idx.
Proof.
  intros Hb. apply foldM_fill. intros k D Hk. apply Hb. apply in_seq in Hk. lia.
Qed.

(** The cells of row [i], resp. of column [j], of a matrix of width [C]. *)
Lemma row_cells (C i idx : nat) :
  existsb (fun j => idx =? i * C + j) (seq 0 C) = true <-> i * C <= idx < i * C + C.
Proof.
  rewrite existsb_exists. split.
  - intros (j & Hj & E). apply in_seq in Hj. apply Nat.eqb_eq in E. lia.
  - intros Hidx. exists (idx - i * C). split; [apply in_seq; lia | apply Nat.eqb_eq; lia].
Qed.

Lemma column_cells (R C j idx : nat) :
  j < C ->
  existsb (fun i => idx =? i * C + j) (seq 0 R) = true <-> idx < R * C /\ idx mod C = j.
Proof.
  intros Hj. rewrite existsb_exists. split.
  - intros (i & Hi & E). apply in_seq in Hi. apply Nat.eqb_eq in E. subst idx.
    split; [apply flat_index_lt; lia | apply flat_index_mod, Hj].
  - intros [Hidx Hmod]. destruct (flat_index_split R C idx Hidx) as (Hi & _ & E).
    exists (idx / C). split; [apply in_seq; lia | apply Nat.eqb_eq; lia].
Qed.

Ltac run_dim Hp := eapply int_DIM_read; [exact Hp | reflexivity].
Ltac run_load Hr Hp := apply (load_frame _ _ _ _ _ _ Hr Hp); simpl; nia.
Ltac run_index Hj := apply flat_index_ok; [exact Hj | nia].
Ltac keeps :=
  repeat first
    [ apply preserves_ret
    | apply preserves_load
    | apply preserves_flat_index
    | apply preserves_store
    | apply preserves_for; intros
    | apply preserves_bind; [|intros]
    | match goal with
      | |- preserves _ (if ?c then _ else _) => destruct c
      | |- preserves _ (let '(_, _) := ?a in _) => destruct a
      end ].
Ltac skip_load := apply bind_load_None; intros ?.
Ltac bad_load Hr Hp := apply bind_None, (load_out_of_bounds _ _ _ _ _ _ Hr Hp); simpl; nia.

(** *** One iteration *)

Lemma tcm_syndrome_analysis_iteration_fills (h : heap T) (r ps pw pP : nat) (n : Z)
      (Mr : nat) (sh ds dw dP : list nat) (s w P : list T) :
  h !! r = None ->
  h !! ps = Some (NDArray ds s) ->
  h !! pw = Some (NDArray dw w) ->
  h !! pP = Some (NDArray dP P) ->
  trips n <= length s -> trips n <= length w -> Mr * trips n <= length P ->
  (Z.of_nat (Mr * trips n) <= INT_MAX + 1)%Z ->
  forall i D, i < Mr -> length D = Mr ->
    exists D',
      tcm_syndrome_analysis_iteration ps pw pP r n i (<[r := NDArray sh D]> h)
      = Some (tt, <[r := NDArray sh D']> h)
      /\ length D' = Mr
      /\ forall idx, D' !! idx = if idx =? i
                                 then Some (syndrome_score s w P (trips n) idx)
                                 else D !! idx.
Proof.
  intros Hr Hs Hw HP Ls Lw LP Lint i D Hi HLD.
  exists (<[i := syndrome_score s w P (trips n) i]> D).
  destruct (insert_cell (syndrome_score s w P (trips n)) D i ltac:(lia)) as (L1 & L2).
  split; [|split; [lia | exact L2]].
  unfold tcm_syndrome_analysis_iteration.
  erewrite bind_Some; [apply store_result; lia|].
  apply (for_sum (trips n)
           (fun j => fmul (fmul (get s j) (get w j)) (get P (i * trips n + j)))).
  intros j a Hj.
  pose proof (flat_index_lt Mr (trips n) i j Hi Hj) as Hlt.
  erewrite bind_Some by run_load Hr Hs.
  erewrite bind_Some by run_load Hr Hw.
  erewrite bind_Some by run_index Hj.
  erewrite bind_Some by run_load Hr HP.
  reflexivity.
Qed.

Lemma health_data_normalize_iteration_fills (h : heap T) (r pd : nat) (nR nC : Z)
      (sh ds : list nat) (D : list T) :
  h !! r = None ->
  h !! pd = Some (NDArray ds D) ->
  (0 <= nR)%Z ->
  trips nR * trips nC <= length D ->
  (Z.of_nat (trips nR * trips nC) <= INT_MAX + 1)%Z ->
  forall j Dk, j < trips nC -> length Dk = trips nR * trips nC ->
    exists D',
      health_data_normalize_iteration pd r nR nC j (<[r := NDArray sh Dk]> h)
      = Some (tt, <[r := NDArray sh D']> h)
      /\ length D' = trips nR * trips nC
      /\ forall idx,
           D' !! idx
           = if existsb (fun i => idx =? i * trips nC + j) (seq 0 (trips nR))
             then Some (standardize D (trips nR) (trips nC) (idx / trips nC)
                                    (idx mod trips nC))
             else Dk !! idx.
Proof.
  intros Hr Hd HnR LD Lint j Dk Hj HLD.
  set (R := trips nR) in *. set (C := trips nC) in *.
  set (F := fun idx => standardize D R C (idx / C) (idx mod C)).
  unfold health_data_normalize_iteration. fold R.
  rewrite (float_of_int_trips nR HnR). fold R.
  erewrite bind_Some; cycle 1.
  { apply (for_sum R (fun i => get D (i * C + j))). intros i a Hi.
    pose proof (flat_index_lt R C i j Hi Hj) as Hlt.
    erewrite bind_Some by run_index Hj.
    erewrite bind_Some by run_load Hr Hd. reflexivity. }
  erewrite bind_Some; cycle 1.
  { apply (for_sum R (fun i => let d := fsub (get D (i * C + j)) (col_mean D R C j) in
                               fmul d d)).
    intros i a Hi.
    pose proof (flat_index_lt R C i j Hi Hj) as Hlt.
    erewrite bind_Some by run_index Hj.
    erewrite bind_Some by run_load Hr Hd. reflexivity. }
  apply (for_fill R r sh (R * C) (fun i idx => idx =? i * C + j) F); [|exact HLD].
  intros i Di Hi HLi.
  pose proof (flat_index_lt R C i j Hi Hj) as Hlt.
  exists (<[i * C + j := F (i * C + j)]> Di).
  destruct (insert_cell F Di (i * C + j) ltac:(lia)) as (L1 & L2).
  split; [|split; [lia | exact L2]].
  erewrite bind_Some by run_index Hj.
  erewrite bind_Some by run_load Hr Hd.
  rewrite store_result by lia. unfold F.
  rewrite flat_index_div, flat_index_mod by exact Hj. reflexivity.
Qed.

Lemma nutrition_optimization_iteration_fills (h : heap T) (r pp pF : nat) (nK : Z)
      (Rr : nat) (sh dp dF : list nat) (p F : list T) :
  h !! r = None ->
  h !! pp = Some (NDArray dp p) ->
  h !! pF = Some (NDArray dF F) ->
  trips nK <= length p -> Rr * trips nK <= length F ->
  (Z.of_nat (Rr * trips nK) <= INT_MAX + 1)%Z ->
  forall i D, i < Rr -> length D = Rr ->
    exists D',
      nutrition_optimization_iteration pp pF r nK (norm2 (trips nK) (get p)) i
                                       (<[r := NDArray sh D]> h)
      = Some (tt, <[r := NDArray sh D']> h)
      /\ length D' = Rr
      /\ forall idx, D' !! idx = if idx =? i
                                 then Some (cosine_match p F (trips nK) idx)
                                 else D !! idx.
Proof.
  intros Hr Hp HF Lp LF Lint i D Hi HLD.
  set (K := trips nK) in *.
  exists (<[i := cosine_match p F K i]> D).
  destruct (insert_cell (cosine_match p F K) D i ltac:(lia)) as (L1 & L2).
  split; [|split; [lia | exact L2]].
  unfold nutrition_optimization_iteration. fold K.
  erewrite bind_Some; cycle 1.
  { apply (for_pure K (fun j (a : T * T) =>
             (fadd (fst a) (fmul (get p j) (get F (i * K + j))),
              fadd (snd a) (fmul (get F (i * K + j)) (get F (i * K + j)))))).
    intros j [dp' fn] Hj.
    pose proof (flat_index_lt Rr K i j Hi Hj) as Hlt.
    erewrite bind_Some by run_index Hj.
    erewrite bind_Some by run_load Hr HF.
    erewrite bind_Some by run_load Hr Hp. reflexivity. }
  rewrite fold_pair_sum. cbv beta iota zeta.
  unfold cosine_match, norm2, dot.
  destruct (fgt _ fzero && fgt _ fzero); apply store_result; lia.
Qed.

Lemma biometric_processing_iteration_fills (h : heap T) (r pb : nat) (nC : Z) (R : nat)
      (sh ds : list nat) (t : T) (B : list T) :
  h !! r = None ->
  h !! pb = Some (NDArray ds B) ->
  R * trips nC <= length B ->
  (Z.of_nat (R * trips nC) <= INT_MAX + 1)%Z ->
  forall i Dk, i < R -> length Dk = R * trips nC ->
    exists D',
      biometric_processing_iteration pb r nC t i (<[r := NDArray sh Dk]> h)
      = Some (tt, <[r := NDArray sh D']> h)
      /\ length D' = R * trips nC
      /\ forall idx,
           D' !! idx
           = if existsb (fun j => idx =? i * trips nC + j) (seq 0 (trips nC))
             then Some (threshold_transform t (get B idx))
             else Dk !! idx.
Proof.
  intros Hr Hb LB Lint i Dk Hi HLD.
  set (C := trips nC) in *.
  set (F := fun idx => threshold_transform t (get B idx)).
  unfold biometric_processing_iteration. fold C.
  apply (for_fill C r sh (R * C) (fun j idx => idx =? i * C + j) F); [|exact HLD].
  intros j Dj Hj HLj.
  pose proof (flat_index_lt R C i j Hi Hj) as Hlt.
  exists (<[i * C + j := F (i * C + j)]> Dj).
  destruct (insert_cell F Dj (i * C + j) ltac:(lia)) as (L1 & L2).
  split; [|split; [lia | exact L2]].
  erewrite bind_Some by run_index Hj.
  erewrite bind_Some by run_load Hr Hb.
  unfold F, threshold_transform. cbv beta. cbn [data]. fold C.
  destruct (fgt (get B (i * C + j)) t); apply store_result; lia.
Qed.

Lemma pattern_matching_iteration_fills (h : heap T) (r pq pD : nat) (nL : Z)
      (Rr : nat) (sh dq dD : list nat) (q D : list T) :
  h !! r = None ->
  h !! pq = Some (NDArray dq q) ->
  h !! pD = Some (NDArray dD D) ->
  trips nL <= length q -> Rr * trips nL <= length D ->
  (Z.of_nat (Rr * trips nL) <= INT_MAX + 1)%Z ->
  forall i Dr, i < Rr -> length Dr = Rr ->
    exists D',
      pattern_matching_iteration pq pD r nL i (<[r := NDArray sh Dr]> h)
      = Some (tt, <[r := NDArray sh D']> h)
      /\ length D' = Rr
      /\ forall idx, D' !! idx = if idx =? i
                                 then Some (gaussian_match_int q D nL idx)
                                 else Dr !! idx.
Proof.
  intros Hr Hq HD Lq LD Lint i Dr Hi HLD.
  set (L := trips nL) in *.
  exists (<[i := gaussian_match_int q D nL i]> Dr).
  destruct (insert_cell (gaussian_match_int q D nL) Dr i ltac:(lia)) as (L1 & L2).
  split; [|split; [lia | exact L2]].
  unfold pattern_matching_iteration. fold L.
  erewrite bind_Some; [apply store_result; lia|].
  apply (for_sum L (fun j => let d := fsub (get q j) (get D (i * L + j)) in
                             expf (fmul (fneg d) d))).
  intros j a Hj.
  pose proof (flat_index_lt Rr L i j Hi Hj) as Hlt.
  erewrite bind_Some by run_load Hr Hq.
  erewrite bind_Some by run_index Hj.
  erewrite bind_Some by run_load Hr HD.
  reflexivity.
Qed.

Lemma gaussian_match_int_trips (q D : list T) (nL : Z) (i : nat) :
  (0 <= nL)%Z -> gaussian_match_int q D nL i = gaussian_match q D (trips nL) i.
Proof.
  intros HL. unfold gaussian_match_int, gaussian_match.
  rewrite (float_of_int_trips nL HL). reflexivity.
Qed.

(** *** Calls that are undefined *)

(** A block of [R] by [C] cells that a buffer of [len] values does not
    hold, or that an [int] cannot index, has a cell that shows it. *)
Lemma bad_cell (R C len : nat) :
  len < R * C \/ (INT_MAX + 1 < Z.of_nat (R * C))%Z ->
  exists i j, i < R /\ j < C
              /\ (len <= i * C + j \/ (INT_MAX < Z.of_nat (i * C + j))%Z).
Proof.
  intros [Hlen | Hbig].
  - destruct (short_buffer_misses R C len Hlen) as (i & j & Hi & Hj & Hbad).
    exists i, j. split; [exact Hi|]. split; [exact Hj|]. left. exact Hbad.
  - destruct (short_buffer_misses R C (Z.to_nat (INT_MAX + 1))) as (i & j & Hi & Hj & Hbad);
      [unfold INT_MAX in *; lia|].
    exists i, j. split; [exact Hi|]. split; [exact Hj|]. right.
    unfold INT_MAX in *. lia.
Qed.

(** What follows the computation of a flat index fails either there, on
    overflow, or later. *)
Lemma bind_flat_index_fails {B : Type} (i : nat) (n : Z) (j : nat) (k : nat -> M T B)
      (h : heap T) :
  j < trips n ->
  ((Z.of_nat (i * trips n + j) <= INT_MAX)%Z -> k (i * trips n + j) h = None) ->
  bind (flat_index i n j) k h = None.
Proof.
  intros Hj Hk.
  destruct (Z_le_gt_dec (Z.of_nat (i * trips n + j)) INT_MAX) as [Hfit | Hbig].
  - unfold bind. rewrite (flat_index_ok i n j h Hj Hfit). apply Hk, Hfit.
  - apply bind_None, flat_index_overflow; [exact Hj | lia].
Qed.

Lemma result_only_vector (h : heap T) (r m : nat) :
  result_only h r [m] m (<[r := NDArray [m] (map uninit (seq 0 m))]> h).
Proof. eexists. split; [reflexivity | apply length_uninit]. Qed.

Lemma result_only_matrix (h : heap T) (r m n : nat) :
  result_only h r [m; n] (m * n) (<[r := NDArray [m; n] (map uninit (seq 0 (m * n)))]> h).
Proof. eexists. split; [reflexivity | apply length_uninit]. Qed.

Ltac bad_index Hj Hr Hp :=
  apply bind_flat_index_fails; [exact Hj | intros ?]; bad_load Hr Hp.

(** A loop one of whose iterations fails does not return, in whichever
    order the iterations run. *)
Lemma foldM_fails_in {A : Type} (J : heap T -> Prop) (body : nat -> A -> M T A)
      (order : list nat) (k : nat) (a0 : A) (h : heap T) :
  J h -> (forall j a, preserves J (body j a)) -> In k order ->
  (forall a h', J h' -> body k a h' = None) ->
  foldM body order a0 h = None.
Proof.
  intros HJ Hkeep Hk Hfail. revert a0 h HJ.
  induction order as [|s order IH]; intros a0 h HJ; [destruct Hk|].
  simpl. unfold bind. destruct (body s a0 h) as [[a1 h1]|] eqn:E; [|reflexivity].
  destruct Hk as [-> | Hk].
  - rewrite (Hfail a0 h HJ) in E. discriminate.
  - apply (IH Hk). exact (Hkeep s a0 h a1 h1 HJ E).
Qed.

Lemma for_in_fails {A : Type} (J : heap T -> Prop) (order : list nat) (k : nat) (a0 : A)
      (body : nat -> A -> M T A) (h : heap T) :
  J h -> (forall j a, preserves J (body j a)) -> In k order ->
  (forall a h', J h' -> body k a h' = None) ->
  for_in order a0 body h = None.
Proof.
  intros HJ Hkeep Hk Hfail. unfold for_in.
  exact (foldM_fails_in J body order k a0 h HJ Hkeep Hk Hfail).
Qed.

(** *** The parallel loop in any order *)

Section AnyOrder.
Variable schedule : nat -> list nat.
Hypothesis schedule_complete : forall n, Permutation (schedule n) (seq 0 n).

Lemma scheduled (n k : nat) : In k (schedule n) <-> k < n.
Proof.
  split.
  - intros Hk. apply (Permutation_in _ (schedule_complete n)), in_seq in Hk. lia.
  - intros Hk. apply (Permutation_in _ (Permutation_sym (schedule_complete n))).
    apply in_seq. lia.
Qed.

(** A loop whose iterations between them fill every cell leaves the array
    [map F (seq 0 len)], in whichever order they run. *)
Lemma for_in_fill (n r : nat) (sh : list nat) (len : nat) (cells : nat -> nat -> bool)
      (F : nat -> T) (body : nat -> unit -> M T unit) (h : heap T) (D0 : list T) :
  (forall k D, k < n -> length D = len ->
     exists D', body k tt (<[r := NDArray sh D]> h) = Some (tt, <[r := NDArray sh D']> h)
       /\ length D' = len
       /\ forall idx, D' !! idx = if cells k idx then Some (F idx) else D !! idx) ->
  (forall idx, idx < len -> exists k, k < n /\ cells k idx = true) ->
  length D0 = len ->
  for_in (schedule n) tt body (<[r := NDArray sh D0]> h)
  = Some (tt, <[r := NDArray sh (map F (seq 0 len))]> h).
Proof.
  intros Hb Hcover HL0. unfold for_in.
  destruct (foldM_fill r sh len cells F body h (schedule n)) with (D0 := D0)
    as (D & E & HL & HD); [|exact HL0|].
  - intros k D Hk. apply Hb. apply scheduled, Hk.
  - rewrite E. rewrite (list_of_lookups D len F HL); [reflexivity|].
    intros idx Hidx. rewrite (HD idx).
    destruct (Hcover idx Hidx) as (k & Hk & Hc).
    replace (existsb (fun k0 => cells k0 idx) (schedule n)) with true; [reflexivity|].
    symmetry. apply existsb_exists. exists k. split; [apply scheduled, Hk | exact Hc].
Qed.

Lemma tcm_syndrome_analysis_in_in_bounds (h : heap T) (ps pw pP dN dM : nat)
      (ds dw dP : list nat) (s w P : list T) :
  h !! ps = Some (NDArray (dN :: ds) s) ->
  h !! pw = Some (NDArray dw w) ->
  h !! pP = Some (NDArray (dM :: dP) P) ->
  (0 <= to_int dM)%Z ->
  trips (to_int dM) = 0
  \/ (trips (to_int dN) <= length s /\ trips (to_int dN) <= length w
      /\ trips (to_int dM) * trips (to_int dN) <= length P
      /\ (Z.of_nat (trips (to_int dM) * trips (to_int dN)) <= INT_MAX + 1)%Z) ->
  tcm_syndrome_analysis_in uninit schedule ps pw pP h
  = Some (fresh (dom h),
          <[fresh (dom h) :=
              NDArray [trips (to_int dM)]
                      (map (syndrome_score s w P (trips (to_int dN)))
                           (seq 0 (trips (to_int dM))))]> h).
Proof.
  intros Hs Hw HP HM Hb. unfold tcm_syndrome_analysis_in.
  erewrite bind_Some by run_dim Hs.
  erewrite bind_Some by run_dim HP.
  pose proof (fresh_unused h) as Hr. set (r := fresh (dom h)) in *.
  rewrite (bind_Some _ _ _ _ _ (PyArray_SimpleNew_vector _ h HM)). fold r.
  set (Mr := trips (to_int dM)) in *. set (n := to_int dN) in *.
  erewrite bind_Some; [reflexivity|].
  apply (for_in_fill Mr r [Mr] Mr (fun i idx => idx =? i)).
  - destruct Hb as [E0 | (Ls & Lw & LP & Lint)]; [intros k D Hk; lia|].
    apply (tcm_syndrome_analysis_iteration_fills h r ps pw pP n Mr [Mr] (dN :: ds) dw
             (dM :: dP) s w P);
      assumption.
  - intros idx Hidx.
    exists idx. split; [exact Hidx | apply Nat.eqb_refl].
  - apply length_uninit.
Qed.

Lemma health_data_normalize_in_in_bounds (h : heap T) (pd dR dC : nat) (ds : list nat)
      (D : list T) :
  h !! pd = Some (NDArray (dR :: dC :: ds) D) ->
  (0 <= to_int dR)%Z -> (0 <= to_int dC)%Z ->
  trips (to_int dR) * trips (to_int dC) <= length D ->
  (Z.of_nat (trips (to_int dR) * trips (to_int dC)) <= INT_MAX + 1)%Z ->
  health_data_normalize_in uninit schedule pd h
  = Some (fresh (dom h),
          <[fresh (dom h) :=
              NDArray [trips (to_int dR); trips (to_int dC)]
                (map (fun idx => standardize D (trips (to_int dR)) (trips (to_int dC))
                                             (idx / trips (to_int dC))
                                             (idx mod trips (to_int dC)))
                     (seq 0 (trips (to_int dR) * trips (to_int dC))))]> h).
Proof.
  intros Hd HR HC LD Lint. unfold health_data_normalize_in.
  erewrite bind_Some by run_dim Hd.
  erewrite bind_Some by run_dim Hd.
  pose proof (fresh_unused h) as Hr. set (r := fresh (dom h)) in *.
  rewrite (bind_Some _ _ _ _ _ (PyArray_SimpleNew_matrix _ _ h HR HC)). fold r.
  set (R := trips (to_int dR)) in *. set (C := trips (to_int dC)) in *.
  erewrite bind_Some; [reflexivity|].
  apply (for_in_fill C r [R; C] (R * C)
           (fun j idx => existsb (fun i => idx =? i * C + j) (seq 0 R))).
  - apply (health_data_normalize_iteration_fills h r pd (to_int dR) (to_int dC) [R; C]
             (dR :: dC :: ds) D); assumption.
  - intros idx Hidx.
    destruct (flat_index_split R C idx Hidx) as (Hi & Hj & Eidx).
    exists (idx mod C). split; [exact Hj|].
    apply column_cells; [exact Hj|]. split; [exact Hidx | reflexivity].
  - apply length_uninit.
Qed.

Lemma nutrition_optimization_in_in_bounds (h : heap T) (pp pF dR dK : nat)
      (dp dF : list nat) (p F : list T) :
  h !! pp = Some (NDArray dp p) ->
  h !! pF = Some (NDArray (dR :: dK :: dF) F) ->
  (0 <= to_int dR)%Z ->
  trips (to_int dK) <= length p ->
  trips (to_int dR) = 0
  \/ (trips (to_int dR) * trips (to_int dK) <= length F
      /\ (Z.of_nat (trips (to_int dR) * trips (to_int dK)) <= INT_MAX + 1)%Z) ->
  nutrition_optimization_in uninit schedule pp pF h
  = Some (fresh (dom h),
          <[fresh (dom h) :=
              NDArray [trips (to_int dR)]
                      (map (cosine_match p F (trips (to_int dK)))
                           (seq 0 (trips (to_int dR))))]> h).
Proof.
  intros Hp HF HR Lp Hb. unfold nutrition_optimization_in.
  erewrite bind_Some by run_dim HF.
  erewrite bind_Some by run_dim HF.
  pose proof (fresh_unused h) as Hr. set (r := fresh (dom h)) in *.
  rewrite (bind_Some _ _ _ _ _ (PyArray_SimpleNew_vector _ h HR)). fold r.
  set (Rr := trips (to_int dR)) in *. set (K := trips (to_int dK)) in *.
  erewrite bind_Some; cycle 1.
  { apply (for_sum K (fun j => fmul (get p j) (get p j))). intros j a Hj.
    erewrite bind_Some by run_load Hr Hp. reflexivity. }
  erewrite bind_Some; [reflexivity|].
  apply (for_in_fill Rr r [Rr] Rr (fun i idx => idx =? i)).
  - destruct Hb as [E0 | (LF & Lint)]; [intros k D Hk; lia|].
    apply (nutrition_optimization_iteration_fills h r pp pF (to_int dK) Rr [Rr] dp
             (dR :: dK :: dF) p F);
      assumption.
  - intros idx Hidx.
    exists idx. split; [exact Hidx | apply Nat.eqb_refl].
  - apply length_uninit.
Qed.

Lemma biometric_processing_in_in_bounds (h : heap T) (pb dR dC : nat) (ds : list nat)
      (t : T) (B : list T) :
  h !! pb = Some (NDArray (dR :: dC :: ds) B) ->
  (0 <= to_int dR)%Z -> (0 <= to_int dC)%Z ->
  trips (to_int dR) * trips (to_int dC) <= length B ->
  (Z.of_nat (trips (to_int dR) * trips (to_int dC)) <= INT_MAX + 1)%Z ->
  biometric_processing_in uninit schedule pb t h
  = Some (fresh (dom h),
          <[fresh (dom h) :=
              NDArray [trips (to_int dR); trips (to_int dC)]
                (map (fun idx => threshold_transform t (get B idx))
                     (seq 0 (trips (to_int dR) * trips (to_int dC))))]> h).
Proof.
  intros Hb HR HC LB Lint. unfold biometric_processing_in.
  erewrite bind_Some by run_dim Hb.
  erewrite bind_Some by run_dim Hb.
  pose proof (fresh_unused h) as Hr. set (r := fresh (dom h)) in *.
  rewrite (bind_Some _ _ _ _ _ (PyArray_SimpleNew_matrix _ _ h HR HC)). fold r.
  set (R := trips (to_int dR)) in *. set (C := trips (to_int dC)) in *.
  erewrite bind_Some; [reflexivity|].
  apply (for_in_fill R r [R; C] (R * C)
           (fun i idx => existsb (fun j => idx =? i * C + j) (seq 0 C))).
  - apply (biometric_processing_iteration_fills h r pb (to_int dC) R [R; C]
             (dR :: dC :: ds) t B);
      assumption.
  - intros idx Hidx.
    destruct (flat_index_split R C idx Hidx) as (Hi & Hj & Eidx).
    exists (idx / C). split; [exact Hi|]. apply row_cells. lia.
  - apply length_uninit.
Qed.

Lemma pattern_matching_in_in_bounds (h : heap T) (pq pD dR dL : nat)
      (dq dD : list nat) (q D : list T) :
  h !! pq = Some (NDArray dq q) ->
  h !! pD = Some (NDArray (dR :: dL :: dD) D) ->
  (0 <= to_int dR)%Z ->
  trips (to_int dR) = 0
  \/ (trips (to_int dL) <= length q
      /\ trips (to_int dR) * trips (to_int dL) <= length D
      /\ (Z.of_nat (trips (to_int dR) * trips (to_int dL)) <= INT_MAX + 1)%Z) ->
  pattern_matching_in uninit schedule pq pD h
  = Some (fresh (dom h),
          <[fresh (dom h) :=
              NDArray [trips (to_int dR)]
                      (map (gaussian_match_int q D (to_int dL))
                           (seq 0 (trips (to_int dR))))]> h).
Proof.
  intros Hq HD HR Hb. unfold pattern_matching_in.
  erewrite bind_Some by run_dim HD.
  erewrite bind_Some by run_dim HD.
  pose proof (fresh_unused h) as Hr. set (r := fresh (dom h)) in *.
  rewrite (bind_Some _ _ _ _ _ (PyArray_SimpleNew_vector _ h HR)). fold r.
  set (Rr := trips (to_int dR)) in *.
  erewrite bind_Some; [reflexivity|].
  apply (for_in_fill Rr r [Rr] Rr (fun i idx => idx =? i)).
  - destruct Hb as [E0 | (Lq & LD & Lint)]; [intros k D0 Hk; lia|].
    apply (pattern_matching_iteration_fills h r pq pD (to_int dL) Rr [Rr] dq
             (dR :: dL :: dD) q D);
      assumption.
  - intros idx Hidx.
    exists idx. split; [exact Hidx | apply Nat.eqb_refl].
  - apply length_uninit.
Qed.

(** Calls that are undefined, in any order. *)

Lemma tcm_syndrome_analysis_in_out_of_bounds (h : heap T) (ps pw pP dN dM : nat)
      (ds dw dP : list nat) (s w P : list T) :
  h !! ps = Some (NDArray (dN :: ds) s) ->
  h !! pw = Some (NDArray dw w) ->
  h !! pP = Some (NDArray (dM :: dP) P) ->
  (to_int dM < 0)%Z
  \/ (0 < trips (to_int dM)
      /\ (length s < trips (to_int dN) \/ length w < trips (to_int dN)
          \/ length P < trips (to_int dM) * trips (to_int dN)
          \/ (INT_MAX + 1 < Z.of_nat (trips (to_int dM) * trips (to_int dN)))%Z)) ->
  tcm_syndrome_analysis_in uninit schedule ps pw pP h = None.
Proof.
  intros Hs Hw HP Hb. unfold tcm_syndrome_analysis_in.
  erewrite bind_Some by run_dim Hs.
  erewrite bind_Some by run_dim HP.
  destruct (Z_lt_le_dec (to_int dM) 0) as [Hneg | HM].
  { apply bind_None, (PyArray_SimpleNew_negative _ (to_int dM));
      [left; reflexivity | exact Hneg]. }
  destruct Hb as [Hb | [Hpos Hb]]; [lia|].
  pose proof (fresh_unused h) as Hr. set (r := fresh (dom h)) in *.
  rewrite (bind_Some _ _ _ _ _ (PyArray_SimpleNew_vector _ h HM)). fold r.
  set (Mr := trips (to_int dM)) in *. set (n := to_int dN) in *.
  apply bind_None.
  assert (Hij : exists i j, i < Mr /\ j < trips n
            /\ (length s <= j \/ length w <= j
                \/ (length P <= i * trips n + j
                    \/ (INT_MAX < Z.of_nat (i * trips n + j))%Z))).
  { destruct Hb as [Hb | [Hb | Hb]].
    - exists 0, (length s). lia.
    - exists 0, (length w). lia.
    - destruct (bad_cell Mr (trips n) (length P) Hb) as (i & j & Hi & Hj & Hbad).
      exists i, j. tauto. }
  destruct Hij as (i & j & Hi & Hj & Hbad).
  apply (for_in_fails (result_only h r [Mr] Mr) (schedule Mr) i);
    [apply result_only_vector | intros; apply iterations_keep | apply scheduled, Hi|].
  intros [] h' (D & -> & _). unfold tcm_syndrome_analysis_iteration.
  apply bind_None, (reading_loop_fails (trips n) j); [intros; keeps | exact Hj|].
  intros a. destruct Hbad as [Hbad | [Hbad | Hbad]].
  - bad_load Hr Hs.
  - skip_load. bad_load Hr Hw.
  - skip_load. skip_load. bad_index Hj Hr HP.
Qed.

Lemma health_data_normalize_in_out_of_bounds (h : heap T) (pd dR dC : nat) (ds : list nat)
      (D : list T) :
  h !! pd = Some (NDArray (dR :: dC :: ds) D) ->
  (to_int dR < 0)%Z \/ (to_int dC < 0)%Z
  \/ length D < trips (to_int dR) * trips (to_int dC)
  \/ (INT_MAX + 1 < Z.of_nat (trips (to_int dR) * trips (to_int dC)))%Z ->
  health_data_normalize_in uninit schedule pd h = None.
Proof.
  intros Hd Hb. unfold health_data_normalize_in.
  erewrite bind_Some by run_dim Hd.
  erewrite bind_Some by run_dim Hd.
  destruct (Z_lt_le_dec (to_int dR) 0) as [Hneg | HR].
  { apply bind_None, (PyArray_SimpleNew_negative _ (to_int dR));
      [left; reflexivity | exact Hneg]. }
  destruct (Z_lt_le_dec (to_int dC) 0) as [Hneg | HC].
  { apply bind_None, (PyArray_SimpleNew_negative _ (to_int dC));
      [right; left; reflexivity | exact Hneg]. }
  destruct Hb as [Hb | [Hb | Hb]]; [lia | lia |].
  pose proof (fresh_unused h) as Hr. set (r := fresh (dom h)) in *.
  rewrite (bind_Some _ _ _ _ _ (PyArray_SimpleNew_matrix _ _ h HR HC)). fold r.
  set (R := trips (to_int dR)) in *. set (C := trips (to_int dC)) in *.
  apply bind_None.
  destruct (bad_cell R C (length D) Hb) as (i & j & Hi & Hj & Hbad).
  apply (for_in_fails (result_only h r [R; C] (R * C)) (schedule C) j);
    [apply result_only_matrix | intros; apply iterations_keep | apply scheduled, Hj|].
  intros [] h' (D' & -> & _). unfold health_data_normalize_iteration.
  apply bind_None, (reading_loop_fails (trips (to_int dR)) i); [intros; keeps | exact Hi|].
  intros a. bad_index Hj Hr Hd.
Qed.

Lemma nutrition_optimization_in_out_of_bounds (h : heap T) (pp pF dR dK : nat)
      (dp dF : list nat) (p F : list T) :
  h !! pp = Some (NDArray dp p) ->
  h !! pF = Some (NDArray (dR :: dK :: dF) F) ->
  (to_int dR < 0)%Z
  \/ length p < trips (to_int dK)
  \/ length F < trips (to_int dR) * trips (to_int dK)
  \/ (INT_MAX + 1 < Z.of_nat (trips (to_int dR) * trips (to_int dK)))%Z ->
  nutrition_optimization_in uninit schedule pp pF h = None.
Proof.
  intros Hp HF Hb. unfold nutrition_optimization_in.
  erewrite bind_Some by run_dim HF.
  erewrite bind_Some by run_dim HF.
  destruct (Z_lt_le_dec (to_int dR) 0) as [Hneg | HR].
  { apply bind_None, (PyArray_SimpleNew_negative _ (to_int dR));
      [left; reflexivity | exact Hneg]. }
  destruct Hb as [Hb | Hb]; [lia|].
  pose proof (fresh_unused h) as Hr. set (r := fresh (dom h)) in *.
  rewrite (bind_Some _ _ _ _ _ (PyArray_SimpleNew_vector _ h HR)). fold r.
  set (Rr := trips (to_int dR)) in *. set (n := to_int dK) in *.
  destruct Hb as [Hb | Hb].
  - apply bind_None, (reading_loop_fails (trips n) (length p)); [intros; keeps | exact Hb|].
    intros a. bad_load Hr Hp.
  - destruct (bad_cell Rr (trips n) (length F) Hb) as (i & j & Hi & Hj & Hbad).
    apply (bind_then_None (result_only h r [Rr] Rr));
      [apply result_only_vector | keeps|].
    intros pn h1 H1. apply bind_None.
    apply (for_in_fails (result_only h r [Rr] Rr) (schedule Rr) i);
      [exact H1 | intros; apply iterations_keep | apply scheduled, Hi|].
    intros [] h' (D' & -> & _). unfold nutrition_optimization_iteration.
    apply bind_None, (reading_loop_fails (trips n) j); [intros [] []; keeps | exact Hj|].
    intros [dp' fn]. bad_index Hj Hr HF.
Qed.

Lemma biometric_processing_in_out_of_bounds (h : heap T) (pb dR dC : nat) (ds : list nat)
      (t : T) (B : list T) :
  h !! pb = Some (NDArray (dR :: dC :: ds) B) ->
  (to_int dR < 0)%Z \/ (to_int dC < 0)%Z
  \/ length B < trips (to_int dR) * trips (to_int dC)
  \/ (INT_MAX + 1 < Z.of_nat (trips (to_int dR) * trips (to_int dC)))%Z ->
  biometric_processing_in uninit schedule pb t h = None.
Proof.
  intros Hp Hb. unfold biometric_processing_in.
  erewrite bind_Some by run_dim Hp.
  erewrite bind_Some by run_dim Hp.
  destruct (Z_lt_le_dec (to_int dR) 0) as [Hneg | HR].
  { apply bind_None, (PyArray_SimpleNew_negative _ (to_int dR));
      [left; reflexivity | exact Hneg]. }
  destruct (Z_lt_le_dec (to_int dC) 0) as [Hneg | HC].
  { apply bind_None, (PyArray_SimpleNew_negative _ (to_int dC));
      [right; left; reflexivity | exact Hneg]. }
  destruct Hb as [Hb | [Hb | Hb]]; [lia | lia |].
  pose proof (fresh_unused h) as Hr. set (r := fresh (dom h)) in *.
  rewrite (bind_Some _ _ _ _ _ (PyArray_SimpleNew_matrix _ _ h HR HC)). fold r.
  set (R := trips (to_int dR)) in *. set (n := to_int dC) in *.
  apply bind_None.
  destruct (bad_cell R (trips n) (length B) Hb) as (i & j & Hi & Hj & Hbad).
  apply (for_in_fails (result_only h r [R; trips n] (R * trips n)) (schedule R) i);
    [apply result_only_matrix | intros; apply iterations_keep | apply scheduled, Hi|].
  intros [] h' H'. unfold biometric_processing_iteration.
  apply (for_fails (result_only h r [R; trips n] (R * trips n)) (trips n) j);
    [exact H' | intros; keeps | exact Hj|].
  intros [] h'' (D' & -> & _). bad_index Hj Hr Hp.
Qed.

Lemma pattern_matching_in_out_of_bounds (h : heap T) (pq pD dR dL : nat)
      (dq dD : list nat) (q D : list T) :
  h !! pq = Some (NDArray dq q) ->
  h !! pD = Some (NDArray (dR :: dL :: dD) D) ->
  (to_int dR < 0)%Z
  \/ (0 < trips (to_int dR)
      /\ (length q < trips (to_int dL)
          \/ length D < trips (to_int dR) * trips (to_int dL)
          \/ (INT_MAX + 1 < Z.of_nat (trips (to_int dR) * trips (to_int dL)))%Z)) ->
  pattern_matching_in uninit schedule pq pD h = None.
Proof.
  intros Hq HD Hb. unfold pattern_matching_in.
  erewrite bind_Some by run_dim HD.
  erewrite bind_Some by run_dim HD.
  destruct (Z_lt_le_dec (to_int dR) 0) as [Hneg | HR].
  { apply bind_None, (PyArray_SimpleNew_negative _ (to_int dR));
      [left; reflexivity | exact Hneg]. }
  destruct Hb as [Hb | [Hpos Hb]]; [lia|].
  pose proof (fresh_unused h) as Hr. set (r := fresh (dom h)) in *.
  rewrite (bind_Some _ _ _ _ _ (PyArray_SimpleNew_vector _ h HR)). fold r.
  set (Rr := trips (to_int dR)) in *. set (n := to_int dL) in *.
  apply bind_None.
  assert (Hij : exists i j, i < Rr /\ j < trips n
            /\ (length q <= j
                \/ (length D <= i * trips n + j
                    \/ (INT_MAX < Z.of_nat (i * trips n + j))%Z))).
  { destruct Hb as [Hb | Hb].
    - exists 0, (length q). lia.
    - destruct (bad_cell Rr (trips n) (length D) Hb) as (i & j & Hi & Hj & Hbad).
      exists i, j. tauto. }
  destruct Hij as (i & j & Hi & Hj & Hbad).
  apply (for_in_fails (result_only h r [Rr] Rr) (schedule Rr) i);
    [apply result_only_vector | intros; apply iterations_keep | apply scheduled, Hi|].
  intros [] h' (D' & -> & _). unfold pattern_matching_iteration.
  apply bind_None, (reading_loop_fails (trips n) j); [intros; keeps | exact Hj|].
  intros a. destruct Hbad as [Hbad | Hbad].
  - bad_load Hr Hq.
  - skip_load. bad_index Hj Hr HD.
Qed.

End AnyOrder.

(** *** Index order *)

Lemma index_order (n : nat) : Permutation (seq 0 n) (seq 0 n).
Proof. reflexivity. Qed.

Lemma tcm_syndrome_analysis_in_bounds (h : heap T) (ps pw pP dN dM : nat)
      (ds dw dP : list nat) (s w P : list T) :
  h !! ps = Some (NDArray (dN :: ds) s) ->
  h !! pw = Some (NDArray dw w) ->
  h !! pP = Some (NDArray (dM :: dP) P) ->
  (0 <= to_int dM)%Z ->
  trips (to_int dM) = 0
  \/ (trips (to_int dN) <= length s /\ trips (to_int dN) <= length w
      /\ trips (to_int dM) * trips (to_int dN) <= length P
      /\ (Z.of_nat (trips (to_int dM) * trips (to_int dN)) <= INT_MAX + 1)%Z) ->
  tcm_syndrome_analysis uninit ps pw pP h
  = Some (fresh (dom h),
          <[fresh (dom h) :=
              NDArray [trips (to_int dM)]
                      (map (syndrome_score s w P (trips (to_int dN)))
                           (seq 0 (trips (to_int dM))))]> h).
Proof.
  exact (tcm_syndrome_analysis_in_in_bounds (seq 0) index_order h ps pw pP dN dM
           ds dw dP s w P).
Qed.

Lemma health_data_normalize_in_bounds (h : heap T) (pd dR dC : nat) (ds : list nat)
      (D : list T) :
  h !! pd = Some (NDArray (dR :: dC :: ds) D) ->
  (0 <= to_int dR)%Z -> (0 <= to_int dC)%Z ->
  trips (to_int dR) * trips (to_int dC) <= length D ->
  (Z.of_nat (trips (to_int dR) * trips (to_int dC)) <= INT_MAX + 1)%Z ->
  health_data_normalize uninit pd h
  = Some (fresh (dom h),
          <[fresh (dom h) :=
              NDArray [trips (to_int dR); trips (to_int dC)]
                (map (fun idx => standardize D (trips (to_int dR)) (trips (to_int dC))
                                             (idx / trips (to_int dC))
                                             (idx mod trips (to_int dC)))
                     (seq 0 (trips (to_int dR) * trips (to_int dC))))]> h).
Proof.
  exact (health_data_normalize_in_in_bounds (seq 0) index_order h pd dR dC ds D).
Qed.

Lemma nutrition_optimization_in_bounds (h : heap T) (pp pF dR dK : nat)
      (dp dF : list nat) (p F : list T) :
  h !! pp = Some (NDArray dp p) ->
  h !! pF = Some (NDArray (dR :: dK :: dF) F) ->
  (0 <= to_int dR)%Z ->
  trips (to_int dK) <= length p ->
  trips (to_int dR) = 0
  \/ (trips (to_int dR) * trips (to_int dK) <= length F
      /\ (Z.of_nat (trips (to_int dR) * trips (to_int dK)) <= INT_MAX + 1)%Z) ->
  nutrition_optimization uninit pp pF h
  = Some (fresh (dom h),
          <[fresh (dom h) :=
              NDArray [trips (to_int dR)]
                      (map (cosine_match p F (trips (to_int dK)))
                           (seq 0 (trips (to_int dR))))]> h).
Proof.
  exact (nutrition_optimization_in_in_bounds (seq 0) index_order h pp pF dR dK dp dF p F).
Qed.

Lemma biometric_processing_in_bounds (h : heap T) (pb dR dC : nat) (ds : list nat)
      (t : T) (B : list T) :
  h !! pb = Some (NDArray (dR :: dC :: ds) B) ->
  (0 <= to_int dR)%Z -> (0 <= to_int dC)%Z ->
  trips (to_int dR) * trips (to_int dC) <= length B ->
  (Z.of_nat (trips (to_int dR) * trips (to_int dC)) <= INT_MAX + 1)%Z ->
  biometric_processing uninit pb t h
  = Some (fresh (dom h),
          <[fresh (dom h) :=
              NDArray [trips (to_int dR); trips (to_int dC)]
                (map (fun idx => threshold_transform t (get B idx))
                     (seq 0 (trips (to_int dR) * trips (to_int dC))))]> h).
Proof.
  exact (biometric_processing_in_in_bounds (seq 0) index_order h pb dR dC ds t B).
Qed.

Lemma pattern_matching_in_bounds (h : heap T) (pq pD dR dL : nat)
      (dq dD : list nat) (q D : list T) :
  h !! pq = Some (NDArray dq q) ->
  h !! pD = Some (NDArray (dR :: dL :: dD) D) ->
  (0 <= to_int dR)%Z ->
  trips (to_int dR) = 0
  \/ (trips (to_int dL) <= length q
      /\ trips (to_int dR) * trips (to_int dL) <= length D
      /\ (Z.of_nat (trips (to_int dR) * trips (to_int dL)) <= INT_MAX + 1)%Z) ->
  pattern_matching uninit pq pD h
  = Some (fresh (dom h),
          <[fresh (dom h) :=
              NDArray [trips (to_int dR)]
                      (map (gaussian_match_int q D (to_int dL))
                           (seq 0 (trips (to_int dR))))]> h).
Proof.
  exact (pattern_matching_in_in_bounds (seq 0) index_order h pq pD dR dL dq dD q D).
Qed.

(** Calls that are undefined. *)

Lemma tcm_syndrome_analysis_out_of_bounds (h : heap T) (ps pw pP dN dM : nat)
      (ds dw dP : list nat) (s w P : list T) :
  h !! ps = Some (NDArray (dN :: ds) s) ->
  h !! pw = Some (NDArray dw w) ->
  h !! pP = Some (NDArray (dM :: dP) P) ->
  (to_int dM < 0)%Z
  \/ (0 < trips (to_int dM)
      /\ (length s < trips (to_int dN) \/ length w < trips (to_int dN)
          \/ length P < trips (to_int dM) * trips (to_int dN)
          \/ (INT_MAX + 1 < Z.of_nat (trips (to_int dM) * trips (to_int dN)))%Z)) ->
  tcm_syndrome_analysis uninit ps pw pP h = None.
Proof.
  exact (tcm_syndrome_analysis_in_out_of_bounds (seq 0) index_order h ps pw pP dN dM
           ds dw dP s w P).
Qed.

Lemma health_data_normalize_out_of_bounds (h : heap T) (pd dR dC : nat) (ds : list nat)
      (D : list T) :
  h !! pd = Some (NDArray (dR :: dC :: ds) D) ->
  (to_int dR < 0)%Z \/ (to_int dC < 0)%Z
  \/ length D < trips (to_int dR) * trips (to_int dC)
  \/ (INT_MAX + 1 < Z.of_nat (trips (to_int dR) * trips (to_int dC)))%Z ->
  health_data_normalize uninit pd h = None.
Proof.
  exact (health_data_normalize_in_out_of_bounds (seq 0) index_order h pd dR dC ds D).
Qed.

Lemma nutrition_optimization_out_of_bounds (h : heap T) (pp pF dR dK : nat)
      (dp dF : list nat) (p F : list T) :
  h !! pp = Some (NDArray dp p) ->
  h !! pF = Some (NDArray (dR :: dK :: dF) F) ->
  (to_int dR < 0)%Z
  \/ length p < trips (to_int dK)
  \/ length F < trips (to_int dR) * trips (to_int dK)
  \/ (INT_MAX + 1 < Z.of_nat (trips (to_int dR) * trips (to_int dK)))%Z ->
  nutrition_optimization uninit pp pF h = None.
Proof.
  exact (nutrition_optimization_in_out_of_bounds (seq 0) index_order h pp pF dR dK
           dp dF p F).
Qed.

Lemma biometric_processing_out_of_bounds (h : heap T) (pb dR dC : nat) (ds : list nat)
      (t : T) (B : list T) :
  h !! pb = Some (NDArray (dR :: dC :: ds) B) ->
  (to_int dR < 0)%Z \/ (to_int dC < 0)%Z
  \/ length B < trips (to_int dR) * trips (to_int dC)
  \/ (INT_MAX + 1 < Z.of_nat (trips (to_int dR) * trips (to_int dC)))%Z ->
  biometric_processing uninit pb t h = None.
Proof.
  exact (biometric_processing_in_out_of_bounds (seq 0) index_order h pb dR dC ds t B).
Qed.

Lemma pattern_matching_out_of_bounds (h : heap T) (pq pD dR dL : nat)
      (dq dD : list nat) (q D : list T) :
  h !! pq = Some (NDArray dq q) ->
  h !! pD = Some (NDArray (dR :: dL :: dD) D) ->
  (to_int dR < 0)%Z
  \/ (0 < trips (to_int dR)
      /\ (length q < trips (to_int dL)
          \/ length D < trips (to_int dR) * trips (to_int dL)
          \/ (INT_MAX + 1 < Z.of_nat (trips (to_int dR) * trips (to_int dL)))%Z)) ->
  pattern_matching uninit pq pD h = None.
Proof.
  exact (pattern_matching_in_out_of_bounds (seq 0) index_order h pq pD dR dL dq dD q D).
Qed.

End Domain.

(** ** The kernels on arrays that a C [int] can index

    What each kernel returns on arrays of the declared shapes, when every
    dimension and the number of elements fit in an [int]. *)

Ltac small := try unfold fits_int; try unfold INT_MAX; simpl; lia.

Section Refinement.
Context {T : Type} `{Num T}.
Variable uninit : nat -> T.

Lemma tcm_syndrome_analysis_run (h : heap T) (ps pw pP N Mr : nat) (s w P : list T) :
  h !! ps = Some (NDArray [N] s) ->
  h !! pw = Some (NDArray [N] w) ->
  h !! pP = Some (NDArray [Mr; N] P) ->
  length s = N -> length w = N -> length P = Mr * N ->
  fits_int N -> fits_int Mr -> fits_int (Mr * N) ->
  exists r out,
    tcm_syndrome_analysis uninit ps pw pP h = Some (r, <[r := NDArray [Mr] out]> h)
    /\ h !! r = None
    /\ length out = Mr
    /\ forall i, i < Mr -> out !! i = Some (syndrome_score s w P N i).
Proof.
  intros Hs Hw HP Ls Lw LP FN FM FMN.
  pose proof (tcm_syndrome_analysis_in_bounds uninit h ps pw pP N Mr [] [N] [N] s w P
                Hs Hw HP (to_int_nonneg_fits Mr FM)) as E.
  rewrite !(trips_fits N FN), !(trips_fits Mr FM) in E.
  exists (fresh (dom h)), (map (syndrome_score s w P N) (seq 0 Mr)).
  split; [apply E; right; unfold fits_int in FMN; lia|].
  split; [apply fresh_unused|].
  split; [rewrite length_map, length_seq; reflexivity|].
  intros i Hi. apply lookup_map_seq, Hi.
Qed.

Lemma health_data_normalize_run (h : heap T) (pd R C : nat) (D : list T) :
  h !! pd = Some (NDArray [R; C] D) ->
  length D = R * C ->
  fits_int R -> fits_int C -> fits_int (R * C) ->
  exists r out,
    health_data_normalize uninit pd h = Some (r, <[r := NDArray [R; C] out]> h)
    /\ h !! r = None
    /\ length out = R * C
    /\ forall i j, i < R -> j < C -> out !! (i * C + j) = Some (standardize D R C i j).
Proof.
  intros Hd LD FR FC FRC.
  pose proof (health_data_normalize_in_bounds uninit h pd R C [] D Hd
                (to_int_nonneg_fits R FR) (to_int_nonneg_fits C FC)) as E.
  rewrite !(trips_fits R FR), !(trips_fits C FC) in E.
  eexists (fresh (dom h)), _.
  split; [apply E; [lia | unfold fits_int in FRC; lia]|].
  split; [apply fresh_unused|].
  split; [rewrite length_map, length_seq; reflexivity|].
  intros i j Hi Hj.
  rewrite (lookup_map_seq (fun idx => standardize D R C (idx / C) (idx mod C)))
    by (apply flat_index_lt; assumption).
  rewrite flat_index_div, flat_index_mod by exact Hj. reflexivity.
Qed.

Lemma nutrition_optimization_run (h : heap T) (pp pF K R : nat) (p F : list T) :
  h !! pp = Some (NDArray [K] p) ->
  h !! pF = Some (NDArray [R; K] F) ->
  length p = K -> length F = R * K ->
  fits_int K -> fits_int R -> fits_int (R * K) ->
  exists r out,
    nutrition_optimization uninit pp pF h = Some (r, <[r := NDArray [R] out]> h)
    /\ h !! r = None
    /\ length out = R
    /\ forall i, i < R -> out !! i = Some (cosine_match p F K i).
Proof.
  intros Hp HF Lp LF FK FR FRK.
  pose proof (nutrition_optimization_in_bounds uninit h pp pF R K [K] [] p F Hp HF
                (to_int_nonneg_fits R FR)) as E.
  rewrite !(trips_fits R FR), !(trips_fits K FK) in E.
  exists (fresh (dom h)), (map (cosine_match p F K) (seq 0 R)).
  split; [apply E; [lia | right; unfold fits_int in FRK; lia]|].
  split; [apply fresh_unused|].
  split; [rewrite length_map, length_seq; reflexivity|].
  intros i Hi. apply lookup_map_seq, Hi.
Qed.

Lemma biometric_processing_run (h : heap T) (pb R C : nat) (t : T) (B : list T) :
  h !! pb = Some (NDArray [R; C] B) ->
  length B = R * C ->
  fits_int R -> fits_int C -> fits_int (R * C) ->
  exists r out,
    biometric_processing uninit pb t h = Some (r, <[r := NDArray [R; C] out]> h)
    /\ h !! r = None
    /\ length out = R * C
    /\ forall i j, i < R -> j < C ->
         out !! (i * C + j) = Some (threshold_transform t (get B (i * C + j))).
Proof.
  intros Hb LB FR FC FRC.
  pose proof (biometric_processing_in_bounds uninit h pb R C [] t B Hb
                (to_int_nonneg_fits R FR) (to_int_nonneg_fits C FC)) as E.
  rewrite !(trips_fits R FR), !(trips_fits C FC) in E.
  eexists (fresh (dom h)), _.
  split; [apply E; [lia | unfold fits_int in FRC; lia]|].
  split; [apply fresh_unused|].
  split; [rewrite length_map, length_seq; reflexivity|].
  intros i j Hi Hj.
  apply (lookup_map_seq (fun idx => threshold_transform t (get B idx))).
  apply flat_index_lt; assumption.
Qed.

Lemma pattern_matching_run (h : heap T) (pq pD L R : nat) (q D : list T) :
  h !! pq = Some (NDArray [L] q) ->
  h !! pD = Some (NDArray [R; L] D) ->
  length q = L -> length D = R * L ->
  fits_int L -> fits_int R -> fits_int (R * L) ->
  exists r out,
    pattern_matching uninit pq pD h = Some (r, <[r := NDArray [R] out]> h)
    /\ h !! r = None
    /\ length out = R
    /\ forall i, i < R -> out !! i = Some (gaussian_match q D L i).
Proof.
  intros Hq HD Lq LD FL FR FRL.
  pose proof (pattern_matching_in_bounds uninit h pq pD R L [L] [] q D Hq HD
                (to_int_nonneg_fits R FR)) as E.
  rewrite !(trips_fits R FR), !(trips_fits L FL) in E.
  exists (fresh (dom h)), (map (gaussian_match q D L) (seq 0 R)).
  split.
  { rewrite E by (right; unfold fits_int in FRL; lia).
    do 4 f_equal. apply map_ext. intros i.
    rewrite (gaussian_match_int_trips q D (to_int L) i (to_int_nonneg_fits L FL)).
    rewrite (trips_fits L FL). reflexivity. }
  split; [apply fresh_unused|].
  split; [rewrite length_map, length_seq; reflexivity|].
  intros i Hi. apply lookup_map_seq, Hi.
Qed.

End Refinement.

(** ** Degenerate shapes

    What the kernels do when a loop bound, as an [int], is 0 or negative.
    The dimensions are those NumPy holds; the bounds are their truncations. *)

Section Degenerate.
Context {T : Type} `{Num T}.
Variable uninit : nat -> T.

(** No symptoms: every pattern scores [sigmoid 0], whatever the buffers
    hold. *)
Lemma tcm_syndrome_analysis_no_symptoms (h : heap T) (ps pw pP dN dM : nat)
      (ds dw dP : list nat) (s w P : list T) :
  h !! ps = Some (NDArray (dN :: ds) s) ->
  h !! pw = Some (NDArray dw w) ->
  h !! pP = Some (NDArray (dM :: dP) P) ->
  to_int dN = 0%Z -> (0 <= to_int dM)%Z ->
  tcm_syndrome_analysis uninit ps pw pP h
  = Some (fresh (dom h),
          <[fresh (dom h) :=
              NDArray [trips (to_int dM)]
                      (map (fun _ => sigmoid fzero) (seq 0 (trips (to_int dM))))]> h).
Proof.
  intros Hs Hw HP HN HM.
  rewrite (tcm_syndrome_analysis_in_bounds uninit h ps pw pP dN dM ds dw dP s w P
             Hs Hw HP HM).
  - rewrite HN. reflexivity.
  - right. rewrite HN. change (trips 0) with 0. rewrite Nat.mul_0_r.
    unfold INT_MAX. simpl. lia.
Qed.

(** No samples: the result of the matrix kernels is empty. *)
Lemma health_data_normalize_no_samples (h : heap T) (pd dR dC : nat) (ds : list nat)
      (D : list T) :
  h !! pd = Some (NDArray (dR :: dC :: ds) D) ->
  to_int dR = 0%Z -> (0 <= to_int dC)%Z ->
  health_data_normalize uninit pd h
  = Some (fresh (dom h), <[fresh (dom h) := NDArray [0; trips (to_int dC)] []]> h).
Proof.
  intros Hd HR HC.
  rewrite (health_data_normalize_in_bounds uninit h pd dR dC ds D Hd);
    rewrite ?HR; change (trips 0) with 0; simpl; try lia.
  - reflexivity.
  - unfold INT_MAX. lia.
Qed.

Lemma biometric_processing_no_samples (h : heap T) (pb dR dC : nat) (ds : list nat)
      (t : T) (B : list T) :
  h !! pb = Some (NDArray (dR :: dC :: ds) B) ->
  to_int dR = 0%Z -> (0 <= to_int dC)%Z ->
  biometric_processing uninit pb t h
  = Some (fresh (dom h), <[fresh (dom h) := NDArray [0; trips (to_int dC)] []]> h).
Proof.
  intros Hb HR HC.
  rewrite (biometric_processing_in_bounds uninit h pb dR dC ds t B Hb);
    rewrite ?HR; change (trips 0) with 0; simpl; try lia.
  - reflexivity.
  - unfold INT_MAX. lia.
Qed.

(** Patterns of length 0: every similarity is [0 / (float)0]. *)
Lemma pattern_matching_no_length (h : heap T) (pq pD dR dL : nat) (dq dD : list nat)
      (q D : list T) :
  h !! pq = Some (NDArray dq q) ->
  h !! pD = Some (NDArray (dR :: dL :: dD) D) ->
  to_int dL = 0%Z -> (0 <= to_int dR)%Z ->
  pattern_matching uninit pq pD h
  = Some (fresh (dom h),
          <[fresh (dom h) :=
              NDArray [trips (to_int dR)]
                      (map (fun _ => fdiv fzero (of_int 0))
                           (seq 0 (trips (to_int dR))))]> h).
Proof.
  intros Hq HD HL HR.
  rewrite (pattern_matching_in_bounds uninit h pq pD dR dL dq dD q D Hq HD HR).
  - rewrite HL. reflexivity.
  - right. rewrite HL. change (trips 0) with 0. rewrite Nat.mul_0_r.
    unfold INT_MAX. simpl. lia.
Qed.

(** Foods without features: every norm is 0 and every similarity 0. *)
Lemma nutrition_optimization_no_features (h : heap T) (pp pF dR dK : nat)
      (dp dF : list nat) (p F : list T) :
  h !! pp = Some (NDArray dp p) ->
  h !! pF = Some (NDArray (dR :: dK :: dF) F) ->
  to_int dK = 0%Z -> (0 <= to_int dR)%Z ->
  nutrition_optimization uninit pp pF h
  = Some (fresh (dom h),
          <[fresh (dom h) :=
              NDArray [trips (to_int dR)]
                      (map (cosine_match p F 0) (seq 0 (trips (to_int dR))))]> h).
Proof.
  intros Hp HF HK HR.
  rewrite (nutrition_optimization_in_bounds uninit h pp pF dR dK dp dF p F Hp HF HR).
  - rewrite HK. reflexivity.
  - rewrite HK. change (trips 0) with 0. lia.
  - right. rewrite HK. change (trips 0) with 0. rewrite Nat.mul_0_r.
    unfold INT_MAX. simpl. lia.
Qed.

End Degenerate.

(** ** Defined or not

    Every call of a kernel on arrays of the heap falls under one of the two
    preceding groups of lemmas: the bounds are decidable. *)

Section Cases.
Context {T : Type} `{Num T}.
Variable uninit : nat -> T.

Lemma tcm_syndrome_analysis_cases (h : heap T) (ps pw pP dN dM : nat)
      (ds dw dP : list nat) (s w P : list T) :
  h !! ps = Some (NDArray (dN :: ds) s) ->
  h !! pw = Some (NDArray dw w) ->
  h !! pP = Some (NDArray (dM :: dP) P) ->
  let n_symptoms := trips (to_int dN) in
  let n_patterns := trips (to_int dM) in
  let in_bounds :=
    (0 <= to_int dM)%Z
    /\ (n_patterns = 0
        \/ (n_symptoms <= length s /\ n_symptoms <= length w
            /\ n_patterns * n_symptoms <= length P
            /\ (Z.of_nat (n_patterns * n_symptoms) <= INT_MAX + 1)%Z)) in
  (in_bounds
   /\ tcm_syndrome_analysis uninit ps pw pP h
      = Some (fresh (dom h),
              <[fresh (dom h) :=
                  NDArray [n_patterns]
                          (map (syndrome_score s w P n_symptoms) (seq 0 n_patterns))]> h))
  \/ (~ in_bounds /\ tcm_syndrome_analysis uninit ps pw pP h = None).
Proof.
  intros Hs Hw HP n_symptoms n_patterns in_bounds.
  destruct (decide in_bounds) as [Hb | Hb]; [left | right]; (split; [exact Hb|]).
  - destruct Hb as [HM Hb].
    exact (tcm_syndrome_analysis_in_bounds uninit h ps pw pP dN dM ds dw dP s w P
             Hs Hw HP HM Hb).
  - apply (tcm_syndrome_analysis_out_of_bounds uninit h ps pw pP dN dM ds dw dP s w P
             Hs Hw HP).
    unfold in_bounds in Hb. fold n_symptoms n_patterns. lia.
Qed.

Lemma health_data_normalize_cases (h : heap T) (pd dR dC : nat) (ds : list nat)
      (D : list T) :
  h !! pd = Some (NDArray (dR :: dC :: ds) D) ->
  let n_samples := trips (to_int dR) in
  let n_features := trips (to_int dC) in
  let in_bounds :=
    (0 <= to_int dR)%Z /\ (0 <= to_int dC)%Z
    /\ n_samples * n_features <= length D
    /\ (Z.of_nat (n_samples * n_features) <= INT_MAX + 1)%Z in
  (in_bounds
   /\ health_data_normalize uninit pd h
      = Some (fresh (dom h),
              <[fresh (dom h) :=
                  NDArray [n_samples; n_features]
                    (map (fun idx => standardize D n_samples n_features
                                                 (idx / n_features) (idx mod n_features))
                         (seq 0 (n_samples * n_features)))]> h))
  \/ (~ in_bounds /\ health_data_normalize uninit pd h = None).
Proof.
  intros Hd n_samples n_features in_bounds.
  destruct (decide in_bounds) as [Hb | Hb]; [left | right]; (split; [exact Hb|]).
  - destruct Hb as (HR & HC & LD & Lint).
    exact (health_data_normalize_in_bounds uninit h pd dR dC ds D Hd HR HC LD Lint).
  - apply (health_data_normalize_out_of_bounds uninit h pd dR dC ds D Hd).
    unfold in_bounds in Hb. fold n_samples n_features. lia.
Qed.

Lemma nutrition_optimization_cases (h : heap T) (pp pF dR dK : nat)
      (dp dF : list nat) (p F : list T) :
  h !! pp = Some (NDArray dp p) ->
  h !! pF = Some (NDArray (dR :: dK :: dF) F) ->
  let n_foods := trips (to_int dR) in
  let n_features := trips (to_int dK) in
  let in_bounds :=
    (0 <= to_int dR)%Z /\ n_features <= length p
    /\ n_foods * n_features <= length F
    /\ (Z.of_nat (n_foods * n_features) <= INT_MAX + 1)%Z in
  (in_bounds
   /\ nutrition_optimization uninit pp pF h
      = Some (fresh (dom h),
              <[fresh (dom h) :=
                  NDArray [n_foods]
                          (map (cosine_match p F n_features) (seq 0 n_foods))]> h))
  \/ (~ in_bounds /\ nutrition_optimization uninit pp pF h = None).
Proof.
  intros Hp HF n_foods n_features in_bounds.
  destruct (decide in_bounds) as [Hb | Hb]; [left | right]; (split; [exact Hb|]).
  - destruct Hb as (HR & Lp & LF & Lint).
    exact (nutrition_optimization_in_bounds uninit h pp pF dR dK dp dF p F Hp HF HR Lp
             (or_intror (conj LF Lint))).
  - apply (nutrition_optimization_out_of_bounds uninit h pp pF dR dK dp dF p F Hp HF).
    unfold in_bounds in Hb. fold n_foods n_features. lia.
Qed.

Lemma biometric_processing_cases (h : heap T) (pb dR dC : nat) (ds : list nat)
      (t : T) (B : list T) :
  h !! pb = Some (NDArray (dR :: dC :: ds) B) ->
  let n_samples := trips (to_int dR) in
  let n_markers := trips (to_int dC) in
  let in_bounds :=
    (0 <= to_int dR)%Z /\ (0 <= to_int dC)%Z
    /\ n_samples * n_markers <= length B
    /\ (Z.of_nat (n_samples * n_markers) <= INT_MAX + 1)%Z in
  (in_bounds
   /\ biometric_processing uninit pb t h
      = Some (fresh (dom h),
              <[fresh (dom h) :=
                  NDArray [n_samples; n_markers]
                    (map (fun idx => threshold_transform t (get B idx))
                         (seq 0 (n_samples * n_markers)))]> h))
  \/ (~ in_bounds /\ biometric_processing uninit pb t h = None).
Proof.
  intros Hb n_samples n_markers in_bounds.
  destruct (decide in_bounds) as [Hin | Hin]; [left | right]; (split; [exact Hin|]).
  - destruct Hin as (HR & HC & LB & Lint).
    exact (biometric_processing_in_bounds uninit h pb dR dC ds t B Hb HR HC LB Lint).
  - apply (biometric_processing_out_of_bounds uninit h pb dR dC ds t B Hb).
    unfold in_bounds in Hin. fold n_samples n_markers. lia.
Qed.

Lemma pattern_matching_cases (h : heap T) (pq pD dR dL : nat)
      (dq dD : list nat) (q D : list T) :
  h !! pq = Some (NDArray dq q) ->
  h !! pD = Some (NDArray (dR :: dL :: dD) D) ->
  let n_patterns := trips (to_int dR) in
  let pattern_length := trips (to_int dL) in
  let in_bounds :=
    (0 <= to_int dR)%Z
    /\ (n_patterns = 0
        \/ (pattern_length <= length q
            /\ n_patterns * pattern_length <= length D
            /\ (Z.of_nat (n_patterns * pattern_length) <= INT_MAX + 1)%Z)) in
  (in_bounds
   /\ pattern_matching uninit pq pD h
      = Some (fresh (dom h),
              <[fresh (dom h) :=
                  NDArray [n_patterns]
                          (map (gaussian_match_int q D (to_int dL))
                               (seq 0 n_patterns))]> h))
  \/ (~ in_bounds /\ pattern_matching uninit pq pD h = None).
Proof.
  intros Hq HD n_patterns pattern_length in_bounds.
  destruct (decide in_bounds) as [Hb | Hb]; [left | right]; (split; [exact Hb|]).
  - destruct Hb as [HR Hb].
    exact (pattern_matching_in_bounds uninit h pq pD dR dL dq dD q D Hq HD HR Hb).
  - apply (pattern_matching_out_of_bounds uninit h pq pD dR dL dq dD q D Hq HD).
    unfold in_bounds in Hb. fold n_patterns pattern_length. lia.
Qed.

(** *** Any order gives what index order gives *)

Section AnyOrderCases.
Variable schedule : nat -> list nat.
Hypothesis schedule_complete : forall n, Permutation (schedule n) (seq 0 n).

Lemma tcm_syndrome_analysis_any_order (h : heap T) (ps pw pP dN dM : nat)
      (ds dw dP : list nat) (s w P : list T) :
  h !! ps = Some (NDArray (dN :: ds) s) ->
  h !! pw = Some (NDArray dw w) ->
  h !! pP = Some (NDArray (dM :: dP) P) ->
  tcm_syndrome_analysis_in uninit schedule ps pw pP h
  = tcm_syndrome_analysis uninit ps pw pP h.
Proof.
  intros Hs Hw HP.
  destruct (tcm_syndrome_analysis_cases h ps pw pP dN dM ds dw dP s w P Hs Hw HP)
    as [[[HM Hb] E] | [Hb E]]; rewrite E.
  - exact (tcm_syndrome_analysis_in_in_bounds uninit schedule schedule_complete h ps pw pP
             dN dM ds dw dP s w P Hs Hw HP HM Hb).
  - apply (tcm_syndrome_analysis_in_out_of_bounds uninit schedule schedule_complete h
             ps pw pP dN dM ds dw dP s w P Hs Hw HP).
    lia.
Qed.

Lemma health_data_normalize_any_order (h : heap T) (pd dR dC : nat) (ds : list nat)
      (D : list T) :
  h !! pd = Some (NDArray (dR :: dC :: ds) D) ->
  health_data_normalize_in uninit schedule pd h = health_data_normalize uninit pd h.
Proof.
  intros Hd.
  destruct (health_data_normalize_cases h pd dR dC ds D Hd)
    as [[(HR & HC & LD & Lint) E] | [Hb E]]; rewrite E.
  - exact (health_data_normalize_in_in_bounds uninit schedule schedule_complete h pd
             dR dC ds D Hd HR HC LD Lint).
  - apply (health_data_normalize_in_out_of_bounds uninit schedule schedule_complete h pd
             dR dC ds D Hd).
    lia.
Qed.

Lemma nutrition_optimization_any_order (h : heap T) (pp pF dR dK : nat)
      (dp dF : list nat) (p F : list T) :
  h !! pp = Some (NDArray dp p) ->
  h !! pF = Some (NDArray (dR :: dK :: dF) F) ->
  nutrition_optimization_in uninit schedule pp pF h
  = nutrition_optimization uninit pp pF h.
Proof.
  intros Hp HF.
  destruct (nutrition_optimization_cases h pp pF dR dK dp dF p F Hp HF)
    as [[(HR & Lp & LF & Lint) E] | [Hb E]]; rewrite E.
  - exact (nutrition_optimization_in_in_bounds uninit schedule schedule_complete h pp pF
             dR dK dp dF p F Hp HF HR Lp (or_intror (conj LF Lint))).
  - apply (nutrition_optimization_in_out_of_bounds uninit schedule schedule_complete h
             pp pF dR dK dp dF p F Hp HF).
    lia.
Qed.

Lemma biometric_processing_any_order (h : heap T) (pb dR dC : nat) (ds : list nat)
      (t : T) (B : list T) :
  h !! pb = Some (NDArray (dR :: dC :: ds) B) ->
  biometric_processing_in uninit schedule pb t h = biometric_processing uninit pb t h.
Proof.
  intros Hb.
  destruct (biometric_processing_cases h pb dR dC ds t B Hb)
    as [[(HR & HC & LB & Lint) E] | [Hin E]]; rewrite E.
  - exact (biometric_processing_in_in_bounds uninit schedule schedule_complete h pb
             dR dC ds t B Hb HR HC LB Lint).
  - apply (biometric_processing_in_out_of_bounds uninit schedule schedule_complete h pb
             dR dC ds t B Hb).
    lia.
Qed.

Lemma pattern_matching_any_order (h : heap T) (pq pD dR dL : nat)
      (dq dD : list nat) (q D : list T) :
  h !! pq = Some (NDArray dq q) ->
  h !! pD = Some (NDArray (dR :: dL :: dD) D) ->
  pattern_matching_in uninit schedule pq pD h = pattern_matching uninit pq pD h.
Proof.
  intros Hq HD.
  destruct (pattern_matching_cases h pq pD dR dL dq dD q D Hq HD)
    as [[[HR Hb] E] | [Hb E]]; rewrite E.
  - exact (pattern_matching_in_in_bounds uninit schedule schedule_complete h pq pD
             dR dL dq dD q D Hq HD HR Hb).
  - apply (pattern_matching_in_out_of_bounds uninit schedule schedule_complete h pq pD
             dR dL dq dD q D Hq HD).
    lia.
Qed.

End AnyOrderCases.

End Cases.

(** ** Dimensions that fit in an [int]

    The closed forms once more, for dimensions below 2^31: the loop bounds
    are then the dimensions themselves. *)

Section Fits.
Context {T : Type} `{Num T}.
Variable uninit : nat -> T.

Lemma tcm_syndrome_analysis_fits (h : heap T) (ps pw pP N Mr : nat)
      (ds dw dP : list nat) (s w P : list T) :
  h !! ps = Some (NDArray (N :: ds) s) ->
  h !! pw = Some (NDArray dw w) ->
  h !! pP = Some (NDArray (Mr :: dP) P) ->
  Mr = 0 \/ (N <= length s /\ N <= length w /\ Mr * N <= length P) ->
  fits_int N -> fits_int Mr -> fits_int (Mr * N) ->
  tcm_syndrome_analysis uninit ps pw pP h
  = Some (fresh (dom h),
          <[fresh (dom h) := NDArray [Mr] (map (syndrome_score s w P N) (seq 0 Mr))]> h).
Proof.
  intros Hs Hw HP Hb FN FM FMN.
  pose proof (tcm_syndrome_analysis_in_bounds uninit h ps pw pP N Mr ds dw dP s w P
                Hs Hw HP (to_int_nonneg_fits Mr FM)) as E.
  rewrite !(trips_fits N FN), !(trips_fits Mr FM) in E.
  apply E. destruct Hb as [-> | Hb]; [left; reflexivity | right].
  unfold fits_int in FMN. lia.
Qed.

Lemma health_data_normalize_fits (h : heap T) (pd R C : nat) (ds : list nat)
      (D : list T) :
  h !! pd = Some (NDArray (R :: C :: ds) D) ->
  R * C <= length D ->
  fits_int R -> fits_int C -> fits_int (R * C) ->
  health_data_normalize uninit pd h
  = Some (fresh (dom h),
          <[fresh (dom h) :=
              NDArray [R; C]
                (map (fun idx => standardize D R C (idx / C) (idx mod C))
                     (seq 0 (R * C)))]> h).
Proof.
  intros Hd LD FR FC FRC.
  pose proof (health_data_normalize_in_bounds uninit h pd R C ds D Hd
                (to_int_nonneg_fits R FR) (to_int_nonneg_fits C FC)) as E.
  rewrite !(trips_fits R FR), !(trips_fits C FC) in E.
  apply E; [exact LD | unfold fits_int in FRC; lia].
Qed.

Lemma nutrition_optimization_fits (h : heap T) (pp pF K R : nat)
      (dp dF : list nat) (p F : list T) :
  h !! pp = Some (NDArray dp p) ->
  h !! pF = Some (NDArray (R :: K :: dF) F) ->
  K <= length p -> R = 0 \/ R * K <= length F ->
  fits_int K -> fits_int R -> fits_int (R * K) ->
  nutrition_optimization uninit pp pF h
  = Some (fresh (dom h),
          <[fresh (dom h) := NDArray [R] (map (cosine_match p F K) (seq 0 R))]> h).
Proof.
  intros Hp HF Lp Hb FK FR FRK.
  pose proof (nutrition_optimization_in_bounds uninit h pp pF R K dp dF p F Hp HF
                (to_int_nonneg_fits R FR)) as E.
  rewrite !(trips_fits R FR), !(trips_fits K FK) in E.
  apply E; [exact Lp|]. destruct Hb as [-> | Hb]; [left; reflexivity | right].
  unfold fits_int in FRK. lia.
Qed.

Lemma biometric_processing_fits (h : heap T) (pb R C : nat) (ds : list nat)
      (t : T) (B : list T) :
  h !! pb = Some (NDArray (R :: C :: ds) B) ->
  R * C <= length B ->
  fits_int R -> fits_int C -> fits_int (R * C) ->
  biometric_processing uninit pb t h
  = Some (fresh (dom h),
          <[fresh (dom h) :=
              NDArray [R; C]
                (map (fun idx => threshold_transform t (get B idx))
                     (seq 0 (R * C)))]> h).
Proof.
  intros Hb LB FR FC FRC.
  pose proof (biometric_processing_in_bounds uninit h pb R C ds t B Hb
                (to_int_nonneg_fits R FR) (to_int_nonneg_fits C FC)) as E.
  rewrite !(trips_fits R FR), !(trips_fits C FC) in E.
  apply E; [exact LB | unfold fits_int in FRC; lia].
Qed.

Lemma pattern_matching_fits (h : heap T) (pq pD L R : nat)
      (dq dD : list nat) (q D : list T) :
  h !! pq = Some (NDArray dq q) ->
  h !! pD = Some (NDArray (R :: L :: dD) D) ->
  R = 0 \/ (L <= length q /\ R * L <= length D) ->
  fits_int L -> fits_int R -> fits_int (R * L) ->
  pattern_matching uninit pq pD h
  = Some (fresh (dom h),
          <[fresh (dom h) := NDArray [R] (map (gaussian_match q D L) (seq 0 R))]> h).
Proof.
  intros Hq HD Hb FL FR FRL.
  pose proof (pattern_matching_in_bounds uninit h pq pD R L dq dD q D Hq HD
                (to_int_nonneg_fits R FR)) as E.
  rewrite !(trips_fits R FR), !(trips_fits L FL) in E.
  rewrite E.
  - do 4 f_equal. apply map_ext. intros i.
    rewrite (gaussian_match_int_trips q D (to_int L) i (to_int_nonneg_fits L FL)).
    rewrite (trips_fits L FL). reflexivity.
  - destruct Hb as [-> | Hb]; [left; reflexivity | right].
    unfold fits_int in FRL. lia.
Qed.

End Fits.

(** ** Real analysis used by the claims *)

Section RealFacts.
Local Open Scope R_scope.

Lemma Rsum_S (n : nat) (f : nat -> R) : sum_to (S n) f = sum_to n f + f n.
Proof. rewrite sum_to_S. reflexivity. Qed.

Lemma Rsum_scal (n : nat) (f : nat -> R) (c : R) :
  sum_to n (fun i => f i * c) = sum_to n f * c.
Proof.
  induction n as [|n IH]; [simpl; unfold sum_to; simpl; lra|].
  rewrite !Rsum_S, IH. lra.
Qed.

Lemma Rsum_shift (n : nat) (f : nat -> R) (c : R) :
  sum_to n (fun i => f i - c) = sum_to n f - INR n * c.
Proof.
  induction n as [|n IH]; [unfold sum_to; simpl; lra|].
  rewrite !Rsum_S, IH, S_INR. lra.
Qed.

Lemma Rsum_pos (n : nat) (f : nat -> R) :
  (0 < n)%nat -> (forall i, (i < n)%nat -> 0 < f i) -> 0 < sum_to n f.
Proof.
  induction n as [|n IH]; intros Hn Hf; [lia|].
  rewrite Rsum_S. pose proof (Hf n ltac:(lia)) as Hlast.
  destruct n as [|n]; [unfold sum_to; simpl; lra|].
  assert (0 < sum_to (S n) f) by (apply IH; [lia | intros; apply Hf; lia]). lra.
Qed.

Lemma Rsum_nonneg (n : nat) (f : nat -> R) :
  (forall i, (i < n)%nat -> 0 <= f i) -> 0 <= sum_to n f.
Proof.
  induction n as [|n IH]; intros Hf; [unfold sum_to; simpl; lra|].
  rewrite Rsum_S. pose proof (Hf n ltac:(lia)).
  assert (0 <= sum_to n f) by (apply IH; intros; apply Hf; lia). lra.
Qed.

Lemma Rsum_le_count (n : nat) (f : nat -> R) :
  (forall i, (i < n)%nat -> f i <= 1) -> sum_to n f <= INR n.
Proof.
  induction n as [|n IH]; intros Hf; [unfold sum_to; simpl; lra|].
  rewrite Rsum_S, S_INR. pose proof (Hf n ltac:(lia)).
  assert (sum_to n f <= INR n) by (apply IH; intros; apply Hf; lia). lra.
Qed.

(** A sum of [n] terms, none above 1, reaches [n] only when every term
    is 1. *)
Lemma Rsum_eq_count (n : nat) (f : nat -> R) :
  (forall i, (i < n)%nat -> f i <= 1) ->
  sum_to n f = INR n -> forall i, (i < n)%nat -> f i = 1.
Proof.
  induction n as [|n IH]; intros Hf Hs i Hi; [lia|].
  rewrite Rsum_S, S_INR in Hs.
  pose proof (Hf n ltac:(lia)) as Hlast.
  assert (Hle : sum_to n f <= INR n) by (apply Rsum_le_count; intros; apply Hf; lia).
  destruct (decide (i = n)) as [->|Hne]; [lra|].
  apply IH; [intros; apply Hf; lia | lra | lia].
Qed.

Lemma Rsum_all_one (n : nat) (f : nat -> R) :
  (forall i, (i < n)%nat -> f i = 1) -> sum_to n f = INR n.
Proof.
  induction n as [|n IH]; intros Hf; [unfold sum_to; simpl; lra|].
  rewrite Rsum_S, S_INR, IH, (Hf n) by (intros; try apply Hf; lia). lra.
Qed.

(** [exp (-d * d)] lies in (0, 1] and is 1 exactly at [d = 0]. *)
Lemma gauss_term_range (d : R) : 0 < exp (- d * d) <= 1.
Proof.
  split; [apply exp_pos|].
  destruct (Req_dec d 0) as [->|Hd].
  - rewrite Rmult_0_r, exp_0. lra.
  - left. rewrite <- exp_0. apply exp_increasing. nra.
Qed.

Lemma gauss_term_one (d : R) : exp (- d * d) = 1 <-> d = 0.
Proof.
  split.
  - intros He. rewrite <- exp_0 in He. apply exp_inv in He. nra.
  - intros ->. rewrite Rmult_0_r. apply exp_0.
Qed.

Lemma sigmoid_range (x : R) : 0 < 1 / (1 + exp (- x)) < 1.
Proof.
  pose proof (exp_pos (- x)) as Hp.
  split.
  - apply Rdiv_lt_0_compat; lra.
  - apply (Rmult_lt_reg_r (1 + exp (- x))); [lra|].
    unfold Rdiv. rewrite Rmult_assoc, Rinv_l by lra. lra.
Qed.

Lemma exp_upper (x : R) : x < 1 -> exp x <= 1 / (1 - x).
Proof.
  intros Hx. pose proof (exp_ineq1_le (- x)) as Hn. pose proof (exp_pos x) as Hp.
  assert (E : exp x * exp (- x) = 1) by (rewrite <- exp_plus, Rplus_opp_r; apply exp_0).
  apply (Rmult_le_reg_r (1 - x)); [lra|].
  unfold Rdiv. rewrite Rmult_1_l, Rinv_l by lra. nra.
Qed.

Lemma exp_double (a b a' b' x : R) :
  a <= exp x <= b -> 0 <= a -> a' <= a * a -> b * b <= b' ->
  a' <= exp (x + x) <= b'.
Proof.
  intros [Hl Hu] Ha Ha' Hb'. rewrite exp_plus. split; nra.
Qed.

(** [exp 2] to three decimals, from [1 + x <= exp x] at [x = 1/4096] and
    [x = -1/4096] and thirteen squarings. *)
Lemma exp_2_bounds : 7387 / 1000 <= exp 2 <= 7391 / 1000.
Proof.
  assert (H0 : 4097 / 4096 <= exp (1 / 4096) <= 4096 / 4095).
  { split.
    - pose proof (exp_ineq1_le (1 / 4096)). lra.
    - pose proof (exp_upper (1 / 4096) ltac:(lra)). lra. }
  assert (H1 : 500244170427 / 500000000000 <= exp (1 / 2048) <= 1000488460123 / 1000000000000)
    by (replace (1 / 2048) with (1 / 4096 + 1 / 4096) by lra; apply (exp_double _ _ _ _ _ H0); lra).
  clear H0.
  assert (H2 : 125122115023 / 125000000000 <= exp (1 / 1024) <= 25024428971 / 25000000000)
    by (replace (1 / 1024) with (1 / 2048 + 1 / 2048) by lra; apply (exp_double _ _ _ _ _ H1); lra).
  clear H1.
  assert (H3 : 1001954794741 / 1000000000000 <= exp (1 / 512) <= 25048881813 / 25000000000)
    by (replace (1 / 512) with (1 / 1024 + 1 / 1024) by lra; apply (exp_double _ _ _ _ _ H2); lra).
  clear H2.
  assert (H4 : 62744588169 / 62500000000 <= exp (1 / 256) <= 1003914368131 / 1000000000000)
    by (replace (1 / 256) with (1 / 512 + 1 / 512) by lra; apply (exp_double _ _ _ _ _ H3); lra).
  clear H3.
  assert (H5 : 1007842136191 / 1000000000000 <= exp (1 / 128) <= 50392202927 / 50000000000)
    by (replace (1 / 128) with (1 / 256 + 1 / 256) by lra; apply (exp_double _ _ _ _ _ H4); lra).
  clear H4.
  assert (H6 : 507872885741 / 500000000000 <= exp (1 / 64) <= 203149929267 / 200000000000)
    by (replace (1 / 64) with (1 / 128 + 1 / 128) by lra; apply (exp_double _ _ _ _ _ H5); lra).
  clear H5.
  assert (H7 : 1031739472283 / 1000000000000 <= exp (1 / 32) <= 103174734403 / 100000000000)
    by (replace (1 / 32) with (1 / 64 + 1 / 64) by lra; apply (exp_double _ _ _ _ _ H6); lra).
  clear H6.
  assert (H8 : 532243169333 / 500000000000 <= exp (1 / 16) <= 1064502581913 / 1000000000000)
    by (replace (1 / 16) with (1 / 32 + 1 / 32) by lra; apply (exp_double _ _ _ _ _ H7); lra).
  clear H7.
  assert (H9 : 566565582603 / 500000000000 <= exp (1 / 8) <= 11331657469 / 10000000000)
    by (replace (1 / 8) with (1 / 16 + 1 / 16) by lra; apply (exp_double _ _ _ _ _ H8); lra).
  clear H8.
  assert (H10 : 1283986237561 / 1000000000000 <= exp (1 / 4) <= 321016152487 / 250000000000)
    by (replace (1 / 4) with (1 / 8 + 1 / 8) by lra; apply (exp_double _ _ _ _ _ H9); lra).
  clear H9.
  assert (H11 : 824310329123 / 500000000000 <= exp (1 / 2) <= 1648821922521 / 1000000000000)
    by (replace (1 / 2) with (1 / 4 + 1 / 4) by lra; apply (exp_double _ _ _ _ _ H10); lra).
  clear H10.
  assert (H12 : 543590014959 / 200000000000 <= exp (1) <= 1359306866093 / 500000000000)
    by (replace (1) with (1 / 2 + 1 / 2) by lra; apply (exp_double _ _ _ _ _ H11); lra).
  clear H11.
  assert (H13 : 3693626304539 / 500000000000 <= exp (2) <= 7390860624831 / 1000000000000)
    by (replace (2) with (1 + 1) by lra; apply (exp_double _ _ _ _ _ H12); lra).
  clear H12.
  lra.
Qed.

Lemma sigmoid_2_approx : Rabs (sigmoid 2 - 8808 / 10000) < 5 / 100000.
Proof.
  pose proof exp_2_bounds as [Hl Hu].
  unfold sigmoid. simpl. rewrite exp_Ropp.
  replace (1 / (1 + / exp 2)) with (exp 2 / (exp 2 + 1)) by (field; lra).
  assert (H1 : 88076 / 100000 < exp 2 / (exp 2 + 1)).
  { apply (Rmult_lt_reg_r (exp 2 + 1)); [lra|].
    unfold Rdiv at 2. rewrite Rmult_assoc, Rinv_l by lra. lra. }
  assert (H2 : exp 2 / (exp 2 + 1) < 88083 / 100000).
  { apply (Rmult_lt_reg_r (exp 2 + 1)); [lra|].
    unfold Rdiv at 1. rewrite Rmult_assoc, Rinv_l by lra. lra. }
  apply Rabs_def1; lra.
Qed.


Lemma Rsum_const (n : nat) (c : R) : sum_to n (fun _ => c) = INR n * c.
Proof.
  induction n as [|n IH]; [unfold sum_to; simpl; lra|].
  rewrite Rsum_S, IH, S_INR. lra.
Qed.

(** The standard scores of [x 0 .. x (n-1)]: mean 0, variance
    [V / (V + eps)] for [V] the population variance of the [x i]. *)
Lemma standard_scores (x : nat -> R) (n : nat) (eps : R) :
  (0 < n)%nat -> 0 < eps ->
  let m := sum_to n x / INR n in
  let V := sum_to n (fun i => (x i - m) * (x i - m)) / INR n in
  let o := fun i => (x i - m) / sqrt (V + eps) in
  0 <= V
  /\ sum_to n o / INR n = 0
  /\ sum_to n (fun i => (o i - 0) * (o i - 0)) / INR n = V / (V + eps).
Proof.
  intros Hn Heps m V o.
  assert (HINR : 0 < INR n) by (apply lt_0_INR; lia).
  assert (HV : 0 <= V).
  { unfold V. apply Rmult_le_pos; [|left; apply Rinv_0_lt_compat, HINR].
    apply Rsum_nonneg. intros i _. exact (Rle_0_sqr (x i - m)). }
  set (sd := sqrt (V + eps)) in *.
  assert (Hsd : 0 < sd) by (apply sqrt_lt_R0; lra).
  assert (Hsd2 : sd * sd = V + eps) by (apply sqrt_sqrt; lra).
  split; [exact HV|]. split.
  - replace (sum_to n o) with (sum_to n (fun i => x i - m) * / sd).
    + rewrite Rsum_shift. unfold m. field. split; lra.
    + rewrite <- Rsum_scal. apply sum_to_ext. intros i _. reflexivity.
  - replace (sum_to n (fun i => (o i - 0) * (o i - 0)))
      with (sum_to n (fun i => (x i - m) * (x i - m)) * (/ sd * / sd)).
    + replace (sum_to n (fun i => (x i - m) * (x i - m))) with (V * INR n)
        by (unfold V; field; lra).
      rewrite <- Hsd2. field. split; lra.
    + rewrite <- Rsum_scal. apply sum_to_ext. intros i _. unfold o. field. lra.
Qed.
End RealFacts.

(** ** Results as arrays *)

Lemma returns_array_only_allocates {T : Type} (m : M T nat) (h : heap T)
      (sh : list nat) (out : list T) :
  returns_array m h sh out -> length out = foldr Nat.mul 1 sh -> only_allocates m h sh.
Proof.
  intros (r & Hr & E) HL. exists r, (<[r := NDArray sh out]> h).
  split; [exact E|]. split; [exact Hr|]. split; [|split].
  - intros p a Hp. rewrite lookup_insert_ne by congruence. exact Hp.
  - intros p Hp. apply lookup_insert_ne. congruence.
  - exists out. split; [apply lookup_insert_eq | exact HL].
Qed.

Ltac heap_lookup :=
  unfold syndrome_example, syndrome_heap, column_example, vector_matrix_example,
         matrix_example, two_arrays, three_arrays;
  repeat (rewrite lookup_insert_ne by lia); rewrite lookup_insert_eq; reflexivity.

(** ** Binary32 at the ends of its range

    What the kernels return on three small inputs whose intermediate values
    overflow or underflow, for every C library. *)

Section Binary32Extremes.
Context (lm : Libm) (uninit : nat -> float32).

(** symptoms = [x], weights = [2^100], pattern = [[1]] with x = 2^100 and
    x = -2^100: the weighted symptom is +infinity resp. -infinity. *)
Lemma sigmoid_saturates_binary32 :
  returns_array (tcm_syndrome_analysis uninit 0 1 2)
                (syndrome_heap 1 1 [big32] [big32] [fone]) [1] [fone]
  /\ returns_array (tcm_syndrome_analysis uninit 0 1 2)
                   (syndrome_heap 1 1 [SFopp big32] [big32] [fone]) [1] [fzero].
Proof.
  assert (Run : forall x : float32,
             returns_array (tcm_syndrome_analysis uninit 0 1 2)
                           (syndrome_heap 1 1 [x] [big32] [fone]) [1]
                           [syndrome_score [x] [big32] [fone] 1 0]).
  { intros x.
    destruct (tcm_syndrome_analysis_run uninit (syndrome_heap 1 1 [x] [big32] [fone])
                0 1 2 1 1 [x] [big32] [fone]) as (r & out & E & Hr & HL & Hout);
      try heap_lookup; try reflexivity; try small.
    rewrite (singleton_of_lookup out _ HL (Hout 0 ltac:(lia))) in E.
    exists r. split; assumption. }
  split.
  - replace (fone (T := float32)) with (syndrome_score [big32] [big32] [fone] 1 0) at 2;
      [apply Run|].
    unfold syndrome_score, sigmoid.
    replace (weighted_sum [big32] [big32] [fone] 1 0) with (S754_infinity false)
      by (vm_compute; reflexivity).
    change (expf (fneg (S754_infinity false))) with (lm_expf (S754_infinity true)).
    rewrite expf_ninf. reflexivity.
  - replace (fzero (T := float32)) with (syndrome_score [SFopp big32] [big32] [fone] 1 0);
      [apply Run|].
    unfold syndrome_score, sigmoid.
    replace (weighted_sum [SFopp big32] [big32] [fone] 1 0) with (S754_infinity true)
      by (vm_compute; reflexivity).
    change (expf (fneg (S754_infinity true))) with (lm_expf (S754_infinity false)).
    rewrite expf_pinf. reflexivity.
Qed.

(** query = [2^100] against the row [-2^100]: the square of the difference
    overflows.  query = [2^-100] against the row [0]: it underflows to -0. *)
Lemma gaussian_rounds_binary32 :
  returns_array (pattern_matching uninit 0 1)
                (vector_matrix_example 1 1 [big32] [SFopp big32]) [1] [fzero]
  /\ returns_array (pattern_matching uninit 0 1)
                   (vector_matrix_example 1 1 [tiny32] [fzero]) [1] [fone].
Proof.
  assert (Run : forall x y : float32,
             returns_array (pattern_matching uninit 0 1)
                           (vector_matrix_example 1 1 [x] [y]) [1]
                           [gaussian_match [x] [y] 1 0]).
  { intros x y.
    destruct (pattern_matching_run uninit (vector_matrix_example 1 1 [x] [y])
                0 1 1 1 [x] [y]) as (r & out & E & Hr & HL & Hout);
      try heap_lookup; try reflexivity; try small.
    rewrite (singleton_of_lookup out _ HL (Hout 0 ltac:(lia))) in E.
    exists r. split; assumption. }
  split.
  - replace (fzero (T := float32)) with (gaussian_match [big32] [SFopp big32] 1 0);
      [apply Run|].
    unfold gaussian_match. rewrite sum_to_1. cbv zeta.
    match goal with |- context [expf ?a] =>
      replace a with (S754_infinity true) by (vm_compute; reflexivity) end.
    change (expf (S754_infinity true)) with (lm_expf (S754_infinity true)).
    rewrite expf_ninf. reflexivity.
  - replace (@fone float32 F32_Num) with (gaussian_match [tiny32] [S754_zero false] 1 0);
      [apply Run|].
    unfold gaussian_match. rewrite sum_to_1. cbv zeta.
    match goal with |- context [expf ?a] =>
      replace a with (S754_zero true) by (vm_compute; reflexivity) end.
    change (expf (S754_zero true)) with (lm_expf (S754_zero true)).
    rewrite expf_zero. reflexivity.
Qed.

End Binary32Extremes.

(** ** The claims *)

(** C1, as stated, fails on a pattern matrix with more rows than a C
    [int] holds.  The source keeps both loop bounds in an [int] (lines
    28-29).  With no symptom and 2^32 + 1 patterns of width 0 the number of
    patterns becomes 1: the call returns a vector of length 1, not of
    length 2^32 + 1.  With 2^31 patterns of width 0 it becomes negative:
    the allocation fails and the call goes on with the null pointer.  Both
    inputs have consistent shapes and empty buffers. *)
Lemma syndrome_score_truncates_rows :
  (forall (T : Type) (num : Num T) (uninit : nat -> T),
      returns_array (tcm_syndrome_analysis uninit 0 1 2)
                    (syndrome_heap 0 dim_2_32_1 [] [] []) [1] [sigmoid fzero])
  /\ (forall (T : Type) (num : Num T) (uninit : nat -> T),
        tcm_syndrome_analysis uninit 0 1 2 (syndrome_heap 0 dim_2_31 [] [] []) = None)
  /\ Z.of_nat dim_2_32_1 = 4294967297%Z
  /\ Z.of_nat dim_2_31 = 2147483648%Z
  /\ dim_2_32_1 * 0 = 0 /\ dim_2_31 * 0 = 0.
Proof.
  split; [|split; [|split; [|split; [|split]]]].
  - intros T num uninit. exists (fresh (dom (syndrome_heap (T := T) 0 dim_2_32_1 [] [] []))).
    split; [apply fresh_unused|].
    pose proof (tcm_syndrome_analysis_no_symptoms
                  uninit (syndrome_heap 0 dim_2_32_1 [] [] [])
                  0 1 2 0 dim_2_32_1 [] [0] [0] [] [] []) as E.
    rewrite (proj2 (proj2 to_int_examples)) in E.
    apply E; [heap_lookup | heap_lookup | heap_lookup | reflexivity | lia].
  - intros T num uninit.
    apply (tcm_syndrome_analysis_out_of_bounds
             uninit (syndrome_heap 0 dim_2_31 [] [] []) 0 1 2 0 dim_2_31 [] [0] [0]
             [] [] []); [heap_lookup | heap_lookup | heap_lookup |].
    left. rewrite (proj1 to_int_examples). lia.
  - apply big_dimensions.
  - apply big_dimensions.
  - apply Nat.mul_0_r.
  - apply Nat.mul_0_r.
Qed.

(** C1, amended.  For dimensions and a number of pattern values that fit
    in a C [int] (below 2^31), [tcm_syndrome_analysis] returns a vector [r]
    of length [M] with [r[i] = sigmoid (sum_j s[j] * w[j] * P[i][j])] for
    every [i < M], in whichever arithmetic it is run.  For s = [1,1],
    w = [1,1], P = [[1,1]] the single output is [sigmoid 2]: in real
    arithmetic that is within 0.00005 of 0.8808, and in binary32 the
    argument of the sigmoid is the float 2.0 exactly. *)
Theorem syndrome_score_formula :
  (forall (T : Type) (num : Num T) (uninit : nat -> T) (h : heap T)
          (ps pw pP N Mr : nat) (s w P : list T),
      h !! ps = Some (NDArray [N] s) ->
      h !! pw = Some (NDArray [N] w) ->
      h !! pP = Some (NDArray [Mr; N] P) ->
      length s = N -> length w = N -> length P = Mr * N ->
      fits_int N -> fits_int Mr -> fits_int (Mr * N) ->
      exists r : list T,
        returns_array (tcm_syndrome_analysis uninit ps pw pP) h [Mr] r
        /\ length r = Mr
        /\ forall i, i < Mr ->
             r !! i = Some (sigmoid (sum_to N (fun j =>
                              fmul (fmul (get s j) (get w j)) (get P (i * N + j))))))
  /\ (forall uninit : nat -> R,
        returns_array (tcm_syndrome_analysis uninit 0 1 2) (syndrome_example 1%R)
                      [1] [sigmoid 2%R])
  /\ (Rabs (sigmoid 2 - 8808 / 10000) < 5 / 100000)%R
  /\ (forall (lm : Libm) (uninit : nat -> float32),
        returns_array (tcm_syndrome_analysis uninit 0 1 2) (syndrome_example fone)
                      [1] [sigmoid two32]).
Proof.
  assert (General : forall (T : Type) (num : Num T) (uninit : nat -> T) (h : heap T)
          (ps pw pP N Mr : nat) (s w P : list T),
      h !! ps = Some (NDArray [N] s) ->
      h !! pw = Some (NDArray [N] w) ->
      h !! pP = Some (NDArray [Mr; N] P) ->
      length s = N -> length w = N -> length P = Mr * N ->
      fits_int N -> fits_int Mr -> fits_int (Mr * N) ->
      exists r : list T,
        returns_array (tcm_syndrome_analysis uninit ps pw pP) h [Mr] r
        /\ length r = Mr
        /\ forall i, i < Mr -> r !! i = Some (syndrome_score s w P N i)).
  { intros T num uninit h ps pw pP N Mr s w P Hs Hw HP Ls Lw LP FN FM FMN.
    destruct (tcm_syndrome_analysis_run uninit h ps pw pP N Mr s w P Hs Hw HP Ls Lw LP FN
                FM FMN)
      as (r & out & E & Hr & HL & Hout).
    exists out. split; [exists r; split; assumption|]. split; assumption. }
  split; [exact General|]. split; [|split; [exact sigmoid_2_approx|]].
  - intros uninit.
    destruct (General R _ uninit (syndrome_example 1%R) 0 1 2 2 1
                [1; 1]%R [1; 1]%R [1; 1]%R) as (out & Hret & HL & Hout);
      try heap_lookup; try reflexivity; try small.
    rewrite (singleton_of_lookup out _ HL (Hout 0 ltac:(lia))) in Hret.
    replace (sigmoid 2%R) with (syndrome_score [1; 1]%R [1; 1]%R [1; 1]%R 2 0);
      [exact Hret|].
    unfold syndrome_score. f_equal. unfold weighted_sum, sum_to, get. simpl. lra.
  - intros lm uninit.
    destruct (General float32 _ uninit (syndrome_example fone) 0 1 2 2 1
                [fone; fone] [fone; fone] [fone; fone]) as (out & Hret & HL & Hout);
      try heap_lookup; try reflexivity; try small.
    rewrite (singleton_of_lookup out _ HL (Hout 0 ltac:(lia))) in Hret.
    exact Hret.
Qed.

Lemma syndrome_score_formula_witness :
  exists r : list R,
    returns_array (tcm_syndrome_analysis (fun _ => 0%R) 0 1 2) (syndrome_example 1%R) [1] r
    /\ length r = 1
    /\ forall i, i < 1 ->
         r !! i = Some (sigmoid (sum_to 2 (fun j =>
                          fmul (fmul (get [1; 1]%R j) (get [1; 1]%R j))
                               (get [1; 1]%R (i * 2 + j))))).
Proof.
  apply (proj1 syndrome_score_formula R R_Num (fun _ => 0%R) (syndrome_example 1%R)
               0 1 2 2 1 [1; 1]%R [1; 1]%R [1; 1]%R);
    try heap_lookup; try reflexivity; small.
Defined.

(** C2, as stated, fails on a matrix with more rows than a C [int] holds.
    The source keeps both dimensions in an [int] (lines 72-73).  For an
    empty matrix of shape (2^32, 0) the number of samples becomes 0 and the
    result has shape (0, 0), not the shape of the input.  For shape
    (2^31, 0) it becomes negative: the allocation fails and the call goes
    on with the null pointer. *)
Lemma standardize_truncates_shape :
  (forall (T : Type) (num : Num T) (uninit : nat -> T),
      returns_array (health_data_normalize uninit 0) (matrix_example dim_2_32 0 [])
                    [0; 0] [])
  /\ (forall (T : Type) (num : Num T) (uninit : nat -> T),
        health_data_normalize uninit 0 (matrix_example dim_2_31 0 []) = None)
  /\ Z.of_nat dim_2_32 = 4294967296%Z
  /\ Z.of_nat dim_2_31 = 2147483648%Z
  /\ dim_2_32 * 0 = 0 /\ dim_2_31 * 0 = 0.
Proof.
  split; [|split; [|split; [|split; [|split]]]].
  - intros T num uninit. exists (fresh (dom (matrix_example (T := T) dim_2_32 0 []))).
    split; [apply fresh_unused|].
    apply (health_data_normalize_no_samples
             uninit (matrix_example dim_2_32 0 []) 0 dim_2_32 0 [] []);
      [heap_lookup | apply (proj1 (proj2 to_int_examples)) | reflexivity].
  - intros T num uninit.
    apply (health_data_normalize_out_of_bounds
             uninit (matrix_example dim_2_31 0 []) 0 dim_2_31 0 [] []); [heap_lookup|].
    left. rewrite (proj1 to_int_examples). lia.
  - apply big_dimensions.
  - apply big_dimensions.
  - apply Nat.mul_0_r.
  - apply Nat.mul_0_r.
Qed.

(** C2, amended.  For a matrix whose dimensions and number of elements fit
    in a C [int] (below 2^31), [health_data_normalize] returns a matrix of
    the shape of its input in which every entry of column [j] is
    [(D[i][j] - mean_j) / sqrt (variance_j + 1e-8)], with [mean_j] the
    column mean and [variance_j] the population variance (both divide by the
    row count).  On the column [1, 2, 3] the result is within 0.00005 of
    [-1.2247, 0, 1.2247], in real arithmetic and in binary32. *)
Theorem standardize_formula :
  (forall (T : Type) (num : Num T) (uninit : nat -> T) (h : heap T)
          (pd R C : nat) (D : list T),
      h !! pd = Some (NDArray [R; C] D) ->
      length D = R * C ->
      fits_int R -> fits_int C -> fits_int (R * C) ->
      exists out : list T,
        returns_array (health_data_normalize uninit pd) h [R; C] out
        /\ length out = R * C
        /\ forall i j, i < R -> j < C ->
             let mean_j := fdiv (sum_to R (fun k => get D (k * C + j))) (of_int R) in
             let variance_j :=
               fdiv (sum_to R (fun k => fmul (fsub (get D (k * C + j)) mean_j)
                                             (fsub (get D (k * C + j)) mean_j)))
                    (of_int R) in
             out !! (i * C + j)
             = Some (fdiv (fsub (get D (i * C + j)) mean_j)
                          (sqrtf (fadd variance_j feps))))
  /\ (forall uninit : nat -> R,
        exists a b c : R,
          returns_array (health_data_normalize uninit 0) (column_example [1; 2; 3]%R)
                        [3; 1] [a; b; c]
          /\ (Rabs (a - - (12247 / 10000)) < 5 / 100000)%R
          /\ b = 0%R
          /\ (Rabs (c - 12247 / 10000) < 5 / 100000)%R)
  /\ (forall (lm : Libm) (uninit : nat -> float32),
        returns_array (health_data_normalize uninit 0)
                      (column_example [fone; two32; three32]) [3; 1]
                      [S754_finite true 10273904 (-23); S754_zero false;
                       S754_finite false 10273904 (-23)])
  /\ (Qabs (F2Q (S754_finite false 10273904 (-23)) - (12247 # 10000)) < (5 # 100000))%Q.
Proof.
  assert (General : forall (T : Type) (num : Num T) (uninit : nat -> T) (h : heap T)
          (pd R C : nat) (D : list T),
      h !! pd = Some (NDArray [R; C] D) ->
      length D = R * C ->
      fits_int R -> fits_int C -> fits_int (R * C) ->
      exists out : list T,
        returns_array (health_data_normalize uninit pd) h [R; C] out
        /\ length out = R * C
        /\ forall i j, i < R -> j < C ->
             out !! (i * C + j) = Some (standardize D R C i j)).
  { intros T num uninit h pd R C D Hd LD FR FC FRC.
    destruct (health_data_normalize_run uninit h pd R C D Hd LD FR FC FRC)
      as (r & out & E & Hr & HL & Hout).
    exists out. split; [exists r; split; assumption|]. split; assumption. }
  assert (Column : forall (T : Type) (num : Num T) (uninit : nat -> T) (x y z : T),
      returns_array (health_data_normalize uninit 0) (column_example [x; y; z]) [3; 1]
        (map (fun i => standardize [x; y; z] 3 1 i 0) (seq 0 3))).
  { intros T num uninit x y z.
    destruct (General T num uninit (column_example [x; y; z]) 0 3 1 [x; y; z])
      as (out & Hret & HL & Hout); try heap_lookup; try reflexivity; try small.
    rewrite (list_of_lookups out 3 (fun i => standardize [x; y; z] 3 1 i 0)) in Hret;
      [exact Hret | exact HL |].
    intros i Hi. rewrite <- (Hout i 0 Hi ltac:(lia)). f_equal. lia. }
  split; [exact General|]. split; [|split].
  - intros uninit. eexists _, _, _. split; [apply (Column R _ uninit)|].
    unfold standardize, col_variance, col_mean, sum_to, get. simpl.
    set (sd := sqrt _).
    assert (Hsd : (816495 / 1000000 < sd < 8165 / 10000)%R).
    { unfold sd.
      match goal with |- (_ < sqrt ?v < _)%R =>
        replace v with (2 / 3 + 1 / 100000000)%R by lra end.
      split.
      - rewrite <- (sqrt_square (816495 / 1000000)) by lra.
        apply sqrt_lt_1; lra.
      - rewrite <- (sqrt_square (8165 / 10000)) by lra.
        apply sqrt_lt_1; lra. }
    destruct Hsd as [Hlo Hhi].
    assert (Hinv : (122473 / 100000 < / sd < 1224748 / 1000000)%R).
    { split.
      - apply (Rmult_lt_reg_r sd); [lra|]. rewrite Rinv_l by lra. lra.
      - apply (Rmult_lt_reg_r sd); [lra|]. rewrite Rinv_l by lra. lra. }
    clearbody sd. unfold Rdiv.
    split; [apply Rabs_def1; lra|]. split; [lra|]. apply Rabs_def1; lra.
  - intros lm uninit. exact (Column float32 _ uninit fone two32 three32).
  - vm_compute. reflexivity.
Qed.

Lemma standardize_formula_witness :
  exists out : list R,
    returns_array (health_data_normalize (fun _ => 0%R) 0)
                  (column_example [1; 2; 3]%R) [3; 1] out
    /\ length out = 3 * 1
    /\ forall i j, i < 3 -> j < 1 ->
         let mean_j := fdiv (sum_to 3 (fun k => get [1; 2; 3]%R (k * 1 + j))) (of_int 3) in
         let variance_j :=
           fdiv (sum_to 3 (fun k => fmul (fsub (get [1; 2; 3]%R (k * 1 + j)) mean_j)
                                         (fsub (get [1; 2; 3]%R (k * 1 + j)) mean_j)))
                (of_int 3) in
         out !! (i * 1 + j)
         = Some (fdiv (fsub (get [1; 2; 3]%R (i * 1 + j)) mean_j)
                      (sqrtf (fadd variance_j feps))).
Proof.
  apply (proj1 standardize_formula R R_Num (fun _ => 0%R) (column_example [1; 2; 3]%R)
               0 3 1 [1; 2; 3]%R); [heap_lookup | reflexivity | small | small | small].
Defined.

(** C5, as stated, fails on a matrix with more rows than a C [int] holds.
    The source keeps both dimensions in an [int] (lines 181-182).  For an
    empty matrix of shape (2^32, 0) the number of samples becomes 0 and the
    result has shape (0, 0), not the shape of the input.  For shape
    (2^31, 0) it becomes negative: the allocation fails and the call goes
    on with the null pointer. *)
Lemma threshold_transform_truncates_shape :
  (forall (T : Type) (num : Num T) (uninit : nat -> T) (t : T),
      returns_array (biometric_processing uninit 0 t) (matrix_example dim_2_32 0 [])
                    [0; 0] [])
  /\ (forall (T : Type) (num : Num T) (uninit : nat -> T) (t : T),
        biometric_processing uninit 0 t (matrix_example dim_2_31 0 []) = None)
  /\ Z.of_nat dim_2_32 = 4294967296%Z
  /\ Z.of_nat dim_2_31 = 2147483648%Z
  /\ dim_2_32 * 0 = 0 /\ dim_2_31 * 0 = 0.
Proof.
  split; [|split; [|split; [|split; [|split]]]].
  - intros T num uninit t. exists (fresh (dom (matrix_example (T := T) dim_2_32 0 []))).
    split; [apply fresh_unused|].
    apply (biometric_processing_no_samples
             uninit (matrix_example dim_2_32 0 []) 0 dim_2_32 0 [] t []);
      [heap_lookup | apply (proj1 (proj2 to_int_examples)) | reflexivity].
  - intros T num uninit t.
    apply (biometric_processing_out_of_bounds
             uninit (matrix_example dim_2_31 0 []) 0 dim_2_31 0 [] t []); [heap_lookup|].
    left. rewrite (proj1 to_int_examples). lia.
  - apply big_dimensions.
  - apply big_dimensions.
  - apply Nat.mul_0_r.
  - apply Nat.mul_0_r.
Qed.

(** C5, amended.  For a matrix whose dimensions and number of elements fit
    in a C [int] (below 2^31), [biometric_processing] returns a matrix of
    the shape of its input in which an element [v] becomes [tanh (v - t)]
    when [v > t] and [v * 0.1] otherwise.  The comparison is strict: an
    element equal to the threshold takes the scaled branch, also under the
    C comparison [v == t] of binary32, which identifies the two zeros. *)
Theorem threshold_transform_strict :
  (forall (T : Type) (num : Num T) (uninit : nat -> T) (h : heap T)
          (pb R C : nat) (t : T) (B : list T),
      h !! pb = Some (NDArray [R; C] B) ->
      length B = R * C ->
      fits_int R -> fits_int C -> fits_int (R * C) ->
      exists out : list T,
        returns_array (biometric_processing uninit pb t) h [R; C] out
        /\ length out = R * C
        /\ forall i j, i < R -> j < C ->
             let v := get B (i * C + j) in
             out !! (i * C + j)
             = Some (if fgt v t then tanhf (fsub v t) else fmul v ftenth))
  /\ (forall (T : Type) (num : Num T) (laws : NumLaws T) (uninit : nat -> T)
             (h : heap T) (pb R C : nat) (t : T) (B : list T),
        h !! pb = Some (NDArray [R; C] B) ->
        length B = R * C ->
        fits_int R -> fits_int C -> fits_int (R * C) ->
        exists out : list T,
          returns_array (biometric_processing uninit pb t) h [R; C] out
          /\ forall i j, i < R -> j < C ->
               get B (i * C + j) = t -> out !! (i * C + j) = Some (fmul t ftenth))
  /\ (forall (lm : Libm) (uninit : nat -> float32) (h : heap float32)
             (pb R C : nat) (t : float32) (B : list float32),
        h !! pb = Some (NDArray [R; C] B) ->
        length B = R * C ->
        fits_int R -> fits_int C -> fits_int (R * C) ->
        exists out : list float32,
          returns_array (biometric_processing uninit pb t) h [R; C] out
          /\ forall i j, i < R -> j < C ->
               let v := get B (i * C + j) in
               SFeqb v t = true -> out !! (i * C + j) = Some (fmul v ftenth)).
Proof.
  assert (General : forall (T : Type) (num : Num T) (uninit : nat -> T) (h : heap T)
          (pb R C : nat) (t : T) (B : list T),
      h !! pb = Some (NDArray [R; C] B) ->
      length B = R * C ->
      fits_int R -> fits_int C -> fits_int (R * C) ->
      exists out : list T,
        returns_array (biometric_processing uninit pb t) h [R; C] out
        /\ length out = R * C
        /\ forall i j, i < R -> j < C ->
             out !! (i * C + j) = Some (threshold_transform t (get B (i * C + j)))).
  { intros T num uninit h pb R C t B Hb LB FR FC FRC.
    destruct (biometric_processing_run uninit h pb R C t B Hb LB FR FC FRC)
      as (r & out & E & Hr & HL & Hout).
    exists out. split; [exists r; split; assumption|]. split; assumption. }
  split; [exact General|]. split.
  - intros T num laws uninit h pb R C t B Hb LB FR FC FRC.
    destruct (General T num uninit h pb R C t B Hb LB FR FC FRC) as (out & Hret & _ & Hout).
    exists out. split; [exact Hret|]. intros i j Hi Hj Hv.
    rewrite (Hout i j Hi Hj), Hv. unfold threshold_transform.
    rewrite fgt_irrefl. reflexivity.
  - intros lm uninit h pb R C t B Hb LB FR FC FRC.
    destruct (General float32 _ uninit h pb R C t B Hb LB FR FC FRC) as (out & Hret & _ & Hout).
    exists out. split; [exact Hret|]. intros i j Hi Hj v Hv.
    rewrite (Hout i j Hi Hj). unfold threshold_transform. fold v.
    change (fgt v t) with (SFltb t v). rewrite (SFltb_of_eqb v t Hv). reflexivity.
Qed.

Lemma threshold_transform_strict_witness :
  (exists out : list R,
      returns_array (biometric_processing (fun _ => 0%R) 0 1%R)
                    (<[0 := NDArray [1; 3] [0; 1; 2]%R]> ∅) [1; 3] out
      /\ length out = 1 * 3
      /\ forall i j, i < 1 -> j < 3 ->
           let v := get [0; 1; 2]%R (i * 3 + j) in
           out !! (i * 3 + j)
           = Some (if fgt v 1%R then tanhf (fsub v 1%R) else fmul v ftenth))
  /\ (exists out : list R,
        returns_array (biometric_processing (fun _ => 0%R) 0 1%R)
                      (<[0 := NDArray [1; 3] [0; 1; 2]%R]> ∅) [1; 3] out
        /\ forall i j, i < 1 -> j < 3 ->
             get [0; 1; 2]%R (i * 3 + j) = 1%R ->
             out !! (i * 3 + j) = Some (fmul 1%R ftenth))
  /\ (exists out : list float32,
        returns_array (biometric_processing (H := @F32_Num first_order_libm)
                                            (fun _ => S754_nan) 0 (S754_zero true))
                      (<[0 := NDArray [1; 2] [S754_zero false; two32]]> ∅) [1; 2] out
        /\ forall i j, i < 1 -> j < 2 ->
             let v := get (H := @F32_Num first_order_libm)
                          [S754_zero false; two32] (i * 2 + j) in
             SFeqb v (S754_zero true) = true ->
             out !! (i * 2 + j)
             = Some (SFmul prec32 emax32 v (S754_finite false 13421773 (-27)))).
Proof.
  split; [|split].
  - apply (proj1 threshold_transform_strict R R_Num (fun _ => 0%R)
                 (<[0 := NDArray [1; 3] [0; 1; 2]%R]> ∅) 0 1 3 1%R [0; 1; 2]%R);
      [apply lookup_insert_eq | reflexivity | small | small | small].
  - apply (proj1 (proj2 threshold_transform_strict) R R_Num R_NumLaws (fun _ => 0%R)
                 (<[0 := NDArray [1; 3] [0; 1; 2]%R]> ∅) 0 1 3 1%R [0; 1; 2]%R);
      [apply lookup_insert_eq | reflexivity | small | small | small].
  - apply (proj2 (proj2 threshold_transform_strict) first_order_libm (fun _ => S754_nan)
                 (<[0 := NDArray [1; 2] [S754_zero false; two32]]> ∅) 0 1 2
                 (S754_zero true) [S754_zero false; two32]);
      [apply lookup_insert_eq | reflexivity | small | small | small].
Defined.

(** C9, as stated, fails on arrays that a C [int] cannot index.  The
    source keeps dimensions and flat indices in an [int].  For a database
    of 2^32 + 1 patterns of length 0, [pattern_matching] returns a vector of
    length 1, not of the declared length 2^32 + 1.  For a matrix of 2 rows
    of 2^30 + 1 zeros, whose dimensions both fit, the index
    [i * n_markers + j] of [biometric_processing] overflows at i = 1,
    j = 2^30 - 1: the behaviour is undefined, and nothing keeps the loads
    and stores inside the buffers. *)
Lemma kernels_overflow_int :
  (forall (T : Type) (num : Num T) (uninit : nat -> T),
      returns_array (pattern_matching uninit 0 1)
                    (vector_matrix_example 0 dim_2_32_1 [] []) [1]
                    [fdiv fzero (of_int 0)])
  /\ (forall (T : Type) (num : Num T) (uninit : nat -> T) (t : T),
        biometric_processing uninit 0 t
          (matrix_example 2 dim_2_30_1 (repeat fzero (2 * dim_2_30_1))) = None)
  /\ Z.of_nat dim_2_32_1 = 4294967297%Z
  /\ Z.of_nat dim_2_30_1 = 1073741825%Z
  /\ fits_int 2 /\ fits_int dim_2_30_1 /\ ~ fits_int (2 * dim_2_30_1)
  /\ (forall (T : Type) (x : T), length (repeat x (2 * dim_2_30_1)) = 2 * dim_2_30_1).
Proof.
  pose proof big_dimensions as (_ & _ & E32 & E30).
  split; [|split; [|split; [|split; [|split; [|split; [|split]]]]]].
  - intros T num uninit.
    exists (fresh (dom (vector_matrix_example (T := T) 0 dim_2_32_1 [] []))).
    split; [apply fresh_unused|].
    pose proof (pattern_matching_no_length
                  uninit (vector_matrix_example 0 dim_2_32_1 [] [])
                  0 1 dim_2_32_1 0 [0] [] [] []) as E.
    rewrite (proj2 (proj2 to_int_examples)) in E.
    apply E; [heap_lookup | heap_lookup | reflexivity | lia].
  - intros T num uninit t.
    apply (biometric_processing_out_of_bounds
             uninit (matrix_example 2 dim_2_30_1 (repeat fzero (2 * dim_2_30_1)))
             0 2 dim_2_30_1 [] t (repeat fzero (2 * dim_2_30_1))); [heap_lookup|].
    right. right. right.
    rewrite (proj1 to_int_dim_2_30_1), (proj2 to_int_dim_2_30_1).
    unfold trips, INT_MAX. lia.
  - exact E32.
  - exact E30.
  - unfold fits_int, INT_MAX. lia.
  - unfold fits_int, INT_MAX. lia.
  - unfold fits_int, INT_MAX. lia.
  - intros T x. apply repeat_length.
Qed.

(** C9, amended.  Each of the five kernels, called on inputs of consistent
    shapes whose dimensions and numbers of elements fit in a C [int] (below
    2^31), returns and leaves every array that existed before the call
    unchanged; all it writes is one freshly allocated array of the declared
    output shape.  On arguments of any shape, a call that returns has added
    one array to the heap and changed no other. *)
Theorem kernels_only_allocate (T : Type) (num : Num T) (uninit : nat -> T) (h : heap T) :
  (forall ps pw pP N Mr (s w P : list T),
      h !! ps = Some (NDArray [N] s) ->
      h !! pw = Some (NDArray [N] w) ->
      h !! pP = Some (NDArray [Mr; N] P) ->
      length s = N -> length w = N -> length P = Mr * N ->
      fits_int N -> fits_int Mr -> fits_int (Mr * N) ->
      only_allocates (tcm_syndrome_analysis uninit ps pw pP) h [Mr])
  /\ (forall pd R C (D : list T),
        h !! pd = Some (NDArray [R; C] D) -> length D = R * C ->
        fits_int R -> fits_int C -> fits_int (R * C) ->
        only_allocates (health_data_normalize uninit pd) h [R; C])
  /\ (forall pp pF K R (p F : list T),
        h !! pp = Some (NDArray [K] p) ->
        h !! pF = Some (NDArray [R; K] F) ->
        length p = K -> length F = R * K ->
        fits_int K -> fits_int R -> fits_int (R * K) ->
        only_allocates (nutrition_optimization uninit pp pF) h [R])
  /\ (forall pb R C (t : T) (B : list T),
        h !! pb = Some (NDArray [R; C] B) -> length B = R * C ->
        fits_int R -> fits_int C -> fits_int (R * C) ->
        only_allocates (biometric_processing uninit pb t) h [R; C])
  /\ (forall pq pD L R (q D : list T),
        h !! pq = Some (NDArray [L] q) ->
        h !! pD = Some (NDArray [R; L] D) ->
        length q = L -> length D = R * L ->
        fits_int L -> fits_int R -> fits_int (R * L) ->
        only_allocates (pattern_matching uninit pq pD) h [R])
  /\ (forall (r : nat) (h' : heap T),
        (forall ps pw pP,
            tcm_syndrome_analysis uninit ps pw pP h = Some (r, h') -> fresh_array h r h')
        /\ (forall pd,
              health_data_normalize uninit pd h = Some (r, h') -> fresh_array h r h')
        /\ (forall pp pF,
              nutrition_optimization uninit pp pF h = Some (r, h') -> fresh_array h r h')
        /\ (forall pb t,
              biometric_processing uninit pb t h = Some (r, h') -> fresh_array h r h')
        /\ (forall pq pD,
              pattern_matching uninit pq pD h = Some (r, h') -> fresh_array h r h')).
Proof.
  split; [|split; [|split; [|split; [|split]]]].
  - intros ps pw pP N Mr s w P Hs Hw HP Ls Lw LP FN FM FMN.
    destruct (tcm_syndrome_analysis_run uninit h ps pw pP N Mr s w P Hs Hw HP Ls Lw LP FN
                FM FMN)
      as (r & out & E & Hr & HL & _).
    apply (returns_array_only_allocates _ _ _ out); [exists r; split; assumption|].
    simpl. lia.
  - intros pd R C D Hd LD FR FC FRC.
    destruct (health_data_normalize_run uninit h pd R C D Hd LD FR FC FRC)
      as (r & out & E & Hr & HL & _).
    apply (returns_array_only_allocates _ _ _ out); [exists r; split; assumption|].
    simpl. lia.
  - intros pp pF K R p F Hp HF Lp LF FK FR FRK.
    destruct (nutrition_optimization_run uninit h pp pF K R p F Hp HF Lp LF FK FR FRK)
      as (r & out & E & Hr & HL & _).
    apply (returns_array_only_allocates _ _ _ out); [exists r; split; assumption|].
    simpl. lia.
  - intros pb R C t B Hb LB FR FC FRC.
    destruct (biometric_processing_run uninit h pb R C t B Hb LB FR FC FRC)
      as (r & out & E & Hr & HL & _).
    apply (returns_array_only_allocates _ _ _ out); [exists r; split; assumption|].
    simpl. lia.
  - intros pq pD L R q D Hq HD Lq LD FL FR FRL.
    destruct (pattern_matching_run uninit h pq pD L R q D Hq HD Lq LD FL FR FRL)
      as (r & out & E & Hr & HL & _).
    apply (returns_array_only_allocates _ _ _ out); [exists r; split; assumption|].
    simpl. lia.
  - intros r h'. split; [|split; [|split; [|split]]].
    + intros ps pw pP. apply tcm_syndrome_analysis_frame.
    + intros pd. apply health_data_normalize_frame.
    + intros pp pF. apply nutrition_optimization_frame.
    + intros pb t. apply biometric_processing_frame.
    + intros pq pD. apply pattern_matching_frame.
Qed.

Lemma kernels_only_allocate_witness :
  only_allocates (tcm_syndrome_analysis (fun _ => 0%R) 0 1 2) (syndrome_example 1%R) [1]
  /\ only_allocates (health_data_normalize (fun _ => 0%R) 2) (syndrome_example 1%R) [1; 2]
  /\ only_allocates (nutrition_optimization (fun _ => 0%R) 0 2) (syndrome_example 1%R) [1]
  /\ only_allocates (biometric_processing (fun _ => 0%R) 2 1%R) (syndrome_example 1%R) [1; 2]
  /\ only_allocates (pattern_matching (fun _ => 0%R) 1 2) (syndrome_example 1%R) [1].
Proof.
  pose proof (kernels_only_allocate R R_Num (fun _ => 0%R) (syndrome_example 1%R))
    as (K1 & K2 & K3 & K4 & K5 & _).
  split; [|split; [|split; [|split]]].
  - apply (K1 0 1 2 2 1 [1; 1]%R [1; 1]%R [1; 1]%R); try heap_lookup; try reflexivity; small.
  - apply (K2 2 1 2 [1; 1]%R); [heap_lookup | reflexivity | small | small | small].
  - apply (K3 0 2 2 1 [1; 1]%R [1; 1]%R); try heap_lookup; try reflexivity; small.
  - apply (K4 2 1 2 1%R [1; 1]%R); [heap_lookup | reflexivity | small | small | small].
  - apply (K5 1 2 2 1 [1; 1]%R [1; 1]%R); try heap_lookup; try reflexivity; small.
Defined.

(** C6, as stated, fails on a database with more rows than a C [int]
    holds.  The source keeps the number of foods in an [int] (line 124).
    With an empty profile and 2^31 foods without features every norm is 0,
    yet the number of foods becomes negative, the allocation fails and the
    call goes on with the null pointer: no 0.0 is returned for any row.
    With 2^32 + 1 such foods the result holds one 0.0, for 2^32 + 1 rows. *)
Lemma cosine_match_truncates_rows :
  (forall (T : Type) (num : Num T) (uninit : nat -> T),
      nutrition_optimization uninit 0 1 (vector_matrix_example 0 dim_2_31 [] []) = None)
  /\ (forall (T : Type) (num : Num T) (laws : NumLaws T) (uninit : nat -> T),
        returns_array (nutrition_optimization uninit 0 1)
                      (vector_matrix_example 0 dim_2_32_1 [] []) [1] [fzero])
  /\ (forall (T : Type) (num : Num T) (laws : NumLaws T) (row : nat -> T),
        norm2 0 (get []) = fzero /\ norm2 0 row = fzero)
  /\ Z.of_nat dim_2_31 = 2147483648%Z
  /\ Z.of_nat dim_2_32_1 = 4294967297%Z
  /\ dim_2_31 * 0 = 0 /\ dim_2_32_1 * 0 = 0.
Proof.
  split; [|split; [|split; [|split; [|split; [|split]]]]].
  - intros T num uninit.
    apply (nutrition_optimization_out_of_bounds
             uninit (vector_matrix_example 0 dim_2_31 [] []) 0 1 dim_2_31 0 [0] [] [] []);
      [heap_lookup | heap_lookup |].
    left. rewrite (proj1 to_int_examples). lia.
  - intros T num laws uninit.
    exists (fresh (dom (vector_matrix_example (T := T) 0 dim_2_32_1 [] []))).
    split; [apply fresh_unused|].
    assert (Zero : cosine_match (T := T) [] [] 0 0 = fzero).
    { apply zero_norm_branch. left. apply norm2_zero. intros j Hj. lia. }
    pose proof (nutrition_optimization_no_features
                  uninit (vector_matrix_example 0 dim_2_32_1 [] [])
                  0 1 dim_2_32_1 0 [0] [] [] []) as E.
    rewrite (proj2 (proj2 to_int_examples)) in E.
    change (trips 1) with 1 in E.
    change (map (cosine_match [] [] 0) (seq 0 1)) with [cosine_match (T := T) [] [] 0 0]
      in E.
    rewrite Zero in E.
    apply E; [heap_lookup | heap_lookup | reflexivity | lia].
  - intros T num laws row. split; apply norm2_zero; intros j Hj; lia.
  - apply big_dimensions.
  - apply big_dimensions.
  - apply Nat.mul_0_r.
  - apply Nat.mul_0_r.
Qed.

(** C6, amended.  For a database whose dimensions and number of elements
    fit in a C [int] (below 2^31): whenever the norm of the profile or of a
    database row is exactly 0, [nutrition_optimization] stores exactly 0.0
    for that row: the call returns, and the cell holds [fzero], not a NaN.
    In particular an all-zero profile gives 0.0 for every row whatever the
    row holds; in binary32 this covers zeros of either sign and rows with
    infinities or NaNs. *)
Theorem cosine_match_zero_norm_is_zero :
  (forall (T : Type) (num : Num T) (laws : NumLaws T) (uninit : nat -> T)
          (h : heap T) (pp pF K R : nat) (p F : list T),
      h !! pp = Some (NDArray [K] p) ->
      h !! pF = Some (NDArray [R; K] F) ->
      length p = K -> length F = R * K ->
      fits_int K -> fits_int R -> fits_int (R * K) ->
      exists out : list T,
        returns_array (nutrition_optimization uninit pp pF) h [R] out
        /\ length out = R
        /\ (forall i, i < R ->
              norm2 K (get p) = fzero \/ norm2 K (fun j => get F (i * K + j)) = fzero ->
              out !! i = Some fzero)
        /\ ((forall j, j < K -> get p j = fzero) ->
            forall i, i < R -> out !! i = Some fzero))
  /\ (forall (lm : Libm) (uninit : nat -> float32) (h : heap float32)
             (pp pF K R : nat) (p F : list float32),
        h !! pp = Some (NDArray [K] p) ->
        h !! pF = Some (NDArray [R; K] F) ->
        length p = K -> length F = R * K ->
        fits_int K -> fits_int R -> fits_int (R * K) ->
        (forall j, j < K -> exists sign, get p j = S754_zero sign) ->
        exists out : list float32,
          returns_array (nutrition_optimization uninit pp pF) h [R] out
          /\ forall i, i < R -> out !! i = Some (S754_zero false)).
Proof.
  assert (General : forall (T : Type) (num : Num T) (uninit : nat -> T) (h : heap T)
          (pp pF K R : nat) (p F : list T),
      h !! pp = Some (NDArray [K] p) ->
      h !! pF = Some (NDArray [R; K] F) ->
      length p = K -> length F = R * K ->
      fits_int K -> fits_int R -> fits_int (R * K) ->
      exists out : list T,
        returns_array (nutrition_optimization uninit pp pF) h [R] out
        /\ length out = R
        /\ forall i, i < R -> out !! i = Some (cosine_match p F K i)).
  { intros T num uninit h pp pF K R p F Hp HF Lp LF FK FR FRK.
    destruct (nutrition_optimization_run uninit h pp pF K R p F Hp HF Lp LF FK FR FRK)
      as (r & out & E & Hr & HL & Hout).
    exists out. split; [exists r; split; assumption|]. split; assumption. }
  split.
  - intros T num laws uninit h pp pF K R p F Hp HF Lp LF FK FR FRK.
    destruct (General T num uninit h pp pF K R p F Hp HF Lp LF FK FR FRK)
      as (out & Hret & HL & Hout).
    exists out. split; [exact Hret|]. split; [exact HL|]. split.
    + intros i Hi Hz. rewrite (Hout i Hi). f_equal.
      apply zero_norm_branch, Hz.
    + intros Hp0 i Hi. rewrite (Hout i Hi). f_equal.
      apply zero_norm_branch. left. apply norm2_zero.
      intros j Hj. rewrite (Hp0 j Hj). apply fmul_zero_zero.
  - intros lm uninit h pp pF K R p F Hp HF Lp LF FK FR FRK Hp0.
    destruct (General float32 _ uninit h pp pF K R p F Hp HF Lp LF FK FR FRK)
      as (out & Hret & HL & Hout).
    exists out. split; [exact Hret|].
    intros i Hi. rewrite (Hout i Hi).
    rewrite (zero_norm_branch (T := float32) p F K i); [reflexivity|].
    left. apply norm2_zero.
    intros j Hj. destruct (Hp0 j Hj) as [sign ->]. destruct sign; reflexivity.
Qed.

Lemma cosine_match_zero_norm_is_zero_witness :
  (exists out : list R,
      returns_array (nutrition_optimization (fun _ => 1%R) 0 1)
                    (vector_matrix_example 2 1 [0; 0]%R [3; 4]%R) [1] out
      /\ length out = 1
      /\ (forall i, i < 1 ->
            norm2 2 (get [0; 0]%R) = fzero
            \/ norm2 2 (fun j => get [3; 4]%R (i * 2 + j)) = fzero ->
            out !! i = Some fzero)
      /\ ((forall j, j < 2 -> get [0; 0]%R j = fzero) ->
          forall i, i < 1 -> out !! i = Some fzero))
  /\ (exists out : list float32,
        returns_array (nutrition_optimization (H := @F32_Num first_order_libm)
                                              (fun _ => S754_nan) 0 1)
                      (vector_matrix_example 2 1 [S754_zero true; S754_zero false]
                                             [S754_nan; S754_infinity false]) [1] out
        /\ forall i, i < 1 -> out !! i = Some (S754_zero false)).
Proof.
  split.
  - apply (proj1 cosine_match_zero_norm_is_zero R R_Num R_NumLaws (fun _ => 1%R)
                 (vector_matrix_example 2 1 [0; 0]%R [3; 4]%R) 0 1 2 1 [0; 0]%R [3; 4]%R);
      try heap_lookup; try reflexivity; small.
  - apply (proj2 cosine_match_zero_norm_is_zero first_order_libm (fun _ => S754_nan)
                 (vector_matrix_example 2 1 [S754_zero true; S754_zero false]
                                        [S754_nan; S754_infinity false])
                 0 1 2 1 [S754_zero true; S754_zero false] [S754_nan; S754_infinity false]);
      try heap_lookup; try reflexivity; try small.
    intros j Hj. destruct j as [|[|j]]; [exists true | exists false | lia]; reflexivity.
Defined.

(** C10.  In binary32, when the database has row length 0 every entry of
    the vector [pattern_matching] returns is NaN: the sum over no terms is
    0.0 and it is divided by [(float)0].  With a number of rows [R] that an
    [int] holds the result has [R] entries, all NaN, so for a database with
    at least one row the output is outside (0, 1].  For any [R], the source
    keeps the number of rows in an [int]: when that [int] is not negative
    the result has as many entries, all NaN, and when it is negative the
    call is undefined. *)
Theorem gaussian_match_zero_length_nan
        (lm : Libm) (uninit : nat -> float32) (h : heap float32)
        (pq pD R : nat) (q D : list float32) :
  h !! pq = Some (NDArray [0] q) ->
  h !! pD = Some (NDArray [R; 0] D) ->
  length q = 0 -> length D = R * 0 ->
  (fits_int R ->
   exists out : list float32,
     returns_array (pattern_matching uninit pq pD) h [R] out
     /\ length out = R
     /\ forall i, i < R -> out !! i = Some S754_nan)
  /\ ((0 <= to_int R)%Z ->
      exists out : list float32,
        returns_array (pattern_matching uninit pq pD) h [trips (to_int R)] out
        /\ length out = trips (to_int R)
        /\ forall i, i < trips (to_int R) -> out !! i = Some S754_nan)
  /\ ((to_int R < 0)%Z -> pattern_matching uninit pq pD h = None).
Proof.
  intros Hq HD Lq LD.
  assert (Truncated : (0 <= to_int R)%Z ->
            exists out : list float32,
              returns_array (pattern_matching uninit pq pD) h [trips (to_int R)] out
              /\ length out = trips (to_int R)
              /\ forall i, i < trips (to_int R) -> out !! i = Some S754_nan).
  { intros HR. eexists. split; [|split].
    - exists (fresh (dom h)). split; [apply fresh_unused|].
      apply (pattern_matching_no_length uninit h pq pD R 0 [0] [] q D Hq HD);
        [reflexivity | exact HR].
    - rewrite length_map, length_seq. reflexivity.
    - intros i Hi.
      rewrite (lookup_map_seq (fun _ => fdiv fzero (of_int 0)) _ i Hi). reflexivity. }
  split; [|split; [exact Truncated|]].
  - intros FR.
    destruct (Truncated (to_int_nonneg_fits R FR)) as (out & Hret & HL & Hout).
    rewrite (trips_fits R FR) in Hret, HL, Hout.
    exists out. split; [exact Hret|]. split; assumption.
  - intros Hneg.
    apply (pattern_matching_out_of_bounds uninit h pq pD R 0 [0] [] q D Hq HD).
    left. exact Hneg.
Qed.

Lemma gaussian_match_zero_length_nan_witness :
  exists out : list float32,
    returns_array (pattern_matching (H := @F32_Num first_order_libm)
                                   (fun _ => S754_zero false) 0 1)
                  (vector_matrix_example 0 2 [] []) [2] out
    /\ length out = 2
    /\ forall i, i < 2 -> out !! i = Some S754_nan.
Proof.
  refine (proj1 (gaussian_match_zero_length_nan first_order_libm (fun _ => S754_zero false)
                   (vector_matrix_example 0 2 [] []) 0 1 2 [] [] _ _ _ _) _);
    try heap_lookup; try reflexivity; small.
Defined.

(** C4, as stated, fails in binary32: the sigmoid is rounded, and both
    bounds are reached.  With symptoms = [2^100], weights = [2^100] and
    pattern = [[1]] the weighted symptom overflows to +infinity, [expf]
    returns +0 and the score is exactly 1.0; with the symptom negated the
    score is exactly 0.0.  This holds for every C library. *)
Lemma syndrome_score_saturates :
  (forall (lm : Libm) (uninit : nat -> float32),
      returns_array (tcm_syndrome_analysis uninit 0 1 2)
                    (syndrome_heap 1 1 [big32] [big32] [fone]) [1] [fone])
  /\ (forall (lm : Libm) (uninit : nat -> float32),
        returns_array (tcm_syndrome_analysis uninit 0 1 2)
                      (syndrome_heap 1 1 [SFopp big32] [big32] [fone]) [1] [fzero])
  /\ valid_binary prec32 emax32 big32 = true.
Proof.
  split; [|split; [|reflexivity]]; intros lm uninit;
    apply (sigmoid_saturates_binary32 lm uninit).
Qed.

(** C4, amended.  In exact real arithmetic, and for inputs of consistent
    shapes whose dimensions and number of pattern values fit in a C [int]
    (below 2^31), every element of the vector [tcm_syndrome_analysis]
    returns lies strictly between 0 and 1.  In binary32 the sigmoid is
    rounded and both bounds are reached: there are inputs on which the
    element is exactly 1.0, and inputs on which it is exactly 0.0. *)
Theorem syndrome_score_range :
  (forall (uninit : nat -> R) (h : heap R) (ps pw pP N Mr : nat) (s w P : list R),
      h !! ps = Some (NDArray [N] s) ->
      h !! pw = Some (NDArray [N] w) ->
      h !! pP = Some (NDArray [Mr; N] P) ->
      length s = N -> length w = N -> length P = Mr * N ->
      fits_int N -> fits_int Mr -> fits_int (Mr * N) ->
      exists out : list R,
        returns_array (tcm_syndrome_analysis uninit ps pw pP) h [Mr] out
        /\ length out = Mr
        /\ forall i, i < Mr -> exists v : R, out !! i = Some v /\ (0 < v < 1)%R)
  /\ (forall (lm : Libm) (uninit : nat -> float32),
        returns_array (tcm_syndrome_analysis uninit 0 1 2)
                      (syndrome_heap 1 1 [big32] [big32] [fone]) [1] [fone]
        /\ returns_array (tcm_syndrome_analysis uninit 0 1 2)
                         (syndrome_heap 1 1 [SFopp big32] [big32] [fone]) [1] [fzero]).
Proof.
  split; [|exact sigmoid_saturates_binary32].
  intros uninit h ps pw pP N Mr s w P Hs Hw HP Ls Lw LP FN FM FMN.
  destruct (tcm_syndrome_analysis_run uninit h ps pw pP N Mr s w P Hs Hw HP Ls Lw LP FN FM FMN)
    as (r & out & E & Hr & HL & Hout).
  exists out. split; [exists r; split; assumption|]. split; [exact HL|].
  intros i Hi. eexists. split; [apply Hout, Hi|].
  apply sigmoid_range.
Qed.

Lemma syndrome_score_range_witness :
  exists out : list R,
    returns_array (tcm_syndrome_analysis (fun _ => 0%R) 0 1 2) (syndrome_example 1%R) [1] out
    /\ length out = 1
    /\ forall i, i < 1 -> exists v : R, out !! i = Some v /\ (0 < v < 1)%R.
Proof.
  apply (proj1 syndrome_score_range (fun _ => 0%R) (syndrome_example 1%R)
               0 1 2 2 1 [1; 1]%R [1; 1]%R [1; 1]%R);
    try heap_lookup; try reflexivity; small.
Defined.

(** C3, as stated, fails in binary32 on both counts.  With query = [2^100]
    and the row [-2^100] the square of the difference overflows, [expf]
    returns +0 and the similarity is 0.0, outside (0, 1].  With query =
    [2^-100] and the row [0] the square underflows to -0, [expf] returns 1
    and the similarity is exactly 1.0 although the row differs from the
    query.  This holds for every C library. *)
Lemma gaussian_match_leaves_range :
  (forall (lm : Libm) (uninit : nat -> float32),
      returns_array (pattern_matching uninit 0 1)
                    (vector_matrix_example 1 1 [big32] [SFopp big32]) [1] [fzero])
  /\ (forall (lm : Libm) (uninit : nat -> float32),
        returns_array (pattern_matching uninit 0 1)
                      (vector_matrix_example 1 1 [tiny32] [fzero]) [1] [fone])
  /\ SFeqb tiny32 (S754_zero false) = false
  /\ valid_binary prec32 emax32 big32 = true
  /\ valid_binary prec32 emax32 tiny32 = true.
Proof.
  split; [|split; [|repeat split]]; intros lm uninit;
    apply (gaussian_rounds_binary32 lm uninit).
Qed.

(** C3, amended.  For a database whose dimensions and number of elements
    fit in a C [int] (below 2^31), [pattern_matching] returns for each row
    [i] the value [(sum_j exp (-(q[j] - D[i][j])^2)) / L], in whichever
    arithmetic it is run.  In exact real arithmetic and for a row length
    [L >= 1] that value is [(1/L) * sum_j exp (-(q[j] - D[i][j])^2)], it
    lies in (0, 1], and it is 1 exactly when the row equals the query.  In
    binary32 the value is rounded: there is an input on which it is exactly
    0.0, and one on which it is exactly 1.0 for a row that differs from the
    query. *)
Theorem gaussian_match_formula_range :
  (forall (T : Type) (num : Num T) (uninit : nat -> T) (h : heap T)
          (pq pD L R : nat) (q D : list T),
      h !! pq = Some (NDArray [L] q) ->
      h !! pD = Some (NDArray [R; L] D) ->
      length q = L -> length D = R * L ->
      fits_int L -> fits_int R -> fits_int (R * L) ->
      exists out : list T,
        returns_array (pattern_matching uninit pq pD) h [R] out
        /\ length out = R
        /\ forall i, i < R ->
             out !! i
             = Some (fdiv (sum_to L (fun j =>
                             let d := fsub (get q j) (get D (i * L + j)) in
                             expf (fmul (fneg d) d)))
                          (of_int L)))
  /\ (forall (uninit : nat -> R) (h : heap R) (pq pD L rows : nat) (q D : list R),
        h !! pq = Some (NDArray [L] q) ->
        h !! pD = Some (NDArray [rows; L] D) ->
        length q = L -> length D = rows * L ->
        fits_int L -> fits_int rows -> fits_int (rows * L) ->
        0 < L ->
        exists out : list R,
          returns_array (pattern_matching uninit pq pD) h [rows] out
          /\ length out = rows
          /\ forall i, i < rows ->
               exists v : R,
                 out !! i = Some v
                 /\ v = (1 / INR L
                         * sum_to L (fun j => exp (- (get q j - get D (i * L + j)) ^ 2)))%R
                 /\ (0 < v <= 1)%R
                 /\ (v = 1%R <-> forall j, j < L -> get D (i * L + j) = get q j))
  /\ (forall (lm : Libm) (uninit : nat -> float32),
        returns_array (pattern_matching uninit 0 1)
                      (vector_matrix_example 1 1 [big32] [SFopp big32]) [1] [fzero]
        /\ returns_array (pattern_matching uninit 0 1)
                         (vector_matrix_example 1 1 [tiny32] [fzero]) [1] [fone]).
Proof.
  assert (General : forall (T : Type) (num : Num T) (uninit : nat -> T) (h : heap T)
          (pq pD L R : nat) (q D : list T),
      h !! pq = Some (NDArray [L] q) ->
      h !! pD = Some (NDArray [R; L] D) ->
      length q = L -> length D = R * L ->
      fits_int L -> fits_int R -> fits_int (R * L) ->
      exists out : list T,
        returns_array (pattern_matching uninit pq pD) h [R] out
        /\ length out = R
        /\ forall i, i < R -> out !! i = Some (gaussian_match q D L i)).
  { intros T num uninit h pq pD L R q D Hq HD Lq LD FL FR FRL.
    destruct (pattern_matching_run uninit h pq pD L R q D Hq HD Lq LD FL FR FRL)
      as (r & out & E & Hr & HL & Hout).
    exists out. split; [exists r; split; assumption|]. split; assumption. }
  split; [exact General|]. split; [|exact gaussian_rounds_binary32].
  intros uninit h pq pD L rows q D Hq HD Lq LD FL FR FRL HLpos.
  destruct (General R _ uninit h pq pD L rows q D Hq HD Lq LD FL FR FRL)
    as (out & Hret & HL & Hout).
  exists out. split; [exact Hret|]. split; [exact HL|].
  intros i Hi. exists (gaussian_match q D L i). split; [apply Hout, Hi|].
  set (f := fun j : nat => exp (- (get q j - get D (i * L + j)) * (get q j - get D (i * L + j)))).
  change (gaussian_match q D L i) with (sum_to L f / INR L)%R.
  assert (Hsq : sum_to L (fun j => exp (- (get q j - get D (i * L + j)) ^ 2)%R) = sum_to L f)
    by (apply sum_to_ext; intros j _; unfold f; f_equal; ring).
  rewrite Hsq.
  assert (HINR : (0 < INR L)%R) by (apply lt_0_INR; lia).
  assert (Hf : forall j, j < L -> (0 < f j <= 1)%R) by (intros; apply gauss_term_range).
  assert (Hpos : (0 < sum_to L f)%R) by (apply Rsum_pos; [lia | intros; apply Hf; assumption]).
  assert (Hle : (sum_to L f <= INR L)%R) by (apply Rsum_le_count; intros; apply Hf; assumption).
  split; [|split; [split|split]].
  - unfold Rdiv. lra.
  - apply Rdiv_lt_0_compat; assumption.
  - apply (Rmult_le_reg_r (INR L)); [exact HINR|].
    unfold Rdiv. rewrite Rmult_assoc, Rinv_l by lra. lra.
  - intros Hv j Hj.
    assert (Hsum : sum_to L f = INR L).
    { apply (Rmult_eq_reg_r (/ INR L)); [|apply Rinv_neq_0_compat; lra].
      rewrite Rinv_r by lra. exact Hv. }
    pose proof (Rsum_eq_count L f (fun k Hk => proj2 (Hf k Hk)) Hsum j Hj) as Hone.
    apply gauss_term_one in Hone. lra.
  - intros Heq. rewrite (Rsum_all_one L f).
    + unfold Rdiv. apply Rinv_r. lra.
    + intros j Hj. apply gauss_term_one. rewrite (Heq j Hj). lra.
Qed.

Lemma gaussian_match_formula_range_witness :
  (exists out : list R,
      returns_array (pattern_matching (fun _ => 0%R) 0 1)
                    (vector_matrix_example 2 1 [1; 2]%R [1; 3]%R) [1] out
      /\ length out = 1
      /\ forall i, i < 1 ->
           out !! i
           = Some (fdiv (sum_to 2 (fun j =>
                           let d := fsub (get [1; 2]%R j) (get [1; 3]%R (i * 2 + j)) in
                           expf (fmul (fneg d) d)))
                        (of_int 2)))
  /\ (exists out : list R,
        returns_array (pattern_matching (fun _ => 0%R) 0 1)
                      (vector_matrix_example 2 1 [1; 2]%R [1; 3]%R) [1] out
        /\ length out = 1
        /\ forall i, i < 1 ->
             exists v : R,
               out !! i = Some v
               /\ v = (1 / INR 2
                       * sum_to 2 (fun j =>
                           exp (- (get [1; 2] j - get [1; 3] (i * 2 + j)) ^ 2)))%R
               /\ (0 < v <= 1)%R
               /\ (v = 1%R
                   <-> forall j, j < 2 -> get [1; 3]%R (i * 2 + j) = get [1; 2]%R j)).
Proof.
  split.
  - apply (proj1 gaussian_match_formula_range R R_Num (fun _ => 0%R)
                 (vector_matrix_example 2 1 [1; 2]%R [1; 3]%R) 0 1 2 1 [1; 2]%R [1; 3]%R);
      try heap_lookup; try reflexivity; small.
  - apply (proj1 (proj2 gaussian_match_formula_range) (fun _ => 0%R)
                 (vector_matrix_example 2 1 [1; 2]%R [1; 3]%R) 0 1 2 1 [1; 2]%R [1; 3]%R);
      try heap_lookup; try reflexivity; small.
Defined.




(** C8, as stated, fails in binary32 on both counts.  The column
    [0, 2^-17] has two distinct values, yet its standard scores are
    [-a, a] with [a] about 0.0381: their mean is 0 and their variance [a^2]
    is below 0.0015, far from 1, because the variance 2^-36 of the input is
    small against 1e-8.  The constant column of five entries 2^24 - 1 is
    mapped to 1.0 in every element, not to 0: the float sum rounds, the
    float mean is 2^24 - 2, and every difference is 1. *)
Lemma standardize_moments_fail :
  (forall (lm : Libm) (uninit : nat -> float32),
      returns_array (health_data_normalize uninit 0)
                    (column_example [fzero; small32]) [2; 1]
                    [S754_finite true 10232557 (-28); S754_finite false 10232557 (-28)])
  /\ (F2Q (S754_finite true 10232557 (-28)) + F2Q (S754_finite false 10232557 (-28)) == 0)%Q
  /\ (F2Q (S754_finite false 10232557 (-28)) * F2Q (S754_finite false 10232557 (-28))
      < 15 # 10000)%Q
  /\ (forall (lm : Libm) (uninit : nat -> float32),
        returns_array (health_data_normalize uninit 0)
                      (column_example [odd32; odd32; odd32; odd32; odd32]) [5; 1]
                      [fone; fone; fone; fone; fone])
  /\ valid_binary prec32 emax32 small32 = true
  /\ valid_binary prec32 emax32 odd32 = true.
Proof.
  assert (Column : forall (lm : Libm) (uninit : nat -> float32) (xs : list float32),
      fits_int (length xs) ->
      returns_array (health_data_normalize uninit 0) (column_example xs) [length xs; 1]
        (map (fun i => standardize xs (length xs) 1 i 0) (seq 0 (length xs)))).
  { intros lm uninit xs Fx.
    destruct (health_data_normalize_run uninit (column_example xs) 0 (length xs) 1 xs)
      as (r & out & E & Hr & HL & Hout); try heap_lookup; try lia;
      try (unfold fits_int, INT_MAX in *; lia).
    rewrite (list_of_lookups out (length xs)
               (fun i => standardize xs (length xs) 1 i 0)) in E.
    - exists r. split; assumption.
    - lia.
    - intros i Hi. rewrite <- (Hout i 0 Hi ltac:(lia)). f_equal. lia. }
  split; [|split; [|split; [|split; [|split]]]]; try (vm_compute; reflexivity).
  - intros lm uninit. exact (Column lm uninit [fzero; small32] ltac:(small)).
  - intros lm uninit. exact (Column lm uninit [odd32; odd32; odd32; odd32; odd32] ltac:(small)).
Qed.

(** C8, amended.  In exact real arithmetic and for a matrix with at least
    one row, whose dimensions and number of elements fit in a C [int] (below
    2^31), every column of the result of [health_data_normalize] has mean
    0 and population variance [V / (V + 1e-8)], where [V >= 0] is the
    population variance of the input column: below 1, and above 0.9999 once
    [V >= 0.0001].  The divisor [sqrt (V + 1e-8)] is positive, and a
    constant input column gives 0 in every element. *)
Theorem standardize_moments_real
        (uninit : nat -> R) (h : heap R) (pd rows C : nat) (D : list R) (j : nat) :
  h !! pd = Some (NDArray [rows; C] D) ->
  length D = rows * C ->
  fits_int rows -> fits_int C -> fits_int (rows * C) ->
  0 < rows -> j < C ->
  exists out : list R,
    returns_array (health_data_normalize uninit pd) h [rows; C] out
    /\ col_mean out rows C j = 0%R
    /\ (0 <= col_variance D rows C j)%R
    /\ (0 < sqrt (col_variance D rows C j + 1 / 100000000))%R
    /\ col_variance out rows C j
       = (col_variance D rows C j / (col_variance D rows C j + 1 / 100000000))%R
    /\ (col_variance out rows C j < 1)%R
    /\ ((1 / 10000 <= col_variance D rows C j)%R ->
        (1 - 1 / 10000 < col_variance out rows C j)%R)
    /\ (forall c : R,
          (forall i, i < rows -> get D (i * C + j) = c) ->
          forall i, i < rows -> out !! (i * C + j) = Some 0%R).
Proof.
  intros Hd LD FR FC FRC Hrows Hj.
  destruct (health_data_normalize_run uninit h pd rows C D Hd LD FR FC FRC)
    as (r & out & E & Hr & HL & Hout).
  exists out. split; [exists r; split; assumption|].
  assert (Hget : forall i, i < rows -> get out (i * C + j) = standardize D rows C i j)
    by (intros i Hi; apply get_lookup, Hout; assumption).
  pose proof (standard_scores (fun i => get D (i * C + j)) rows (1 / 100000000)
                Hrows ltac:(lra)) as Hss.
  assert (HV : (0 <= col_variance D rows C j)%R) by exact (proj1 Hss).
  assert (Hmean : (sum_to rows (fun i => standardize D rows C i j) / INR rows)%R = 0%R)
    by exact (proj1 (proj2 Hss)).
  assert (Hvar : (sum_to rows (fun i => (standardize D rows C i j - 0)
                                        * (standardize D rows C i j - 0)) / INR rows)%R
                 = (col_variance D rows C j / (col_variance D rows C j + 1 / 100000000))%R)
    by exact (proj2 (proj2 Hss)).
  clear Hss.
  assert (Hm : col_mean out rows C j = 0%R).
  { unfold col_mean.
    rewrite (sum_to_ext rows _ (fun i => standardize D rows C i j) Hget).
    exact Hmean. }
  assert (Hv : col_variance out rows C j
               = (col_variance D rows C j / (col_variance D rows C j + 1 / 100000000))%R).
  { unfold col_variance at 1.
    rewrite (sum_to_ext rows _ (fun i => (standardize D rows C i j - 0)
                                         * (standardize D rows C i j - 0))%R).
    - exact Hvar.
    - intros i Hi. cbv zeta. rewrite Hm, (Hget i Hi). reflexivity. }
  assert (HVD : (0 <= col_variance D rows C j)%R) by exact HV.
  split; [exact Hm|]. split; [exact HVD|].
  split; [apply sqrt_lt_R0; lra|]. split; [exact Hv|].
  set (V := col_variance D rows C j) in *.
  split; [|split].
  - rewrite Hv. apply (Rmult_lt_reg_r (V + 1 / 100000000)); [lra|].
    unfold Rdiv at 1. rewrite Rmult_assoc, Rinv_l by lra. lra.
  - intros HVbig. rewrite Hv. apply (Rmult_lt_reg_r (V + 1 / 100000000)); [lra|].
    unfold Rdiv at 3. rewrite Rmult_assoc, Rinv_l by lra. lra.
  - intros c Hc i Hi. rewrite (Hout i j Hi Hj). f_equal.
    unfold standardize, col_mean.
    rewrite (sum_to_ext rows (fun k => get D (k * C + j)) (fun _ => c)) by exact Hc.
    rewrite Rsum_const, (Hc i Hi). simpl.
    assert (HINR : (0 < INR rows)%R) by (apply lt_0_INR; lia).
    replace (c - INR rows * c / INR rows)%R with 0%R by (field; lra).
    unfold Rdiv. apply Rmult_0_l.
Qed.

Lemma standardize_moments_real_witness :
  exists out : list R,
    returns_array (health_data_normalize (fun _ => 0%R) 0)
                  (column_example [1; 2; 3]%R) [3; 1] out
    /\ col_mean out 3 1 0 = 0%R
    /\ (0 <= col_variance [1; 2; 3] 3 1 0)%R
    /\ (0 < sqrt (col_variance [1; 2; 3] 3 1 0 + 1 / 100000000))%R
    /\ col_variance out 3 1 0
       = (col_variance [1; 2; 3] 3 1 0 / (col_variance [1; 2; 3] 3 1 0 + 1 / 100000000))%R
    /\ (col_variance out 3 1 0 < 1)%R
    /\ ((1 / 10000 <= col_variance [1; 2; 3] 3 1 0)%R ->
        (1 - 1 / 10000 < col_variance out 3 1 0)%R)
    /\ (forall c : R,
          (forall i, i < 3 -> get [1; 2; 3]%R (i * 1 + 0) = c) ->
          forall i, i < 3 -> out !! (i * 1 + 0) = Some 0%R).
Proof.
  apply (standardize_moments_real (fun _ => 0%R) (column_example [1; 2; 3]%R)
           0 3 1 [1; 2; 3]%R 0); try heap_lookup; try reflexivity; small.
Defined.


(** * Further properties *)

(** ** The exported functions *)

Section ExportedFacts.
Context {T : Type} `{Num T}.

(** A kernel sets no exception. *)
Lemma run_kernel_cases (m : M T nat) (h : heap T) :
  (exists r h', m h = Some (r, h') /\ run_kernel m h = Returns r h')
  \/ (m h = None /\ run_kernel m h = Undefined).
Proof.
  unfold run_kernel. destruct (m h) as [[r h']|].
  - left. exists r, h'. split; reflexivity.
  - right. split; reflexivity.
Qed.

Lemma run_kernel_no_exception (m : M T nat) (h : heap T) (e : PyErr) (h' : heap T) :
  run_kernel m h <> Raises e h'.
Proof.
  destruct (run_kernel_cases m h) as [(r & h1 & _ & ->) | [_ ->]]; discriminate.
Qed.

Lemma run_kernel_safe (m : M T nat) (h : heap T) :
  (forall r h', m h = Some (r, h') -> fresh_array h r h') ->
  adds_at_most_one_array h (run_kernel m h).
Proof.
  intros Hm. destruct (run_kernel_cases m h) as [(r & h1 & E & ->) | [_ ->]]; simpl.
  - apply Hm, E.
  - exact I.
Qed.

Lemma run_kernel_None (m : M T nat) (h : heap T) :
  m h = None -> run_kernel m h = Undefined.
Proof. unfold run_kernel. intros ->. reflexivity. Qed.

Lemma run_kernel_Some (m : M T nat) (h : heap T) (r : nat) (h' : heap T) :
  m h = Some (r, h') -> run_kernel m h = Returns r h'.
Proof. unfold run_kernel. intros ->. reflexivity. Qed.

End ExportedFacts.

Ltac array_lookup :=
  unfold two_arrays, three_arrays, matrix_example;
  repeat (rewrite lookup_insert_ne by lia); rewrite lookup_insert_eq; reflexivity.

(** The two ways of raising of a function that converts nothing: the tuple
    has the wrong length, or an argument is not an array. *)
Ltac raises_cases :=
  repeat match goal with
         | o : PyObject |- _ => destruct o
         end;
  simpl;
  (split;
    [ intros Hrun;
      first [ exfalso; exact (run_kernel_no_exception _ _ _ _ Hrun)
            | injection Hrun as <- <-; left; split; [discriminate|];
              split; reflexivity
            | injection Hrun as <- <-; right; split; [reflexivity|];
              split; [reflexivity|]; split; reflexivity ]
    | intros [(Hlen & -> & ->) | (Hlen & Hsome & -> & ->)];
      first [ reflexivity | exfalso; apply Hlen; reflexivity
            | discriminate Hlen | discriminate Hsome ] ]).

(** X1.  When an exported function raises.  A call raises in two cases
    only, and leaves the heap as it was: the argument tuple has not the
    length of the format, and the exception is the [TypeError] of
    [PyArg_ParseTuple]; or it has, one of the arguments that have to be
    arrays fails [PyArray_Check], and the exception is a [TypeError] with
    the message of the source.  [biometric_processing] has a third case,
    which comes before the array test: the conversion of the threshold
    raises, and the call passes that exception on; its heap is the one the
    conversion left.  The kernels raise nothing. *)
Theorem exported_functions_raise_on_bad_arguments
        (T : Type) (num : Num T) (uninit : nat -> T) (arity_msg : nat -> nat -> string)
        (float_of : PyObject -> heap T -> (PyErr + T) * heap T)
        (h h' : heap T) (e : PyErr) :
  (forall args,
      py_tcm_syndrome_analysis uninit arity_msg args h = Raises e h'
      <-> (length args <> 3 /\ e = TypeError (arity_msg 3 (length args)) /\ h' = h)
          \/ (length args = 3 /\ forallb PyArray_Check args = false
              /\ e = TypeError not_an_array /\ h' = h))
  /\ (forall args,
        py_health_data_normalize uninit arity_msg args h = Raises e h'
        <-> (length args <> 1 /\ e = TypeError (arity_msg 1 (length args)) /\ h' = h)
            \/ (length args = 1 /\ forallb PyArray_Check args = false
                /\ e = TypeError not_an_array /\ h' = h))
  /\ (forall args,
        py_nutrition_optimization uninit arity_msg args h = Raises e h'
        <-> (length args <> 2 /\ e = TypeError (arity_msg 2 (length args)) /\ h' = h)
            \/ (length args = 2 /\ forallb PyArray_Check args = false
                /\ e = TypeError not_an_array /\ h' = h))
  /\ (forall args,
        py_pattern_matching uninit arity_msg args h = Raises e h'
        <-> (length args <> 2 /\ e = TypeError (arity_msg 2 (length args)) /\ h' = h)
            \/ (length args = 2 /\ forallb PyArray_Check args = false
                /\ e = TypeError not_an_array /\ h' = h))
  /\ (forall args,
        py_biometric_processing uninit arity_msg float_of args h = Raises e h'
        <-> (length args <> 2 /\ e = TypeError (arity_msg 2 (length args)) /\ h' = h)
            \/ (exists b t, args = [b; t] /\ float_of t h = (inl e, h'))
            \/ (exists b t x, args = [b; t] /\ float_of t h = (inr x, h')
                              /\ PyArray_Check b = false
                              /\ e = TypeError not_an_array)).
Proof.
  split; [|split; [|split; [|split]]].
  - intros [|a [|b [|c [|d args]]]]; raises_cases.
  - intros [|a [|b args]]; raises_cases.
  - intros [|a [|b [|c args]]]; raises_cases.
  - intros [|a [|b [|c args]]]; raises_cases.
  - intros [|b [|t [|c args]]]; simpl.
    + split.
      * intros [= <- <-]. left. split; [discriminate|]. split; reflexivity.
      * intros [(_ & -> & ->) | [(b & t & Hargs & _) | (b & t & x & Hargs & _)]];
          [reflexivity | discriminate Hargs | discriminate Hargs].
    + split.
      * intros [= <- <-]. left. split; [discriminate|]. split; reflexivity.
      * intros [(_ & -> & ->) | [(b' & t & Hargs & _) | (b' & t & x & Hargs & _)]];
          [reflexivity | discriminate Hargs | discriminate Hargs].
    + destruct (float_of t h) as [[e1 | x] h1] eqn:Ex.
      * split.
        -- intros [= <- <-]. right. left. exists b, t. split; [reflexivity | exact Ex].
        -- intros [(Hlen & _) | [(b' & t' & [= <- <-] & Hf)
                                | (b' & t' & x & [= <- <-] & Hf & _)]].
           ++ exfalso. apply Hlen. reflexivity.
           ++ rewrite Ex in Hf. injection Hf as <- <-. reflexivity.
           ++ rewrite Ex in Hf. discriminate Hf.
      * destruct b as [p|p]; simpl; split.
        -- intros Hrun. exfalso. exact (run_kernel_no_exception _ _ _ _ Hrun).
        -- intros [(Hlen & _) | [(b' & t' & [= <- <-] & Hf)
                                | (b' & t' & x' & [= <- <-] & _ & Hb & _)]].
           ++ exfalso. apply Hlen. reflexivity.
           ++ rewrite Ex in Hf. discriminate Hf.
           ++ discriminate Hb.
        -- intros [= <- <-]. right. right. exists (Other p), t, x.
           split; [reflexivity|]. split; [exact Ex|]. split; reflexivity.
        -- intros [(Hlen & _) | [(b' & t' & [= <- <-] & Hf)
                                | (b' & t' & x' & [= <- <-] & Hf & _ & ->)]].
           ++ exfalso. apply Hlen. reflexivity.
           ++ rewrite Ex in Hf. discriminate Hf.
           ++ rewrite Ex in Hf. injection Hf as _ <-. reflexivity.
    + split.
      * intros [= <- <-]. left. split; [simpl; discriminate|]. split; reflexivity.
      * intros [(_ & -> & ->) | [(b' & t' & Hargs & _) | (b' & t' & x & Hargs & _)]];
          [reflexivity | discriminate Hargs | discriminate Hargs].
Qed.

(** X2.  No defined call changes or frees an array that existed before it.
    Whatever the arguments and the heap, a call of [tcm_syndrome_analysis],
    [health_data_normalize], [nutrition_optimization] or [pattern_matching]
    either raises and leaves the heap as it was, or returns the address of
    a new array and leaves every other array as it was, or is undefined.
    [biometric_processing] converts its threshold first, by the object's
    own [__float__], which may change the heap: what holds of the rest of
    the call holds from the heap the conversion left.  So for every entry
    of the method table there is a heap, the one the call is given or the
    one the conversion of an argument left, from which the call adds at
    most one array. *)
Theorem exported_calls_add_at_most_one_array
        (T : Type) (num : Num T) (uninit : nat -> T) (arity_msg : nat -> nat -> string)
        (float_of : PyObject -> heap T -> (PyErr + T) * heap T) :
  (forall args (h : heap T),
      adds_at_most_one_array h (py_tcm_syndrome_analysis uninit arity_msg args h)
      /\ adds_at_most_one_array h (py_health_data_normalize uninit arity_msg args h)
      /\ adds_at_most_one_array h (py_nutrition_optimization uninit arity_msg args h)
      /\ adds_at_most_one_array h (py_pattern_matching uninit arity_msg args h))
  /\ (forall b t (h : heap T),
        adds_at_most_one_array (snd (float_of t h))
          (py_biometric_processing uninit arity_msg float_of [b; t] h))
  /\ (forall args (h : heap T),
        length args <> 2 ->
        adds_at_most_one_array h
          (py_biometric_processing uninit arity_msg float_of args h))
  /\ Forall (fun entry => forall args (h : heap T),
                 exists h1, after_parsing float_of args h h1
                            /\ adds_at_most_one_array h1 (snd entry args h))
            (TCMAnalysisMethods uninit arity_msg float_of).
Proof.
  assert (K1 : forall args (h : heap T),
             adds_at_most_one_array h (py_tcm_syndrome_analysis uninit arity_msg args h)).
  { intros [|a [|b [|c [|d args]]]] h; simpl; try reflexivity.
    destruct (_ || _); simpl; [reflexivity|].
    apply run_kernel_safe. intros r h'. apply tcm_syndrome_analysis_frame. }
  assert (K2 : forall args (h : heap T),
             adds_at_most_one_array h (py_health_data_normalize uninit arity_msg args h)).
  { intros [|a [|b args]] h; simpl; try reflexivity.
    destruct (negb _); simpl; [reflexivity|].
    apply run_kernel_safe. intros r h'. apply health_data_normalize_frame. }
  assert (K3 : forall args (h : heap T),
             adds_at_most_one_array h (py_nutrition_optimization uninit arity_msg args h)).
  { intros [|a [|b [|c args]]] h; simpl; try reflexivity.
    destruct (_ || _); simpl; [reflexivity|].
    apply run_kernel_safe. intros r h'. apply nutrition_optimization_frame. }
  assert (K5 : forall args (h : heap T),
             adds_at_most_one_array h (py_pattern_matching uninit arity_msg args h)).
  { intros [|a [|b [|c args]]] h; simpl; try reflexivity.
    destruct (_ || _); simpl; [reflexivity|].
    apply run_kernel_safe. intros r h'. apply pattern_matching_frame. }
  assert (K4 : forall b t (h : heap T),
             adds_at_most_one_array (snd (float_of t h))
               (py_biometric_processing uninit arity_msg float_of [b; t] h)).
  { intros b t h. simpl. destruct (float_of t h) as [[e | x] h1]; simpl; [reflexivity|].
    destruct (negb _); simpl; [reflexivity|].
    apply run_kernel_safe. intros r h'. apply biometric_processing_frame. }
  assert (K4' : forall args (h : heap T),
             length args <> 2 ->
             adds_at_most_one_array h
               (py_biometric_processing uninit arity_msg float_of args h)).
  { intros [|a [|b [|c args]]] h Hlen; simpl; try reflexivity.
    exfalso. apply Hlen. reflexivity. }
  split; [|split; [exact K4 | split; [exact K4'|]]].
  { intros args h. repeat split; [apply K1 | apply K2 | apply K3 | apply K5]. }
  unfold TCMAnalysisMethods.
  repeat apply List.Forall_cons; [| | | | |apply List.Forall_nil]; simpl;
    intros args h.
  - exists h. split; [left; reflexivity | apply K1].
  - exists h. split; [left; reflexivity | apply K2].
  - exists h. split; [left; reflexivity | apply K3].
  - destruct (decide (length args = 2)) as [Hlen | Hlen].
    + destruct args as [|b [|t [|c args]]]; try discriminate Hlen.
      exists (snd (float_of t h)). split; [|apply K4].
      right. exists t. split; [right; left; reflexivity | reflexivity].
    + exists h. split; [left; reflexivity | apply K4', Hlen].
  - exists h. split; [left; reflexivity | apply K5].
Qed.

(** X3.  The argument check tests the type only, not the number of
    dimensions.  An array with fewer than two dimensions given where the
    source reads [PyArray_DIM(.., 1)] passes the check, and the call is
    undefined: it asks for a dimension the array does not have, which the
    NumPy C API does not define.  This holds for the matrix
    argument of [health_data_normalize], [nutrition_optimization],
    [biometric_processing] and [pattern_matching], whatever the other
    argument is; for [biometric_processing], whose threshold has to
    convert first, of the array as the conversion left it. *)
Theorem rank_is_not_checked
        (T : Type) (num : Num T) (uninit : nat -> T) (arity_msg : nat -> nat -> string)
        (float_of : PyObject -> heap T -> (PyErr + T) * heap T)
        (h : heap T) (p : nat) (a : ndarray T) :
  h !! p = Some a -> length (dims a) < 2 ->
  py_health_data_normalize uninit arity_msg [Ndarray p] h = Undefined
  /\ (forall q, py_nutrition_optimization uninit arity_msg [Ndarray q; Ndarray p] h
                = Undefined)
  /\ (forall t x h1 a1,
        float_of t h = (inr x, h1) -> h1 !! p = Some a1 -> length (dims a1) < 2 ->
        py_biometric_processing uninit arity_msg float_of [Ndarray p; t] h = Undefined)
  /\ (forall q, py_pattern_matching uninit arity_msg [Ndarray q; Ndarray p] h = Undefined).
Proof.
  intros Hp Hd.
  assert (Hdim : forall (h1 : heap T) (a1 : ndarray T) (k : Z -> Z -> M T nat),
             h1 !! p = Some a1 -> length (dims a1) < 2 ->
             bind (int_DIM p 0) (fun n => bind (int_DIM p 1) (k n)) h1 = None).
  { intros h1 a1 k Hp1 Hd1. unfold bind at 1.
    destruct (int_DIM p 0 h1) as [[n h2]|] eqn:E; [|reflexivity].
    apply int_DIM_inv in E as ->.
    apply bind_None. unfold int_DIM. apply bind_None.
    apply (PyArray_DIM_missing p 1 a1 h1 Hp1). lia. }
  split; [|split; [|split]].
  - simpl. apply run_kernel_None, (Hdim h a _ Hp Hd).
  - intros q. simpl. apply run_kernel_None, (Hdim h a _ Hp Hd).
  - intros t x h1 a1 Hx Hp1 Hd1. simpl. rewrite Hx. simpl.
    apply run_kernel_None, (Hdim h1 a1 _ Hp1 Hd1).
  - intros q. simpl. apply run_kernel_None, (Hdim h a _ Hp Hd).
Qed.

Lemma rank_is_not_checked_witness :
  py_health_data_normalize (fun _ => 0%R) (fun _ _ => EmptyString) [Ndarray 0]
                           (vector_matrix_example 2 1 [3; 4]%R [3; 4]%R) = Undefined
  /\ (forall q, py_nutrition_optimization (fun _ => 0%R) (fun _ _ => EmptyString)
                  [Ndarray q; Ndarray 0]
                  (vector_matrix_example 2 1 [3; 4]%R [3; 4]%R) = Undefined)
  /\ (forall t x h1 a1,
        (float_of_const 1%R) t (vector_matrix_example 2 1 [3; 4]%R [3; 4]%R)
        = (inr x, h1) ->
        h1 !! 0 = Some a1 -> length (dims a1) < 2 ->
        py_biometric_processing (fun _ => 0%R) (fun _ _ => EmptyString)
                  (float_of_const 1%R) [Ndarray 0; t]
                  (vector_matrix_example 2 1 [3; 4]%R [3; 4]%R) = Undefined)
  /\ (forall q, py_pattern_matching (fun _ => 0%R) (fun _ _ => EmptyString)
                  [Ndarray q; Ndarray 0]
                  (vector_matrix_example 2 1 [3; 4]%R [3; 4]%R) = Undefined).
Proof.
  apply (rank_is_not_checked R R_Num (fun _ => 0%R) (fun _ _ => EmptyString)
           (float_of_const 1%R)
           (vector_matrix_example 2 1 [3; 4]%R [3; 4]%R) 0 (NDArray [2] [3; 4]%R));
    [heap_lookup | simpl; lia].
Defined.

(** ** Where a kernel is defined *)

Ltac in_bounds :=
  cbv zeta; rewrite ?to_int_fits by small; unfold trips; rewrite ?Nat2Z.id;
  unfold INT_MAX; simpl; lia.

(** X4.  [tcm_syndrome_analysis] takes the number of symptoms from the
    symptoms' shape and the number of patterns from the patterns' shape,
    both truncated to an [int], and never looks at the weights' shape or at
    the patterns' row width: row [i] of the patterns is read at stride
    [n_symptoms].  The call is defined exactly when the number of patterns
    is not negative and, unless it is 0, the symptom and weight buffers
    hold [n_symptoms] values, the pattern buffer [n_patterns * n_symptoms],
    and an [int] can index that many values; it then returns the scores of
    the formula, and values beyond those indices are ignored.  Otherwise it
    fails to allocate, reads out of bounds or overflows.  With no pattern
    nothing is read.  Dimensions below 2^31 are kept as they are. *)
Theorem tcm_syndrome_analysis_defined_iff_in_bounds
        (T : Type) (num : Num T) (uninit : nat -> T) (h : heap T)
        (ps pw pP dN dM : nat) (ds dw dP : list nat) (s w P : list T) :
  h !! ps = Some (NDArray (dN :: ds) s) ->
  h !! pw = Some (NDArray dw w) ->
  h !! pP = Some (NDArray (dM :: dP) P) ->
  let n_symptoms := trips (to_int dN) in
  let n_patterns := trips (to_int dM) in
  let in_bounds :=
    (0 <= to_int dM)%Z
    /\ (n_patterns = 0
        \/ (n_symptoms <= length s /\ n_symptoms <= length w
            /\ n_patterns * n_symptoms <= length P
            /\ (Z.of_nat (n_patterns * n_symptoms) <= INT_MAX + 1)%Z)) in
  (in_bounds ->
   returns_array (tcm_syndrome_analysis uninit ps pw pP) h [n_patterns]
                 (map (syndrome_score s w P n_symptoms) (seq 0 n_patterns)))
  /\ (~ in_bounds -> tcm_syndrome_analysis uninit ps pw pP h = None)
  /\ (fits_int dN -> n_symptoms = dN)
  /\ (fits_int dM -> (0 <= to_int dM)%Z /\ n_patterns = dM).
Proof.
  intros Hs Hw HP n_symptoms n_patterns in_bounds.
  destruct (tcm_syndrome_analysis_cases uninit h ps pw pP dN dM ds dw dP s w P Hs Hw HP)
    as [[Hb E] | [Hb E]]; fold n_symptoms n_patterns in_bounds in Hb, E.
  - split; [|split; [|split]].
    + intros _. exists (fresh (dom h)). split; [apply fresh_unused | exact E].
    + intros Hno. contradiction.
    + apply trips_fits.
    + intros F. split; [apply to_int_nonneg_fits, F | apply trips_fits, F].
  - split; [|split; [|split]].
    + intros Hyes. contradiction.
    + intros _. exact E.
    + apply trips_fits.
    + intros F. split; [apply to_int_nonneg_fits, F | apply trips_fits, F].
Qed.

Lemma tcm_syndrome_analysis_defined_iff_in_bounds_witness :
  returns_array (tcm_syndrome_analysis (fun _ => 0%R) 0 1 2)
                (three_arrays (NDArray [2] [1; 1]%R) (NDArray [3] [1; 1; 5]%R)
                              (NDArray [1; 3] [1; 1; 7]%R)) [1]
                (map (syndrome_score [1; 1]%R [1; 1; 5]%R [1; 1; 7]%R 2) (seq 0 1))
  /\ tcm_syndrome_analysis (fun _ => 0%R) 0 1 2
                           (three_arrays (NDArray [2] [1; 1]%R) (NDArray [1] [1]%R)
                                         (NDArray [1; 2] [1; 1]%R)) = None.
Proof.
  split.
  - apply (proj1 (tcm_syndrome_analysis_defined_iff_in_bounds R R_Num (fun _ => 0%R)
                    (three_arrays (NDArray [2] [1; 1]%R) (NDArray [3] [1; 1; 5]%R)
                                  (NDArray [1; 3] [1; 1; 7]%R))
                    0 1 2 2 1 [] [3] [3] [1; 1]%R [1; 1; 5]%R [1; 1; 7]%R
                    ltac:(array_lookup) ltac:(array_lookup) ltac:(array_lookup))).
    in_bounds.
  - apply (proj1 (proj2 (tcm_syndrome_analysis_defined_iff_in_bounds R R_Num (fun _ => 0%R)
                    (three_arrays (NDArray [2] [1; 1]%R) (NDArray [1] [1]%R)
                                  (NDArray [1; 2] [1; 1]%R))
                    0 1 2 2 1 [] [1] [2] [1; 1]%R [1]%R [1; 1]%R
                    ltac:(array_lookup) ltac:(array_lookup) ltac:(array_lookup)))).
    in_bounds.
Defined.

(** X5.  [nutrition_optimization] takes both loop bounds from the food
    database's shape, truncated to an [int], and never looks at the
    profile's shape.  It reads the first [n_features] values of the profile
    before the loop over the foods, so also when there is no food.  The
    call is defined exactly when the number of foods is not negative, the
    profile buffer holds [n_features] values, the database buffer
    [n_foods * n_features], and an [int] can index that many values; it
    then returns the similarities of the formula.  Dimensions below 2^31
    are kept as they are. *)
Theorem nutrition_optimization_defined_iff_in_bounds
        (T : Type) (num : Num T) (uninit : nat -> T) (h : heap T)
        (pp pF dR dK : nat) (dp dF : list nat) (p F : list T) :
  h !! pp = Some (NDArray dp p) ->
  h !! pF = Some (NDArray (dR :: dK :: dF) F) ->
  let n_foods := trips (to_int dR) in
  let n_features := trips (to_int dK) in
  let in_bounds :=
    (0 <= to_int dR)%Z /\ n_features <= length p
    /\ n_foods * n_features <= length F
    /\ (Z.of_nat (n_foods * n_features) <= INT_MAX + 1)%Z in
  (in_bounds ->
   returns_array (nutrition_optimization uninit pp pF) h [n_foods]
                 (map (cosine_match p F n_features) (seq 0 n_foods)))
  /\ (~ in_bounds -> nutrition_optimization uninit pp pF h = None)
  /\ (fits_int dR -> (0 <= to_int dR)%Z /\ n_foods = dR)
  /\ (fits_int dK -> n_features = dK).
Proof.
  intros Hp HF n_foods n_features in_bounds.
  destruct (nutrition_optimization_cases uninit h pp pF dR dK dp dF p F Hp HF)
    as [[Hb E] | [Hb E]]; fold n_foods n_features in_bounds in Hb, E.
  - split; [|split; [|split]].
    + intros _. exists (fresh (dom h)). split; [apply fresh_unused | exact E].
    + intros Hno. contradiction.
    + intros F'. split; [apply to_int_nonneg_fits, F' | apply trips_fits, F'].
    + apply trips_fits.
  - split; [|split; [|split]].
    + intros Hyes. contradiction.
    + intros _. exact E.
    + intros F'. split; [apply to_int_nonneg_fits, F' | apply trips_fits, F'].
    + apply trips_fits.
Qed.

Lemma nutrition_optimization_defined_iff_in_bounds_witness :
  returns_array (nutrition_optimization (fun _ => 0%R) 0 1)
                (two_arrays (NDArray [3] [3; 4; 9]%R) (NDArray [1; 2] [3; 4]%R)) [1]
                (map (cosine_match [3; 4; 9]%R [3; 4]%R 2) (seq 0 1))
  /\ nutrition_optimization (fun _ => 0%R) 0 1
                            (two_arrays (NDArray [1] [3]%R) (NDArray [0; 2] [])) = None.
Proof.
  split.
  - apply (proj1 (nutrition_optimization_defined_iff_in_bounds R R_Num (fun _ => 0%R)
                    (two_arrays (NDArray [3] [3; 4; 9]%R) (NDArray [1; 2] [3; 4]%R))
                    0 1 1 2 [3] [] [3; 4; 9]%R [3; 4]%R
                    ltac:(array_lookup) ltac:(array_lookup))).
    in_bounds.
  - apply (proj1 (proj2 (nutrition_optimization_defined_iff_in_bounds R R_Num (fun _ => 0%R)
                    (two_arrays (NDArray [1] [3]%R) (NDArray [0; 2] []))
                    0 1 0 2 [1] [] [3]%R []
                    ltac:(array_lookup) ltac:(array_lookup)))).
    in_bounds.
Defined.

(** X6.  [pattern_matching] takes both loop bounds from the database's
    shape, truncated to an [int], and never looks at the query's shape.
    The call is defined exactly when the number of patterns is not negative
    and, unless it is 0, the query buffer holds [pattern_length] values,
    the database buffer [n_patterns * pattern_length], and an [int] can
    index that many values; it then returns the similarities of the
    formula, the sum divided by the [int] pattern length.  With no pattern
    nothing is read.  Dimensions below 2^31 are kept as they are, and the
    divisor is then the pattern length. *)
Theorem pattern_matching_defined_iff_in_bounds
        (T : Type) (num : Num T) (uninit : nat -> T) (h : heap T)
        (pq pD dR dL : nat) (dq dD : list nat) (q D : list T) :
  h !! pq = Some (NDArray dq q) ->
  h !! pD = Some (NDArray (dR :: dL :: dD) D) ->
  let n_patterns := trips (to_int dR) in
  let pattern_length := trips (to_int dL) in
  let in_bounds :=
    (0 <= to_int dR)%Z
    /\ (n_patterns = 0
        \/ (pattern_length <= length q
            /\ n_patterns * pattern_length <= length D
            /\ (Z.of_nat (n_patterns * pattern_length) <= INT_MAX + 1)%Z)) in
  (in_bounds ->
   returns_array (pattern_matching uninit pq pD) h [n_patterns]
                 (map (gaussian_match_int q D (to_int dL)) (seq 0 n_patterns)))
  /\ (~ in_bounds -> pattern_matching uninit pq pD h = None)
  /\ (fits_int dR -> (0 <= to_int dR)%Z /\ n_patterns = dR)
  /\ (fits_int dL ->
      pattern_length = dL
      /\ forall i, gaussian_match_int q D (to_int dL) i = gaussian_match q D dL i).
Proof.
  intros Hq HD n_patterns pattern_length in_bounds.
  assert (Fits : (fits_int dR -> (0 <= to_int dR)%Z /\ n_patterns = dR)
                 /\ (fits_int dL ->
                     pattern_length = dL
                     /\ forall i, gaussian_match_int q D (to_int dL) i
                                  = gaussian_match q D dL i)).
  { split.
    - intros F. split; [apply to_int_nonneg_fits, F | apply trips_fits, F].
    - intros F. split; [apply trips_fits, F|]. intros i.
      rewrite (gaussian_match_int_trips q D (to_int dL) i (to_int_nonneg_fits dL F)).
      rewrite (trips_fits dL F). reflexivity. }
  destruct (pattern_matching_cases uninit h pq pD dR dL dq dD q D Hq HD)
    as [[Hb E] | [Hb E]]; fold n_patterns pattern_length in_bounds in Hb, E.
  - split; [|split; [|exact Fits]].
    + intros _. exists (fresh (dom h)). split; [apply fresh_unused | exact E].
    + intros Hno. contradiction.
  - split; [|split; [|exact Fits]].
    + intros Hyes. contradiction.
    + intros _. exact E.
Qed.

Lemma pattern_matching_defined_iff_in_bounds_witness :
  returns_array (pattern_matching (fun _ => 0%R) 0 1)
                (two_arrays (NDArray [1] [3]%R) (NDArray [0; 2] [])) [0]
                (map (gaussian_match_int [3]%R [] 2) (seq 0 0))
  /\ pattern_matching (fun _ => 0%R) 0 1
                      (two_arrays (NDArray [1] [3]%R) (NDArray [1; 2] [3; 4]%R)) = None.
Proof.
  split.
  - apply (proj1 (pattern_matching_defined_iff_in_bounds R R_Num (fun _ => 0%R)
                    (two_arrays (NDArray [1] [3]%R) (NDArray [0; 2] []))
                    0 1 0 2 [1] [] [3]%R []
                    ltac:(array_lookup) ltac:(array_lookup))).
    in_bounds.
  - apply (proj1 (proj2 (pattern_matching_defined_iff_in_bounds R R_Num (fun _ => 0%R)
                    (two_arrays (NDArray [1] [3]%R) (NDArray [1; 2] [3; 4]%R))
                    0 1 1 2 [1] [] [3]%R [3; 4]%R
                    ltac:(array_lookup) ltac:(array_lookup)))).
    in_bounds.
Defined.

(** X7.  [health_data_normalize] and [biometric_processing] read the first
    two entries of the shape of their array, truncated to an [int],
    whatever follows them.  They are defined exactly when neither is
    negative, the buffer holds their product of values, and an [int] can
    index that many values: on an array of more than two dimensions they
    work on the first [dims[0] * dims[1]] values of the buffer as one
    matrix and return a two-dimensional result.  Dimensions below 2^31 are
    kept as they are. *)
Theorem matrix_kernels_defined_iff_in_bounds
        (T : Type) (num : Num T) (uninit : nat -> T) (h : heap T)
        (pd dR dC : nat) (ds : list nat) (D : list T) (t : T) :
  h !! pd = Some (NDArray (dR :: dC :: ds) D) ->
  let rows := trips (to_int dR) in
  let columns := trips (to_int dC) in
  let in_bounds :=
    (0 <= to_int dR)%Z /\ (0 <= to_int dC)%Z
    /\ rows * columns <= length D
    /\ (Z.of_nat (rows * columns) <= INT_MAX + 1)%Z in
  (in_bounds ->
   returns_array (health_data_normalize uninit pd) h [rows; columns]
                 (map (fun idx => standardize D rows columns (idx / columns)
                                              (idx mod columns))
                      (seq 0 (rows * columns)))
   /\ returns_array (biometric_processing uninit pd t) h [rows; columns]
                    (map (fun idx => threshold_transform t (get D idx))
                         (seq 0 (rows * columns))))
  /\ (~ in_bounds ->
      health_data_normalize uninit pd h = None
      /\ biometric_processing uninit pd t h = None)
  /\ (fits_int dR -> (0 <= to_int dR)%Z /\ rows = dR)
  /\ (fits_int dC -> (0 <= to_int dC)%Z /\ columns = dC).
Proof.
  intros Hd rows columns in_bounds.
  assert (Fits : forall d, fits_int d -> (0 <= to_int d)%Z /\ trips (to_int d) = d).
  { intros d F. split; [apply to_int_nonneg_fits, F | apply trips_fits, F]. }
  destruct (health_data_normalize_cases uninit h pd dR dC ds D Hd) as [[Hb E] | [Hb E]];
    destruct (biometric_processing_cases uninit h pd dR dC ds t D Hd)
      as [[Hb' E'] | [Hb' E']];
    fold rows columns in_bounds in Hb, E, Hb', E'; try contradiction.
  - split; [|split; [|split; apply Fits]].
    + intros _. split; exists (fresh (dom h)); (split; [apply fresh_unused|]); assumption.
    + intros Hno. contradiction.
  - split; [|split; [|split; apply Fits]].
    + intros Hyes. contradiction.
    + intros _. split; assumption.
Qed.

Lemma matrix_kernels_defined_iff_in_bounds_witness :
  (returns_array (health_data_normalize (fun _ => 0%R) 0)
                 (<[0 := NDArray [2; 1; 2] [1; 2; 3; 4]%R]> ∅) [2; 1]
                 (map (fun idx => standardize [1; 2; 3; 4]%R 2 1 (idx / 1) (idx mod 1))
                      (seq 0 (2 * 1)))
   /\ returns_array (biometric_processing (fun _ => 0%R) 0 1%R)
                    (<[0 := NDArray [2; 1; 2] [1; 2; 3; 4]%R]> ∅) [2; 1]
                    (map (fun idx => threshold_transform 1%R (get [1; 2; 3; 4]%R idx))
                         (seq 0 (2 * 1))))
  /\ (health_data_normalize (fun _ => 0%R) 0 (<[0 := NDArray [2; 3; 0] []]> ∅) = None
      /\ biometric_processing (fun _ => 0%R) 0 1%R
                              (<[0 := NDArray [2; 3; 0] []]> ∅) = None).
Proof.
  split.
  - apply (proj1 (matrix_kernels_defined_iff_in_bounds R R_Num (fun _ => 0%R)
                    (<[0 := NDArray [2; 1; 2] [1; 2; 3; 4]%R]> ∅)
                    0 2 1 [2] [1; 2; 3; 4]%R 1%R ltac:(apply lookup_insert_eq))).
    in_bounds.
  - apply (proj1 (proj2 (matrix_kernels_defined_iff_in_bounds R R_Num (fun _ => 0%R)
                    (<[0 := NDArray [2; 3; 0] []]> ∅)
                    0 2 3 [0] [] 1%R ltac:(apply lookup_insert_eq)))).
    in_bounds.
Defined.

(** X8.  No uninitialised memory escapes.  [PyArray_SimpleNew] does not
    clear the buffer it allocates, but each of the five kernels writes every
    cell of its result before
    returning: whatever the buffer held, the call behaves the same, returns
    the same address and leaves the same heap. *)
Theorem result_ignores_uninitialised_memory
        (T : Type) (num : Num T) (u1 u2 : nat -> T) (h : heap T) :
  (forall ps pw pP N Mr ds dw dP (s w P : list T),
      h !! ps = Some (NDArray (N :: ds) s) ->
      h !! pw = Some (NDArray dw w) ->
      h !! pP = Some (NDArray (Mr :: dP) P) ->
      tcm_syndrome_analysis u1 ps pw pP h = tcm_syndrome_analysis u2 ps pw pP h)
  /\ (forall pd R C ds (D : list T),
        h !! pd = Some (NDArray (R :: C :: ds) D) ->
        health_data_normalize u1 pd h = health_data_normalize u2 pd h)
  /\ (forall pp pF K R dp dF (p F : list T),
        h !! pp = Some (NDArray dp p) ->
        h !! pF = Some (NDArray (R :: K :: dF) F) ->
        nutrition_optimization u1 pp pF h = nutrition_optimization u2 pp pF h)
  /\ (forall pb R C ds (t : T) (B : list T),
        h !! pb = Some (NDArray (R :: C :: ds) B) ->
        biometric_processing u1 pb t h = biometric_processing u2 pb t h)
  /\ (forall pq pD L R dq dD (q D : list T),
        h !! pq = Some (NDArray dq q) ->
        h !! pD = Some (NDArray (R :: L :: dD) D) ->
        pattern_matching u1 pq pD h = pattern_matching u2 pq pD h).
Proof.
  split; [|split; [|split; [|split]]].
  - intros ps pw pP N Mr ds dw dP s w P Hs Hw HP.
    destruct (tcm_syndrome_analysis_cases u1 h ps pw pP N Mr ds dw dP s w P Hs Hw HP)
      as [[Hb E1] | [Hb E1]];
      destruct (tcm_syndrome_analysis_cases u2 h ps pw pP N Mr ds dw dP s w P Hs Hw HP)
        as [[Hb' E2] | [Hb' E2]]; try contradiction; rewrite E1, E2; reflexivity.
  - intros pd R C ds D Hd.
    destruct (health_data_normalize_cases u1 h pd R C ds D Hd) as [[Hb E1] | [Hb E1]];
      destruct (health_data_normalize_cases u2 h pd R C ds D Hd)
        as [[Hb' E2] | [Hb' E2]]; try contradiction; rewrite E1, E2; reflexivity.
  - intros pp pF K R dp dF p F Hp HF.
    destruct (nutrition_optimization_cases u1 h pp pF R K dp dF p F Hp HF)
      as [[Hb E1] | [Hb E1]];
      destruct (nutrition_optimization_cases u2 h pp pF R K dp dF p F Hp HF)
        as [[Hb' E2] | [Hb' E2]]; try contradiction; rewrite E1, E2; reflexivity.
  - intros pb R C ds t B Hb.
    destruct (biometric_processing_cases u1 h pb R C ds t B Hb) as [[Hin E1] | [Hin E1]];
      destruct (biometric_processing_cases u2 h pb R C ds t B Hb)
        as [[Hin' E2] | [Hin' E2]]; try contradiction; rewrite E1, E2; reflexivity.
  - intros pq pD L R dq dD q D Hq HD.
    destruct (pattern_matching_cases u1 h pq pD R L dq dD q D Hq HD)
      as [[Hb E1] | [Hb E1]];
      destruct (pattern_matching_cases u2 h pq pD R L dq dD q D Hq HD)
        as [[Hb' E2] | [Hb' E2]]; try contradiction; rewrite E1, E2; reflexivity.
Qed.

Lemma result_ignores_uninitialised_memory_witness :
  tcm_syndrome_analysis (fun _ => 0%R) 0 1 2 (syndrome_example 1%R)
  = tcm_syndrome_analysis (fun k => INR k) 0 1 2 (syndrome_example 1%R)
  /\ health_data_normalize (fun _ => 0%R) 2 (syndrome_example 1%R)
     = health_data_normalize (fun k => INR k) 2 (syndrome_example 1%R)
  /\ nutrition_optimization (fun _ => 0%R) 0 2 (syndrome_example 1%R)
     = nutrition_optimization (fun k => INR k) 0 2 (syndrome_example 1%R)
  /\ biometric_processing (fun _ => 0%R) 2 1%R (syndrome_example 1%R)
     = biometric_processing (fun k => INR k) 2 1%R (syndrome_example 1%R)
  /\ pattern_matching (fun _ => 0%R) 1 2 (syndrome_example 1%R)
     = pattern_matching (fun k => INR k) 1 2 (syndrome_example 1%R).
Proof.
  pose proof (result_ignores_uninitialised_memory R R_Num (fun _ => 0%R) (fun k => INR k)
                (syndrome_example 1%R)) as (K1 & K2 & K3 & K4 & K5).
  split; [|split; [|split; [|split]]].
  - apply (K1 0 1 2 2 1 [] [2] [2] [1; 1]%R [1; 1]%R [1; 1]%R); heap_lookup.
  - apply (K2 2 1 2 [] [1; 1]%R); heap_lookup.
  - apply (K3 0 2 2 1 [2] [] [1; 1]%R [1; 1]%R); heap_lookup.
  - apply (K4 2 1 2 [] 1%R [1; 1]%R); heap_lookup.
  - apply (K5 1 2 2 1 [2] [] [1; 1]%R [1; 1]%R); heap_lookup.
Defined.

(** ** NaN inputs in binary32 *)

Section Binary32NaN.
Context (lm : Libm).

Lemma SFadd_nan_r (x : float32) : SFadd prec32 emax32 x S754_nan = S754_nan.
Proof. destruct x as [[]|[]| |]; reflexivity. Qed.

Lemma SFsub_nan_r (x : float32) : SFsub prec32 emax32 x S754_nan = S754_nan.
Proof. destruct x as [[]|[]| |]; reflexivity. Qed.

Lemma SFltb_nan_l (x : float32) : SFltb S754_nan x = false.
Proof. destruct x as [[]|[]| |]; reflexivity. Qed.

Lemma SFltb_nan_r (x : float32) : SFltb x S754_nan = false.
Proof. destruct x as [[]|[]| |[]]; reflexivity. Qed.

(** A sum with a NaN term is NaN. *)
Lemma sum_to_nan (n k : nat) (f : nat -> float32) :
  k < n -> f k = S754_nan -> sum_to n f = S754_nan.
Proof.
  intros Hk Hf. induction n as [|n IH]; [lia|].
  rewrite sum_to_S. destruct (decide (k = n)) as [->|Hne].
  - rewrite Hf. apply SFadd_nan_r.
  - rewrite IH by lia. reflexivity.
Qed.

Lemma standardize_nan (D : list float32) (R C i0 i j : nat) :
  i0 < R -> get D (i0 * C + j) = S754_nan -> standardize D R C i j = S754_nan.
Proof.
  intros Hi0 Hnan. unfold standardize.
  assert (Hmean : col_mean D R C j = S754_nan).
  { unfold col_mean. rewrite (sum_to_nan R i0) by assumption. reflexivity. }
  rewrite Hmean.
  change (fsub (get D (i * C + j)) S754_nan) with (SFsub prec32 emax32 (get D (i * C + j)) S754_nan).
  rewrite SFsub_nan_r. reflexivity.
Qed.

Lemma norm2_nan (K j : nat) (f : nat -> float32) :
  j < K -> f j = S754_nan -> norm2 K f = S754_nan.
Proof.
  intros Hj Hf. unfold norm2.
  rewrite (sum_to_nan K j) by (try exact Hj; rewrite Hf; reflexivity). reflexivity.
Qed.

Lemma cosine_match_nan (p F : list float32) (K i : nat) :
  (exists j, j < K /\ get p j = S754_nan)
  \/ (exists j, j < K /\ get F (i * K + j) = S754_nan) ->
  cosine_match p F K i = S754_zero false.
Proof.
  unfold cosine_match. intros [(j & Hj & Hnan) | (j & Hj & Hnan)].
  - rewrite (norm2_nan K j (get p) Hj Hnan). reflexivity.
  - rewrite (norm2_nan K j (fun j => get F (i * K + j)) Hj Hnan).
    change (fgt S754_nan fzero) with false. rewrite andb_false_r. reflexivity.
Qed.

Lemma threshold_transform_nan (t v : float32) :
  threshold_transform S754_nan v = SFmul prec32 emax32 v ftenth
  /\ threshold_transform t S754_nan = S754_nan.
Proof.
  unfold threshold_transform. split.
  - change (fgt v S754_nan) with (SFltb S754_nan v). rewrite SFltb_nan_l. reflexivity.
  - change (fgt S754_nan t) with (SFltb t S754_nan). rewrite SFltb_nan_r. reflexivity.
Qed.

End Binary32NaN.

(** X9.  In binary32 a NaN in the data makes [health_data_normalize]
    return NaN in every row of the column that holds it: the column's mean
    is NaN, and so is every difference from it.  (For a matrix whose
    dimensions and number of elements fit in a C [int].) *)
Theorem nan_poisons_its_column
        (lm : Libm) (uninit : nat -> float32) (h : heap float32)
        (pd R C i0 j : nat) (ds : list nat) (D : list float32) :
  h !! pd = Some (NDArray (R :: C :: ds) D) ->
  R * C <= length D ->
  fits_int R -> fits_int C -> fits_int (R * C) ->
  i0 < R -> j < C -> get D (i0 * C + j) = S754_nan ->
  exists out : list float32,
    returns_array (health_data_normalize uninit pd) h [R; C] out
    /\ length out = R * C
    /\ forall i, i < R -> out !! (i * C + j) = Some S754_nan.
Proof.
  intros Hd LD FR FC FRC Hi0 Hj Hnan.
  eexists. split; [|split].
  - exists (fresh (dom h)). split; [apply fresh_unused|].
    apply (health_data_normalize_fits uninit h pd R C ds D Hd LD FR FC FRC).
  - rewrite length_map, length_seq. reflexivity.
  - intros i Hi.
    rewrite lookup_map_seq by (apply flat_index_lt; assumption).
    rewrite flat_index_div, flat_index_mod by exact Hj.
    rewrite (standardize_nan lm D R C i0 i j Hi0 Hnan). reflexivity.
Qed.

Lemma nan_poisons_its_column_witness :
  exists out : list float32,
    returns_array (health_data_normalize (H := @F32_Num first_order_libm)
                                         (fun _ => S754_zero false) 0)
                  (column_example [two32; S754_nan; three32]) [3; 1] out
    /\ length out = 3 * 1
    /\ forall i, i < 3 -> out !! (i * 1 + 0) = Some S754_nan.
Proof.
  apply (nan_poisons_its_column first_order_libm (fun _ => S754_zero false)
           (column_example [two32; S754_nan; three32]) 0 3 1 1 0 []
           [two32; S754_nan; three32]);
    try heap_lookup; try reflexivity; small.
Defined.

(** X10.  In binary32 [nutrition_optimization] never passes a NaN of its
    inputs on: a NaN among the profile's features makes every similarity
    exactly +0.0, and a NaN among a food's features makes that food's
    similarity exactly +0.0, because a NaN norm fails the test [norm > 0.0f]
    and the zero branch is taken.  (For a database whose dimensions and
    number of elements fit in a C [int].) *)
Theorem nan_features_score_zero
        (lm : Libm) (uninit : nat -> float32) (h : heap float32)
        (pp pF K R : nat) (dp dF : list nat) (p F : list float32) :
  h !! pp = Some (NDArray dp p) ->
  h !! pF = Some (NDArray (R :: K :: dF) F) ->
  K <= length p -> R * K <= length F ->
  fits_int K -> fits_int R -> fits_int (R * K) ->
  exists out : list float32,
    returns_array (nutrition_optimization uninit pp pF) h [R] out
    /\ length out = R
    /\ ((exists j, j < K /\ get p j = S754_nan) ->
        forall i, i < R -> out !! i = Some (S754_zero false))
    /\ (forall i, i < R -> (exists j, j < K /\ get F (i * K + j) = S754_nan) ->
          out !! i = Some (S754_zero false)).
Proof.
  intros Hp HF Lp LF FK FR FRK.
  eexists. split; [|split; [|split]].
  - exists (fresh (dom h)). split; [apply fresh_unused|].
    apply (nutrition_optimization_fits uninit h pp pF K R dp dF p F Hp HF Lp
             (or_intror LF) FK FR FRK).
  - rewrite length_map, length_seq. reflexivity.
  - intros Hnan i Hi. rewrite lookup_map_seq by exact Hi.
    rewrite (cosine_match_nan lm p F K i) by (left; exact Hnan). reflexivity.
  - intros i Hi Hnan. rewrite lookup_map_seq by exact Hi.
    rewrite (cosine_match_nan lm p F K i) by (right; exact Hnan). reflexivity.
Qed.

Lemma nan_features_score_zero_witness :
  exists out : list float32,
    returns_array (nutrition_optimization (H := @F32_Num first_order_libm)
                                          (fun _ => S754_nan) 0 1)
                  (vector_matrix_example 2 2 [two32; three32]
                                         [two32; S754_nan; two32; three32]) [2] out
    /\ length out = 2
    /\ ((exists j, j < 2 /\ get (H := @F32_Num first_order_libm) [two32; three32] j
                             = S754_nan) ->
        forall i, i < 2 -> out !! i = Some (S754_zero false))
    /\ (forall i, i < 2 ->
          (exists j, j < 2 /\ get (H := @F32_Num first_order_libm)
                                  [two32; S754_nan; two32; three32] (i * 2 + j)
                              = S754_nan) ->
          out !! i = Some (S754_zero false)).
Proof.
  apply (nan_features_score_zero first_order_libm (fun _ => S754_nan)
           (vector_matrix_example 2 2 [two32; three32] [two32; S754_nan; two32; three32])
           0 1 2 2 [2] [] [two32; three32] [two32; S754_nan; two32; three32]);
    try heap_lookup; small.
Defined.

(** X11.  In binary32 a NaN threshold makes [biometric_processing] take
    the low-value branch for every cell, so every output is the input
    times [0.1f] and [tanhf] is never called; and a NaN cell gives a NaN
    output whatever the threshold.  (For a matrix whose dimensions and
    number of elements fit in a C [int].) *)
Theorem nan_threshold_scales_everything
        (lm : Libm) (uninit : nat -> float32) (h : heap float32)
        (pb R C : nat) (ds : list nat) (B : list float32) :
  h !! pb = Some (NDArray (R :: C :: ds) B) ->
  R * C <= length B ->
  fits_int R -> fits_int C -> fits_int (R * C) ->
  (exists out : list float32,
      returns_array (biometric_processing uninit pb S754_nan) h [R; C] out
      /\ forall idx, idx < R * C ->
           out !! idx = Some (SFmul prec32 emax32 (get B idx) ftenth))
  /\ (forall t : float32,
        exists out : list float32,
          returns_array (biometric_processing uninit pb t) h [R; C] out
          /\ forall idx, idx < R * C -> get B idx = S754_nan ->
               out !! idx = Some S754_nan).
Proof.
  intros Hb LB FR FC FRC. split; [|intros t]; (eexists; split;
    [ exists (fresh (dom h)); split; [apply fresh_unused|];
      apply (biometric_processing_fits uninit h pb R C ds _ B Hb LB FR FC FRC) |]).
  - intros idx Hidx. rewrite lookup_map_seq by exact Hidx.
    rewrite (proj1 (threshold_transform_nan lm S754_nan (get B idx))). reflexivity.
  - intros idx Hidx Hnan. rewrite lookup_map_seq by exact Hidx.
    rewrite Hnan, (proj2 (threshold_transform_nan lm t S754_nan)). reflexivity.
Qed.

Lemma nan_threshold_scales_everything_witness :
  (exists out : list float32,
      returns_array (biometric_processing (H := @F32_Num first_order_libm)
                                          (fun _ => S754_zero false) 0 S754_nan)
                    (<[0 := NDArray [1; 2] [two32; S754_nan]]> ∅) [1; 2] out
      /\ forall idx, idx < 1 * 2 ->
           out !! idx = Some (SFmul prec32 emax32 (get (H := @F32_Num first_order_libm)
                                                      [two32; S754_nan] idx)
                                    (S754_finite false 13421773 (-27))))
  /\ (forall t : float32,
        exists out : list float32,
          returns_array (biometric_processing (H := @F32_Num first_order_libm)
                                              (fun _ => S754_zero false) 0 t)
                        (<[0 := NDArray [1; 2] [two32; S754_nan]]> ∅) [1; 2] out
          /\ forall idx, idx < 1 * 2 ->
               get (H := @F32_Num first_order_libm) [two32; S754_nan] idx = S754_nan ->
               out !! idx = Some S754_nan).
Proof.
  apply (nan_threshold_scales_everything first_order_libm (fun _ => S754_zero false)
           (<[0 := NDArray [1; 2] [two32; S754_nan]]> ∅) 0 1 2 [] [two32; S754_nan]);
    [apply lookup_insert_eq | small | small | small | small].
Defined.

(** X12.  With no symptom (the number of symptoms, as the [int] the source
    holds, is 0) the inner loop does not run, and every pattern gets the
    score [sigmoid 0], whatever the weights and the patterns hold: exactly
    0.5 in binary32, for every C library, and 1/2 in real arithmetic.  The
    number of patterns is the [int] the source holds, which must not be
    negative; dimensions below 2^31 are kept as they are, and a first
    dimension of 2^32 counts as no symptom. *)
Theorem no_symptoms_scores_half :
  (forall (lm : Libm) (uninit : nat -> float32) (h : heap float32)
          (ps pw pP dN dM : nat) (ds dw dP : list nat) (s w P : list float32),
      h !! ps = Some (NDArray (dN :: ds) s) ->
      h !! pw = Some (NDArray dw w) ->
      h !! pP = Some (NDArray (dM :: dP) P) ->
      to_int dN = 0%Z -> (0 <= to_int dM)%Z ->
      returns_array (tcm_syndrome_analysis uninit ps pw pP) h [trips (to_int dM)]
                    (map (fun _ => S754_finite false 8388608 (-24))
                         (seq 0 (trips (to_int dM)))))
  /\ (forall (uninit : nat -> R) (h : heap R)
             (ps pw pP dN dM : nat) (ds dw dP : list nat) (s w P : list R),
        h !! ps = Some (NDArray (dN :: ds) s) ->
        h !! pw = Some (NDArray dw w) ->
        h !! pP = Some (NDArray (dM :: dP) P) ->
        to_int dN = 0%Z -> (0 <= to_int dM)%Z ->
        returns_array (tcm_syndrome_analysis uninit ps pw pP) h [trips (to_int dM)]
                      (map (fun _ => (1 / 2)%R) (seq 0 (trips (to_int dM)))))
  /\ (F2Q (S754_finite false 8388608 (-24)) == 1 # 2)%Q
  /\ (forall d, fits_int d -> (0 <= to_int d)%Z /\ trips (to_int d) = d)
  /\ to_int 0 = 0%Z /\ to_int dim_2_32 = 0%Z.
Proof.
  split; [|split; [|split; [|split; [|split]]]].
  - intros lm uninit h ps pw pP dN dM ds dw dP s w P Hs Hw HP HN HM.
    exists (fresh (dom h)). split; [apply fresh_unused|].
    rewrite (tcm_syndrome_analysis_no_symptoms uninit h ps pw pP dN dM ds dw dP s w P
               Hs Hw HP HN HM).
    do 4 f_equal. apply map_ext. intros i. unfold sigmoid.
    change (expf (fneg (fzero (T := float32)))) with (lm_expf (S754_zero true)).
    rewrite expf_zero. vm_compute. reflexivity.
  - intros uninit h ps pw pP dN dM ds dw dP s w P Hs Hw HP HN HM.
    exists (fresh (dom h)). split; [apply fresh_unused|].
    rewrite (tcm_syndrome_analysis_no_symptoms uninit h ps pw pP dN dM ds dw dP s w P
               Hs Hw HP HN HM).
    do 4 f_equal. apply map_ext. intros i. unfold sigmoid. simpl.
    rewrite Ropp_0, exp_0. lra.
  - vm_compute. reflexivity.
  - intros d F. split; [apply to_int_nonneg_fits, F | apply trips_fits, F].
  - reflexivity.
  - apply to_int_examples.
Qed.

Lemma no_symptoms_scores_half_witness :
  returns_array (tcm_syndrome_analysis (H := @F32_Num first_order_libm)
                                       (fun _ => S754_nan) 0 1 2)
                (three_arrays (NDArray [0] []) (NDArray [1] [big32])
                              (NDArray [2; 1] [S754_nan; big32]))
                [2] (map (fun _ => S754_finite false 8388608 (-24)) (seq 0 2))
  /\ returns_array (tcm_syndrome_analysis (fun _ => 7%R) 0 1 2)
                   (three_arrays (NDArray [0] []) (NDArray [1] [3%R])
                                 (NDArray [2; 1] [4; 5]%R))
                   [2] (map (fun _ => (1 / 2)%R) (seq 0 2)).
Proof.
  split.
  - apply (proj1 no_symptoms_scores_half first_order_libm (fun _ => S754_nan)
                 (three_arrays (NDArray [0] []) (NDArray [1] [big32])
                               (NDArray [2; 1] [S754_nan; big32]))
                 0 1 2 0 2 [] [1] [1] [] [big32] [S754_nan; big32]);
      try array_lookup; try reflexivity; in_bounds.
  - apply (proj1 (proj2 no_symptoms_scores_half) (fun _ => 7%R)
                 (three_arrays (NDArray [0] []) (NDArray [1] [3%R])
                               (NDArray [2; 1] [4; 5]%R))
                 0 1 2 0 2 [] [1] [1] [] [3%R] [4; 5]%R);
      try array_lookup; try reflexivity; in_bounds.
Defined.

(** ** Rows, and the order of the arguments *)

Section Rows.
Context {T : Type} `{Num T}.
Variable uninit : nat -> T.

Lemma get_app_l (l l' : list T) (idx : nat) :
  idx < length l -> get (l ++ l') idx = get l idx.
Proof. intros Hidx. unfold get. rewrite lookup_app_l by exact Hidx. reflexivity. Qed.

(** Output [i] depends on row [i] of the database only. *)
Lemma syndrome_score_row (s w P P' : list T) (N i : nat) :
  (forall j, j < N -> get P' (i * N + j) = get P (i * N + j)) ->
  syndrome_score s w P' N i = syndrome_score s w P N i.
Proof.
  intros Hrow. unfold syndrome_score, weighted_sum. f_equal.
  apply sum_to_ext. intros j Hj. rewrite (Hrow j Hj). reflexivity.
Qed.

Lemma cosine_match_row (p F F' : list T) (K i : nat) :
  (forall j, j < K -> get F' (i * K + j) = get F (i * K + j)) ->
  cosine_match p F' K i = cosine_match p F K i.
Proof.
  intros Hrow. unfold cosine_match, norm2, dot.
  rewrite (sum_to_ext K (fun j => fmul (get F' (i * K + j)) (get F' (i * K + j)))
                      (fun j => fmul (get F (i * K + j)) (get F (i * K + j))))
    by (intros j Hj; rewrite (Hrow j Hj); reflexivity).
  rewrite (sum_to_ext K (fun j => fmul (get p j) (get F' (i * K + j)))
                      (fun j => fmul (get p j) (get F (i * K + j))))
    by (intros j Hj; rewrite (Hrow j Hj); reflexivity).
  reflexivity.
Qed.

Lemma gaussian_match_row (q D D' : list T) (L i : nat) :
  (forall j, j < L -> get D' (i * L + j) = get D (i * L + j)) ->
  gaussian_match q D' L i = gaussian_match q D L i.
Proof.
  intros Hrow. unfold gaussian_match. f_equal.
  apply sum_to_ext. intros j Hj. cbv zeta. rewrite (Hrow j Hj). reflexivity.
Qed.

(** The results for a database with one more row. *)
Lemma map_rows_snoc (f f' : nat -> T) (n : nat) :
  (forall i, i < n -> f' i = f i) ->
  map f' (seq 0 (S n)) = map f (seq 0 n) ++ [f' n].
Proof.
  intros Hf. rewrite seq_S, map_app. simpl. f_equal.
  apply map_ext_in. intros i Hi. apply in_seq in Hi. apply Hf. lia.
Qed.


(** With a commutative product, symptoms and weights can be exchanged. *)
Lemma tcm_syndrome_analysis_swap (h : heap T) (ps pw pP N Mr : nat)
      (ds dw dP : list nat) (s w P : list T) :
  (forall x y : T, fmul x y = fmul y x) ->
  h !! ps = Some (NDArray (N :: ds) s) ->
  h !! pw = Some (NDArray (N :: dw) w) ->
  h !! pP = Some (NDArray (Mr :: dP) P) ->
  tcm_syndrome_analysis uninit ps pw pP h = tcm_syndrome_analysis uninit pw ps pP h.
Proof.
  intros Hcomm Hs Hw HP.
  destruct (tcm_syndrome_analysis_cases uninit h ps pw pP N Mr ds (N :: dw) dP s w P
              Hs Hw HP) as [[Hb E1] | [Hb E1]];
    destruct (tcm_syndrome_analysis_cases uninit h pw ps pP N Mr dw (N :: ds) dP w s P
                Hw Hs HP) as [[Hb' E2] | [Hb' E2]];
    rewrite E1, E2; try reflexivity; try (exfalso; tauto).
  do 4 f_equal. apply map_ext. intros i.
  unfold syndrome_score, weighted_sum. f_equal. apply sum_to_ext. intros j Hj.
  rewrite (Hcomm (get s j) (get w j)). reflexivity.
Qed.

End Rows.

Lemma SFmul_comm (x y : float32) : SFmul prec32 emax32 x y = SFmul prec32 emax32 y x.
Proof.
  destruct x as [sx|sx| |sx mx ex], y as [sy|sy| |sy my ey]; unfold SFmul;
    rewrite ?(xorb_comm sx sy); try reflexivity.
  rewrite Pos.mul_comm, Z.add_comm. reflexivity.
Qed.

Lemma fits_int_le (a b : nat) : a <= b -> fits_int b -> fits_int a.
Proof. unfold fits_int. lia. Qed.

(** X19.  The three kernels that score the rows of a database score each
    row on its own: a database with one more row appended gives the same
    results for the rows it had, followed by one result for the new row.
    This holds in whichever arithmetic the kernels are run, for databases
    whose dimensions and number of elements fit in a C [int]. *)
Theorem database_rows_are_independent
        (T : Type) (num : Num T) (uninit : nat -> T) (h h' : heap T) :
  (forall ps pw pP N Mr ds dw dP (s w P row : list T),
      h !! ps = Some (NDArray (N :: ds) s) ->
      h !! pw = Some (NDArray dw w) ->
      h !! pP = Some (NDArray (Mr :: dP) P) ->
      h' !! ps = Some (NDArray (N :: ds) s) ->
      h' !! pw = Some (NDArray dw w) ->
      h' !! pP = Some (NDArray (S Mr :: dP) (P ++ row)) ->
      N <= length s -> N <= length w -> length P = Mr * N -> length row = N ->
      fits_int N -> fits_int (S Mr) -> fits_int (S Mr * N) ->
      exists (out : list T) (x : T),
        returns_array (tcm_syndrome_analysis uninit ps pw pP) h [Mr] out
        /\ returns_array (tcm_syndrome_analysis uninit ps pw pP) h' [S Mr] (out ++ [x]))
  /\ (forall pp pF K rows dp dF (p F row : list T),
        h !! pp = Some (NDArray dp p) ->
        h !! pF = Some (NDArray (rows :: K :: dF) F) ->
        h' !! pp = Some (NDArray dp p) ->
        h' !! pF = Some (NDArray (S rows :: K :: dF) (F ++ row)) ->
        K <= length p -> length F = rows * K -> length row = K ->
        fits_int K -> fits_int (S rows) -> fits_int (S rows * K) ->
        exists (out : list T) (x : T),
          returns_array (nutrition_optimization uninit pp pF) h [rows] out
          /\ returns_array (nutrition_optimization uninit pp pF) h' [S rows] (out ++ [x]))
  /\ (forall pq pD L rows dq dD (q D row : list T),
        h !! pq = Some (NDArray dq q) ->
        h !! pD = Some (NDArray (rows :: L :: dD) D) ->
        h' !! pq = Some (NDArray dq q) ->
        h' !! pD = Some (NDArray (S rows :: L :: dD) (D ++ row)) ->
        L <= length q -> length D = rows * L -> length row = L ->
        fits_int L -> fits_int (S rows) -> fits_int (S rows * L) ->
        exists (out : list T) (x : T),
          returns_array (pattern_matching uninit pq pD) h [rows] out
          /\ returns_array (pattern_matching uninit pq pD) h' [S rows] (out ++ [x])).
Proof.
  split; [|split].
  - intros ps pw pP N Mr ds dw dP s w P row Hs Hw HP Hs' Hw' HP' Ls Lw LP Lrow FN FM FMN.
    exists (map (syndrome_score s w P N) (seq 0 Mr)), (syndrome_score s w (P ++ row) N Mr).
    split.
    + exists (fresh (dom h)). split; [apply fresh_unused|].
      apply (tcm_syndrome_analysis_fits uninit h ps pw pP N Mr ds dw dP s w P Hs Hw HP);
        [right; lia | exact FN | apply (fits_int_le _ (S Mr)); [lia | exact FM]
        | apply (fits_int_le _ (S Mr * N)); [lia | exact FMN] ].
    + exists (fresh (dom h')). split; [apply fresh_unused|].
      rewrite (tcm_syndrome_analysis_fits uninit h' ps pw pP N (S Mr) ds dw dP s w _
                 Hs' Hw' HP') by (try assumption; right; rewrite length_app; lia).
      do 4 f_equal. apply map_rows_snoc. intros i Hi.
      apply syndrome_score_row. intros j Hj. apply get_app_l. nia.
  - intros pp pF K rows dp dF p F row Hp HF Hp' HF' Lp LF Lrow FK FR FRK.
    exists (map (cosine_match p F K) (seq 0 rows)), (cosine_match p (F ++ row) K rows).
    split.
    + exists (fresh (dom h)). split; [apply fresh_unused|].
      apply (nutrition_optimization_fits uninit h pp pF K rows dp dF p F Hp HF Lp);
        [right; lia | exact FK | apply (fits_int_le _ (S rows)); [lia | exact FR]
        | apply (fits_int_le _ (S rows * K)); [lia | exact FRK] ].
    + exists (fresh (dom h')). split; [apply fresh_unused|].
      rewrite (nutrition_optimization_fits uninit h' pp pF K (S rows) dp dF p _
                 Hp' HF' Lp) by (try assumption; right; rewrite length_app; lia).
      do 4 f_equal. apply map_rows_snoc. intros i Hi.
      apply cosine_match_row. intros j Hj. apply get_app_l. nia.
  - intros pq pD L rows dq dD q D row Hq HD Hq' HD' Lq LD Lrow FL FR FRL.
    exists (map (gaussian_match q D L) (seq 0 rows)), (gaussian_match q (D ++ row) L rows).
    split.
    + exists (fresh (dom h)). split; [apply fresh_unused|].
      apply (pattern_matching_fits uninit h pq pD L rows dq dD q D Hq HD);
        [right; lia | exact FL | apply (fits_int_le _ (S rows)); [lia | exact FR]
        | apply (fits_int_le _ (S rows * L)); [lia | exact FRL] ].
    + exists (fresh (dom h')). split; [apply fresh_unused|].
      rewrite (pattern_matching_fits uninit h' pq pD L (S rows) dq dD q _ Hq' HD')
        by (try assumption; right; rewrite length_app; lia).
      do 4 f_equal. apply map_rows_snoc. intros i Hi.
      apply gaussian_match_row. intros j Hj. apply get_app_l. nia.
Qed.

Lemma database_rows_are_independent_witness :
  (exists (out : list R) (x : R),
      returns_array (tcm_syndrome_analysis (fun _ => 7%R) 0 1 2)
                    (syndrome_heap 2 1 [1; 1]%R [1; 1]%R [1; 1]%R) [1] out
      /\ returns_array (tcm_syndrome_analysis (fun _ => 7%R) 0 1 2)
                       (syndrome_heap 2 2 [1; 1]%R [1; 1]%R ([1; 1]%R ++ [2; 3]%R))
                       [2] (out ++ [x]))
  /\ (exists (out : list R) (x : R),
        returns_array (nutrition_optimization (fun _ => 7%R) 0 1)
                      (vector_matrix_example 2 1 [3; 4]%R [4; 3]%R) [1] out
        /\ returns_array (nutrition_optimization (fun _ => 7%R) 0 1)
                         (vector_matrix_example 2 2 [3; 4]%R ([4; 3]%R ++ [3; 4]%R))
                         [2] (out ++ [x]))
  /\ (exists (out : list R) (x : R),
        returns_array (pattern_matching (fun _ => 7%R) 0 1)
                      (vector_matrix_example 2 1 [3; 4]%R [4; 3]%R) [1] out
        /\ returns_array (pattern_matching (fun _ => 7%R) 0 1)
                         (vector_matrix_example 2 2 [3; 4]%R ([4; 3]%R ++ [3; 4]%R))
                         [2] (out ++ [x])).
Proof.
  split; [|split].
  - apply (proj1 (database_rows_are_independent R R_Num (fun _ => 7%R)
                    (syndrome_heap 2 1 [1; 1]%R [1; 1]%R [1; 1]%R)
                    (syndrome_heap 2 2 [1; 1]%R [1; 1]%R ([1; 1]%R ++ [2; 3]%R)))
                 0 1 2 2 1 [] [2] [2] [1; 1]%R [1; 1]%R [1; 1]%R [2; 3]%R);
      try heap_lookup; small.
  - apply (proj1 (proj2 (database_rows_are_independent R R_Num (fun _ => 7%R)
                    (vector_matrix_example 2 1 [3; 4]%R [4; 3]%R)
                    (vector_matrix_example 2 2 [3; 4]%R ([4; 3]%R ++ [3; 4]%R))))
                 0 1 2 1 [2] [] [3; 4]%R [4; 3]%R [3; 4]%R);
      try heap_lookup; small.
  - apply (proj2 (proj2 (database_rows_are_independent R R_Num (fun _ => 7%R)
                    (vector_matrix_example 2 1 [3; 4]%R [4; 3]%R)
                    (vector_matrix_example 2 2 [3; 4]%R ([4; 3]%R ++ [3; 4]%R))))
                 0 1 2 1 [2] [] [3; 4]%R [4; 3]%R [3; 4]%R);
      try heap_lookup; small.
Defined.

(** X20.  Called on arrays whose buffers hold the values the loops read,
    and whose dimensions and numbers of elements fit in a C [int], each
    exported function returns a new array with the values of its formula
    and leaves the heap otherwise as it was; no exception is set.  The
    array arguments may be any arrays of the heap, also the same array more
    than once.  For [biometric_processing] the heap is the one the
    conversion of the threshold left, and the array as it is there. *)
Theorem exported_calls_return_on_arrays
        (T : Type) (num : Num T) (uninit : nat -> T) (arity_msg : nat -> nat -> string)
        (float_of : PyObject -> heap T -> (PyErr + T) * heap T) (h : heap T) :
  (forall ps pw pP N Mr ds dw dP (s w P : list T),
      h !! ps = Some (NDArray (N :: ds) s) ->
      h !! pw = Some (NDArray dw w) ->
      h !! pP = Some (NDArray (Mr :: dP) P) ->
      N <= length s -> N <= length w -> Mr * N <= length P ->
      fits_int N -> fits_int Mr -> fits_int (Mr * N) ->
      call_returns_array
        (py_tcm_syndrome_analysis uninit arity_msg [Ndarray ps; Ndarray pw; Ndarray pP] h)
        h [Mr] (map (syndrome_score s w P N) (seq 0 Mr)))
  /\ (forall pd R C ds (D : list T),
        h !! pd = Some (NDArray (R :: C :: ds) D) ->
        R * C <= length D ->
        fits_int R -> fits_int C -> fits_int (R * C) ->
        call_returns_array
          (py_health_data_normalize uninit arity_msg [Ndarray pd] h)
          h [R; C] (map (fun idx => standardize D R C (idx / C) (idx mod C))
                        (seq 0 (R * C))))
  /\ (forall pp pF K R dp dF (p F : list T),
        h !! pp = Some (NDArray dp p) ->
        h !! pF = Some (NDArray (R :: K :: dF) F) ->
        K <= length p -> R * K <= length F ->
        fits_int K -> fits_int R -> fits_int (R * K) ->
        call_returns_array
          (py_nutrition_optimization uninit arity_msg [Ndarray pp; Ndarray pF] h)
          h [R] (map (cosine_match p F K) (seq 0 R)))
  /\ (forall pb R C ds (B : list T) (threshold_obj : PyObject) (t : T) (h1 : heap T),
        float_of threshold_obj h = (inr t, h1) ->
        h1 !! pb = Some (NDArray (R :: C :: ds) B) ->
        R * C <= length B ->
        fits_int R -> fits_int C -> fits_int (R * C) ->
        call_returns_array
          (py_biometric_processing uninit arity_msg float_of [Ndarray pb; threshold_obj] h)
          h1 [R; C] (map (fun idx => threshold_transform t (get B idx)) (seq 0 (R * C))))
  /\ (forall pq pD L R dq dD (q D : list T),
        h !! pq = Some (NDArray dq q) ->
        h !! pD = Some (NDArray (R :: L :: dD) D) ->
        L <= length q -> R * L <= length D ->
        fits_int L -> fits_int R -> fits_int (R * L) ->
        call_returns_array
          (py_pattern_matching uninit arity_msg [Ndarray pq; Ndarray pD] h)
          h [R] (map (gaussian_match q D L) (seq 0 R))).
Proof.
  split; [|split; [|split; [|split]]].
  - intros ps pw pP N Mr ds dw dP s w P Hs Hw HP Ls Lw LP FN FM FMN.
    exists (fresh (dom h)). split; [apply fresh_unused|]. simpl.
    apply run_kernel_Some.
    apply (tcm_syndrome_analysis_fits uninit h ps pw pP N Mr ds dw dP s w P Hs Hw HP);
      try assumption.
    right. tauto.
  - intros pd R C ds D Hd LD FR FC FRC.
    exists (fresh (dom h)). split; [apply fresh_unused|]. simpl.
    apply run_kernel_Some.
    apply (health_data_normalize_fits uninit h pd R C ds D Hd LD FR FC FRC).
  - intros pp pF K R dp dF p F Hp HF Lp LF FK FR FRK.
    exists (fresh (dom h)). split; [apply fresh_unused|]. simpl.
    apply run_kernel_Some.
    apply (nutrition_optimization_fits uninit h pp pF K R dp dF p F Hp HF Lp
             (or_intror LF) FK FR FRK).
  - intros pb R C ds B threshold_obj t h1 Ht Hb LB FR FC FRC.
    exists (fresh (dom h1)). split; [apply fresh_unused|]. simpl. rewrite Ht. simpl.
    apply run_kernel_Some.
    apply (biometric_processing_fits uninit h1 pb R C ds t B Hb LB FR FC FRC).
  - intros pq pD L R dq dD q D Hq HD Lq LD FL FR FRL.
    exists (fresh (dom h)). split; [apply fresh_unused|]. simpl.
    apply run_kernel_Some.
    apply (pattern_matching_fits uninit h pq pD L R dq dD q D Hq HD); try assumption.
    right. tauto.
Qed.

Lemma exported_calls_return_on_arrays_witness :
  call_returns_array
    (py_tcm_syndrome_analysis (fun _ => 7%R) (fun _ _ => EmptyString)
                              [Ndarray 0; Ndarray 0; Ndarray 2] (syndrome_example 1%R))
    (syndrome_example 1%R) [1] (map (syndrome_score [1; 1]%R [1; 1]%R [1; 1]%R 2) (seq 0 1))
  /\ call_returns_array
       (py_biometric_processing (fun _ => 7%R) (fun _ _ => EmptyString)
                                (float_of_const 1%R) [Ndarray 2; Other 5]
                                (syndrome_example 1%R))
       (syndrome_example 1%R) [1; 2]
       (map (fun idx => threshold_transform 1%R (get [1; 1]%R idx)) (seq 0 (1 * 2))).
Proof.
  pose proof (exported_calls_return_on_arrays R R_Num (fun _ => 7%R)
                (fun _ _ => EmptyString) (float_of_const 1%R) (syndrome_example 1%R))
    as (K1 & _ & _ & K4 & _).
  split.
  - apply (K1 0 0 2 2 1 [] [2] [2] [1; 1]%R [1; 1]%R [1; 1]%R);
      try heap_lookup; small.
  - apply (K4 2 1 2 [] [1; 1]%R (Other 5) 1%R (syndrome_example 1%R));
      [reflexivity | heap_lookup | small | small | small | small].
Defined.

(** X21.  Exchanging the symptoms and the weights arguments of
    [tcm_syndrome_analysis] changes nothing when both have the number of
    symptoms as first dimension: the two are only ever multiplied with each
    other.  This holds in binary32, where the rounded product is
    commutative, and in real arithmetic. *)
Theorem symptoms_and_weights_commute :
  (forall (lm : Libm) (uninit : nat -> float32) (h : heap float32)
          (ps pw pP N Mr : nat) (ds dw dP : list nat) (s w P : list float32),
      h !! ps = Some (NDArray (N :: ds) s) ->
      h !! pw = Some (NDArray (N :: dw) w) ->
      h !! pP = Some (NDArray (Mr :: dP) P) ->
      tcm_syndrome_analysis uninit ps pw pP h = tcm_syndrome_analysis uninit pw ps pP h)
  /\ (forall (uninit : nat -> R) (h : heap R)
             (ps pw pP N Mr : nat) (ds dw dP : list nat) (s w P : list R),
        h !! ps = Some (NDArray (N :: ds) s) ->
        h !! pw = Some (NDArray (N :: dw) w) ->
        h !! pP = Some (NDArray (Mr :: dP) P) ->
        tcm_syndrome_analysis uninit ps pw pP h = tcm_syndrome_analysis uninit pw ps pP h).
Proof.
  split.
  - intros lm uninit h ps pw pP N Mr ds dw dP s w P.
    apply tcm_syndrome_analysis_swap. exact SFmul_comm.
  - intros uninit h ps pw pP N Mr ds dw dP s w P.
    apply tcm_syndrome_analysis_swap. exact Rmult_comm.
Qed.

Lemma symptoms_and_weights_commute_witness :
  tcm_syndrome_analysis (H := @F32_Num first_order_libm) (fun _ => S754_nan) 0 1 2
                        (syndrome_heap 2 1 [two32; three32] [three32; big32] [two32; two32])
  = tcm_syndrome_analysis (H := @F32_Num first_order_libm) (fun _ => S754_nan) 1 0 2
                          (syndrome_heap 2 1 [two32; three32] [three32; big32] [two32; two32]).
Proof.
  apply (proj1 symptoms_and_weights_commute first_order_libm (fun _ => S754_nan)
               (syndrome_heap 2 1 [two32; three32] [three32; big32] [two32; two32])
               0 1 2 2 1 [] [] [2] [two32; three32] [three32; big32] [two32; two32]);
    heap_lookup.
Defined.

Lemma standardize_column {T : Type} `{Num T} (D D' : list T) (n C i j : nat) :
  i < n ->
  (forall k, k < n -> get D' (k * C + j) = get D (k * C + j)) ->
  standardize D' n C i j = standardize D n C i j.
Proof.
  intros Hi Hcol.
  assert (Hmean : col_mean D' n C j = col_mean D n C j).
  { unfold col_mean. f_equal. apply sum_to_ext. intros k Hk. apply Hcol, Hk. }
  assert (Hvar : col_variance D' n C j = col_variance D n C j).
  { unfold col_variance. f_equal. apply sum_to_ext. intros k Hk. cbv zeta.
    rewrite Hmean, (Hcol k Hk). reflexivity. }
  unfold standardize. rewrite Hmean, Hvar, (Hcol i Hi). reflexivity.
Qed.


(** X23.  [health_data_normalize] treats every feature on its own: two
    data matrices of the same shape that agree on column [j] get the same
    column [j] in the result, whatever their other columns hold.  This holds
    in whichever arithmetic the kernel is run, for matrices whose
    dimensions and number of elements fit in a C [int]. *)
Theorem features_are_independent
        (T : Type) (num : Num T) (uninit : nat -> T) (h h' : heap T)
        (pd n C j : nat) (ds : list nat) (D D' : list T) :
  h !! pd = Some (NDArray (n :: C :: ds) D) ->
  h' !! pd = Some (NDArray (n :: C :: ds) D') ->
  n * C <= length D -> n * C <= length D' ->
  fits_int n -> fits_int C -> fits_int (n * C) ->
  j < C ->
  (forall i, i < n -> D' !! (i * C + j) = D !! (i * C + j)) ->
  exists out out' : list T,
    returns_array (health_data_normalize uninit pd) h [n; C] out
    /\ returns_array (health_data_normalize uninit pd) h' [n; C] out'
    /\ forall i, i < n -> out' !! (i * C + j) = out !! (i * C + j).
Proof.
  intros Hd Hd' LD LD' Fn FC FnC Hj Hcol.
  eexists _, _. split; [|split].
  - exists (fresh (dom h)). split; [apply fresh_unused|].
    apply (health_data_normalize_fits uninit h pd n C ds D Hd LD Fn FC FnC).
  - exists (fresh (dom h')). split; [apply fresh_unused|].
    apply (health_data_normalize_fits uninit h' pd n C ds D' Hd' LD' Fn FC FnC).
  - intros i Hi.
    rewrite !lookup_map_seq by (apply flat_index_lt; assumption).
    rewrite flat_index_div, flat_index_mod by exact Hj. f_equal.
    apply standardize_column; [exact Hi|].
    intros k Hk. unfold get. rewrite (Hcol k Hk). reflexivity.
Qed.

Lemma features_are_independent_witness :
  exists out out' : list R,
    returns_array (health_data_normalize (fun _ => 7%R) 0)
                  (<[0 := NDArray [2; 2] [1; 5; 3; 6]%R]> ∅) [2; 2] out
    /\ returns_array (health_data_normalize (fun _ => 7%R) 0)
                     (<[0 := NDArray [2; 2] [1; 8; 3; 9]%R]> ∅) [2; 2] out'
    /\ forall i, i < 2 -> out' !! (i * 2 + 0) = out !! (i * 2 + 0).
Proof.
  apply (features_are_independent R R_Num (fun _ => 7%R)
           (<[0 := NDArray [2; 2] [1; 5; 3; 6]%R]> ∅)
           (<[0 := NDArray [2; 2] [1; 8; 3; 9]%R]> ∅)
           0 2 2 0 [] [1; 5; 3; 6]%R [1; 8; 3; 9]%R);
    try apply lookup_insert_eq; try small.
  intros [|[|i]] Hi; [reflexivity | reflexivity | lia].
Defined.

(** ** The parallel loops *)

Lemma same_row (C i i' idx : nat) :
  i * C <= idx < i * C + C -> i' * C <= idx < i' * C + C -> i = i'.
Proof. intros Hi Hi'. nia. Qed.

(** X24.  The iterations of the loops under [#pragma omp parallel for]
    do not depend on one another.  For each of the five kernels, on arrays
    that hold what the loops read: an iteration, run on the heap with the
    result array in any state, returns; it stores the value of the formula
    in its own cells of the result (cell [i] for the kernels that return a
    vector, column [j] for [health_data_normalize], row [i] for
    [biometric_processing]), a value that depends neither on the state of
    the result nor on the iteration; it changes nothing else; and no cell
    belongs to two iterations.  So the iterations can run one after the
    other in any order: for every order that takes each index once, the
    kernel behaves as in index order, whatever its arguments.  (Threads
    that interleave inside an iteration are not modelled.) *)
Theorem parallel_loops_run_in_any_order
        (T : Type) (num : Num T) (h : heap T) (r : nat) (sh : list nat) :
  h !! r = None ->
  (forall ps pw pP (n_symptoms : Z) (n_patterns : nat) ds dw dP (s w P : list T),
      h !! ps = Some (NDArray ds s) ->
      h !! pw = Some (NDArray dw w) ->
      h !! pP = Some (NDArray dP P) ->
      trips n_symptoms <= length s -> trips n_symptoms <= length w ->
      n_patterns * trips n_symptoms <= length P ->
      (Z.of_nat (n_patterns * trips n_symptoms) <= INT_MAX + 1)%Z ->
      independent_iterations n_patterns r sh n_patterns
        (fun i idx => idx =? i)
        (syndrome_score s w P (trips n_symptoms))
        (fun i _ => tcm_syndrome_analysis_iteration ps pw pP r n_symptoms i) h)
  /\ (forall pd (n_samples n_features : Z) ds (D : list T),
        h !! pd = Some (NDArray ds D) ->
        (0 <= n_samples)%Z ->
        trips n_samples * trips n_features <= length D ->
        (Z.of_nat (trips n_samples * trips n_features) <= INT_MAX + 1)%Z ->
        independent_iterations (trips n_features) r sh
          (trips n_samples * trips n_features)
          (fun j idx => existsb (fun i => idx =? i * trips n_features + j)
                                (seq 0 (trips n_samples)))
          (fun idx => standardize D (trips n_samples) (trips n_features)
                                  (idx / trips n_features) (idx mod trips n_features))
          (fun j _ => health_data_normalize_iteration pd r n_samples n_features j) h)
  /\ (forall pp pF (n_features : Z) (n_foods : nat) dp dF (p F : list T),
        h !! pp = Some (NDArray dp p) ->
        h !! pF = Some (NDArray dF F) ->
        trips n_features <= length p ->
        n_foods * trips n_features <= length F ->
        (Z.of_nat (n_foods * trips n_features) <= INT_MAX + 1)%Z ->
        independent_iterations n_foods r sh n_foods
          (fun i idx => idx =? i)
          (cosine_match p F (trips n_features))
          (fun i _ => nutrition_optimization_iteration
                        pp pF r n_features (norm2 (trips n_features) (get p)) i) h)
  /\ (forall pb (n_markers : Z) (n_samples : nat) ds (t : T) (B : list T),
        h !! pb = Some (NDArray ds B) ->
        n_samples * trips n_markers <= length B ->
        (Z.of_nat (n_samples * trips n_markers) <= INT_MAX + 1)%Z ->
        independent_iterations n_samples r sh (n_samples * trips n_markers)
          (fun i idx => existsb (fun j => idx =? i * trips n_markers + j)
                                (seq 0 (trips n_markers)))
          (fun idx => threshold_transform t (get B idx))
          (fun i _ => biometric_processing_iteration pb r n_markers t i) h)
  /\ (forall pq pD (pattern_length : Z) (n_patterns : nat) dq dD (q D : list T),
        h !! pq = Some (NDArray dq q) ->
        h !! pD = Some (NDArray dD D) ->
        trips pattern_length <= length q ->
        n_patterns * trips pattern_length <= length D ->
        (Z.of_nat (n_patterns * trips pattern_length) <= INT_MAX + 1)%Z ->
        independent_iterations n_patterns r sh n_patterns
          (fun i idx => idx =? i)
          (gaussian_match_int q D pattern_length)
          (fun i _ => pattern_matching_iteration pq pD r pattern_length i) h)
  /\ (forall (uninit : nat -> T) (schedule : nat -> list nat),
        (forall n, Permutation (schedule n) (seq 0 n)) ->
        (forall ps pw pP dN dM ds dw dP (s w P : list T),
            h !! ps = Some (NDArray (dN :: ds) s) ->
            h !! pw = Some (NDArray dw w) ->
            h !! pP = Some (NDArray (dM :: dP) P) ->
            tcm_syndrome_analysis_in uninit schedule ps pw pP h
            = tcm_syndrome_analysis uninit ps pw pP h)
        /\ (forall pd dR dC ds (D : list T),
              h !! pd = Some (NDArray (dR :: dC :: ds) D) ->
              health_data_normalize_in uninit schedule pd h
              = health_data_normalize uninit pd h)
        /\ (forall pp pF dR dK dp dF (p F : list T),
              h !! pp = Some (NDArray dp p) ->
              h !! pF = Some (NDArray (dR :: dK :: dF) F) ->
              nutrition_optimization_in uninit schedule pp pF h
              = nutrition_optimization uninit pp pF h)
        /\ (forall pb dR dC ds (t : T) (B : list T),
              h !! pb = Some (NDArray (dR :: dC :: ds) B) ->
              biometric_processing_in uninit schedule pb t h
              = biometric_processing uninit pb t h)
        /\ (forall pq pD dR dL dq dD (q D : list T),
              h !! pq = Some (NDArray dq q) ->
              h !! pD = Some (NDArray (dR :: dL :: dD) D) ->
              pattern_matching_in uninit schedule pq pD h
              = pattern_matching uninit pq pD h))
  /\ (forall uninit : nat -> T,
        tcm_syndrome_analysis_in uninit (seq 0) = tcm_syndrome_analysis uninit
        /\ health_data_normalize_in uninit (seq 0) = health_data_normalize uninit
        /\ nutrition_optimization_in uninit (seq 0) = nutrition_optimization uninit
        /\ biometric_processing_in uninit (seq 0) = biometric_processing uninit
        /\ pattern_matching_in uninit (seq 0) = pattern_matching uninit).
Proof.
  intros Hr.
  assert (Own : forall n k k' idx : nat,
             k < n -> k' < n -> (idx =? k) = true -> (idx =? k') = true -> k = k').
  { intros n k k' idx _ _ E E'. apply Nat.eqb_eq in E, E'. congruence. }
  split; [|split; [|split; [|split; [|split; [|split]]]]].
  - intros ps pw pP n Mr ds dw dP s w P Hs Hw HP Ls Lw LP Lint. split; [|apply Own].
    apply (tcm_syndrome_analysis_iteration_fills h r ps pw pP n Mr sh ds dw dP s w P);
      assumption.
  - intros pd nR nC ds D Hd HR LD Lint. split.
    + apply (health_data_normalize_iteration_fills h r pd nR nC sh ds D); assumption.
    + intros j j' idx Hj Hj' E E'.
      apply (column_cells (trips nR) (trips nC) j idx Hj) in E.
      apply (column_cells (trips nR) (trips nC) j' idx Hj') in E'.
      destruct E as [_ E], E' as [_ E']. congruence.
  - intros pp pF nK Rr dp dF p F Hp HF Lp LF Lint. split; [|apply Own].
    apply (nutrition_optimization_iteration_fills h r pp pF nK Rr sh dp dF p F);
      assumption.
  - intros pb nC R ds t B Hb LB Lint. split.
    + apply (biometric_processing_iteration_fills h r pb nC R sh ds t B); assumption.
    + intros i i' idx Hi Hi' E E'.
      apply row_cells in E. apply row_cells in E'.
      exact (same_row (trips nC) i i' idx E E').
  - intros pq pD nL Rr dq dD q D Hq HD Lq LD Lint. split; [|apply Own].
    apply (pattern_matching_iteration_fills h r pq pD nL Rr sh dq dD q D); assumption.
  - intros uninit schedule Hperm. split; [|split; [|split; [|split]]].
    + intros ps pw pP dN dM ds dw dP s w P.
      apply tcm_syndrome_analysis_any_order, Hperm.
    + intros pd dR dC ds D. apply health_data_normalize_any_order, Hperm.
    + intros pp pF dR dK dp dF p F. apply nutrition_optimization_any_order, Hperm.
    + intros pb dR dC ds t B. apply biometric_processing_any_order, Hperm.
    + intros pq pD dR dL dq dD q D. apply pattern_matching_any_order, Hperm.
  - intros uninit. repeat split; reflexivity.
Qed.

Lemma parallel_loops_run_in_any_order_witness :
  independent_iterations 2 3 [2] 2 (fun i idx => idx =? i)
    (syndrome_score [1; 1]%R [1; 1]%R [1; 1; 2; 3]%R (trips 2))
    (fun i _ => tcm_syndrome_analysis_iteration 0 1 2 3 2 i)
    (syndrome_heap 2 2 [1; 1]%R [1; 1]%R [1; 1; 2; 3]%R)
  /\ tcm_syndrome_analysis_in (fun _ => 7%R) (fun n => rev (seq 0 n)) 0 1 2
                              (syndrome_heap 2 2 [1; 1]%R [1; 1]%R [1; 1; 2; 3]%R)
     = tcm_syndrome_analysis (fun _ => 7%R) 0 1 2
                             (syndrome_heap 2 2 [1; 1]%R [1; 1]%R [1; 1; 2; 3]%R)
  /\ health_data_normalize_in (fun _ => 7%R) (fun n => rev (seq 0 n)) 2
                              (syndrome_heap 2 2 [1; 1]%R [1; 1]%R [1; 1; 2; 3]%R)
     = health_data_normalize (fun _ => 7%R) 2
                             (syndrome_heap 2 2 [1; 1]%R [1; 1]%R [1; 1; 2; 3]%R).
Proof.
  assert (Hr : syndrome_heap 2 2 [1; 1]%R [1; 1]%R [1; 1; 2; 3]%R !! 3 = None).
  { unfold syndrome_heap. rewrite !lookup_insert_ne by lia. apply lookup_empty. }
  pose proof (parallel_loops_run_in_any_order R R_Num
                (syndrome_heap 2 2 [1; 1]%R [1; 1]%R [1; 1; 2; 3]%R) 3 [2] Hr)
    as (K1 & _ & _ & _ & _ & K6 & _).
  destruct (K6 (fun _ => 7%R) (fun n => rev (seq 0 n))
               (fun n => Permutation_sym (Permutation_rev (seq 0 n))))
    as (S1 & S2 & _).
  split; [|split].
  - apply (K1 0 1 2 2%Z 2 [2] [2] [2; 2] [1; 1]%R [1; 1]%R [1; 1; 2; 3]%R);
      try heap_lookup; in_bounds.
  - apply (S1 0 1 2 2 2 [] [2] [2] [1; 1]%R [1; 1]%R [1; 1; 2; 3]%R); heap_lookup.
  - apply (S2 2 2 2 [] [1; 1; 2; 3]%R); heap_lookup.
Defined.

(** ** Rounding in the cosine similarity *)

(** X27.  In binary32 the similarity [nutrition_optimization] returns for
    a food equal to the profile is 1.0 only up to rounding, and 1 is not a
    bound: for the profile [1, 1] it is 1 + 2^-23, above 1; for [1, 2, 3]
    it is 1 - 2^-24; for [3, 4] it is exactly 1.0.  The sums, the square
    roots, the product and the quotient are each rounded once; no C library
    function other than [sqrtf] is involved. *)
Theorem cosine_similarity_rounds_binary32 (lm : Libm) (uninit : nat -> float32) :
  returns_array (nutrition_optimization uninit 0 1)
                (vector_matrix_example 2 1 [fone; fone] [fone; fone]) [1]
                [S754_finite false 8388609 (-23)]
  /\ returns_array (nutrition_optimization uninit 0 1)
                   (vector_matrix_example 3 1 [fone; two32; three32]
                                          [fone; two32; three32]) [1]
                   [S754_finite false 16777215 (-24)]
  /\ returns_array (nutrition_optimization uninit 0 1)
                   (vector_matrix_example 2 1 [three32; S754_finite false 8388608 (-21)]
                                          [three32; S754_finite false 8388608 (-21)])
                   [1]
                   [fone]
  /\ (F2Q (S754_finite false 8388609 (-23)) == 1 + (1 # 2) ^ 23)%Q
  /\ (F2Q (S754_finite false 16777215 (-24)) == 1 - (1 # 2) ^ 24)%Q
  /\ (F2Q (S754_finite false 8388608 (-21)) == 4)%Q.
Proof.
  assert (Run : forall (K : nat) (p : list float32),
             length p = K -> fits_int K ->
             returns_array (nutrition_optimization uninit 0 1)
                           (vector_matrix_example K 1 p p) [1] [cosine_match p p K 0]).
  { intros K p Lp FK.
    destruct (nutrition_optimization_run uninit (vector_matrix_example K 1 p p)
                0 1 K 1 p p) as (r & out & E & Hr & HL & Hout);
      try heap_lookup; try lia; try exact FK; try small.
    { unfold fits_int in *. lia. }
    rewrite (singleton_of_lookup out _ HL (Hout 0 ltac:(lia))) in E.
    exists r. split; assumption. }
  split; [|split; [|split; [|split; [|split]]]].
  - replace (S754_finite false 8388609 (-23))
      with (cosine_match (H := @F32_Num lm) [fone; fone] [fone; fone] 2 0)
      by (vm_compute; reflexivity).
    apply Run; [reflexivity | small].
  - replace (S754_finite false 16777215 (-24))
      with (cosine_match (H := @F32_Num lm) [fone; two32; three32]
                         [fone; two32; three32] 3 0)
      by (vm_compute; reflexivity).
    apply Run; [reflexivity | small].
  - replace (fone (T := float32))
      with (cosine_match (H := @F32_Num lm) [three32; S754_finite false 8388608 (-21)]
                         [three32; S754_finite false 8388608 (-21)] 2 0)
      by (vm_compute; reflexivity).
    apply Run; [reflexivity | small].
  - vm_compute. reflexivity.
  - vm_compute. reflexivity.
  - vm_compute. reflexivity.
Qed.
